(** * FarePlay Discovery Service: signed-write protocol, registry store
      and inactivity sweep

    A shallow embedding of the TypeScript sources
    ([src/utils/crypto.ts], [src/middleware/validation.ts],
    [src/routes/casinos.ts], [src/services/casinoService.ts],
    [src/types/index.ts]) together with the properties the service
    documentation states about them. *)

From Stdlib Require Import List String Ascii ZArith NArith Lia Bool.
From Stdlib Require Strings.Byte DecimalString.
From Stdlib Require Import Permutation Sorting.Sorted.
Import ListNotations.
Open Scope string_scope.
Set Warnings "-register-all".

(* ================================================================== *)
(** * ECMAScript strings and the default array sort *)
(* ================================================================== *)

(** Strings are sequences of code units; the model keeps the code units
    below 256, which covers every key of the request schemas. *)

Module JsString.

(** [Array.prototype.sort()] without a comparator orders its elements by
    code-unit-wise string comparison; [String.leb] is that comparison. *)
Fixpoint insert (x : string) (l : list string) : list string :=
  match l with
  | [] => [x]
  | y :: r => if String.leb x y then x :: y :: r else y :: insert x r
  end.

Fixpoint sort (l : list string) : list string :=
  match l with
  | [] => []
  | x :: r => insert x (sort r)
  end.

(** The order of that comparison. *)
Definition lexLe (a b : string) : Prop := String.leb a b = true.

Definition hexDigit (n : N) : ascii :=
  if (n <? 10)%N then ascii_of_N (48 + n) else ascii_of_N (87 + n).

(** [UnicodeEscape]: backslash, [u] and four lower-case hex digits. *)
Definition UnicodeEscape (c : ascii) : string :=
  let n := N_of_ascii c in
  String "\" (String "u" (String "0" (String "0"
    (String (hexDigit (n / 16)) (String (hexDigit (n mod 16)) EmptyString))))).

Definition quoteCodeUnit (c : ascii) : string :=
  let n := N_of_ascii c in
  if (n =? 8)%N then "\b"
  else if (n =? 9)%N then "\t"
  else if (n =? 10)%N then "\n"
  else if (n =? 12)%N then "\f"
  else if (n =? 13)%N then "\r"
  else if (n =? 34)%N then String "\" (String c EmptyString)
  else if (n =? 92)%N then "\\"
  else if (n <? 32)%N then UnicodeEscape c
  else String c EmptyString.

Fixpoint quoteCodeUnits (s : string) : string :=
  match s with
  | EmptyString => EmptyString
  | String c r => quoteCodeUnit c ++ quoteCodeUnits r
  end.

(** [QuoteJSONString] of ECMA-262. *)
Definition QuoteJSONString (s : string) : string :=
  String (ascii_of_N 34) (quoteCodeUnits s ++ String (ascii_of_N 34) EmptyString).

End JsString.

(* ================================================================== *)
(** * JSON values and [JSON.stringify] with an array replacer *)
(* ================================================================== *)

Module Json.
Import JsString.

Section Values.

(** The numbers of a payload are carried opaquely: [Number] is the type of
    ECMAScript numbers and [NumberToString] the text [JSON.stringify]
    emits for one (its [Number::toString], or [null] when not finite). *)
Variable Number : Type.
Variable NumberToString : Number -> string.

(** A JavaScript value as a request body holds it.  An object is the list of
    its own enumerable properties in enumeration order. *)
Inductive value : Type :=
  | JUndefined
  | JNull
  | JBool (b : bool)
  | JNumber (n : Number)
  | JString (s : string)
  | JArray (elements : list value)
  | JObject (properties : list (string * value)).

Definition object := list (string * value).

(** [Object.keys(o)] *)
Definition Object_keys (o : object) : list string := map fst o.

(** [Get(o, P)] on own properties. *)
Fixpoint Get (o : object) (P : string) : option value :=
  match o with
  | [] => None
  | (k, x) :: r => if String.eqb k P then Some x else Get r P
  end.

(** [const { [name]: _, ...rest } = o] *)
Definition omit (name : string) (o : object) : object :=
  filter (fun p => negb (String.eqb (fst p) name)) o.

(** The replacer array of [JSON.stringify] becomes the property list: its
    elements in index order, a repeated name kept at its first place. *)
Fixpoint PropertyListOf (replacer : list string) : list string :=
  match replacer with
  | [] => []
  | P :: r => P :: filter (fun Q => negb (String.eqb Q P)) (PropertyListOf r)
  end.

(** [SerializeJSONProperty], [SerializeJSONObject] and [SerializeJSONArray]
    of ECMA-262 with an empty gap.  [None] is the [undefined] result.  With a
    property list every object, at any depth, is serialized over the names
    of that one list, in the list's order; without one an object is
    serialized over its own keys in enumeration order. *)
Fixpoint SerializeJSONProperty (PropertyList : option (list string)) (v : value)
  : option string :=
  match v with
  | JUndefined => None
  | JNull => Some "null"
  | JBool true => Some "true"
  | JBool false => Some "false"
  | JNumber n => Some (NumberToString n)
  | JString s => Some (QuoteJSONString s)
  | JArray elements =>
      let partial :=
        map (fun e => match SerializeJSONProperty PropertyList e with
                      | Some strP => strP
                      | None => "null"
                      end) elements in
      Some ("[" ++ String.concat "," partial ++ "]")
  | JObject properties =>
      let K := match PropertyList with
               | Some names => names
               | None => map fst properties
               end in
      let partial :=
        flat_map (fun P =>
          match (fix GetSer (h : list (string * value)) : option string :=
                   match h with
                   | [] => None
                   | (k, x) :: r =>
                       if String.eqb k P
                       then SerializeJSONProperty PropertyList x
                       else GetSer r
                   end) properties with
          | Some strP => [QuoteJSONString P ++ ":" ++ strP]
          | None => []
          end) K in
      Some ("{" ++ String.concat "," partial ++ "}")
  end.

(** [JSON.stringify(value, replacer)] *)
Definition JSON_stringify (v : value) (replacer : option (list string))
  : option string :=
  SerializeJSONProperty (option_map PropertyListOf replacer) v.

(** The message a write request is signed over, as the three write paths
    compute it:
    [const { signature, ...dataToSign } = body;
     JSON.stringify(dataToSign, Object.keys(dataToSign).sort())].
    An object never stringifies to [undefined]. *)
Definition canonicalMessage (body : object) : string :=
  let dataToSign := omit "signature" body in
  match JSON_stringify (JObject dataToSign)
          (Some (sort (Object_keys dataToSign))) with
  | Some message => message
  | None => EmptyString
  end.

(** The text of one element of an array, and the member of an object for
    one name of the property list, as the serialization forms them. *)
Definition element (PL : option (list string)) (e : value) : string :=
  match SerializeJSONProperty PL e with
  | Some strP => strP
  | None => "null"
  end.

Definition member (PL : option (list string)) (m : object) (P : string)
  : list string :=
  match Get m P with
  | Some x =>
      match SerializeJSONProperty PL x with
      | Some strP => [QuoteJSONString P ++ ":" ++ strP]
      | None => []
      end
  | None => []
  end.

(** ** Vocabulary of the properties *)

(** A JavaScript object has each key once, at every depth. *)
Inductive uniqueKeys : value -> Prop :=
  | uk_undefined : uniqueKeys JUndefined
  | uk_null : uniqueKeys JNull
  | uk_bool b : uniqueKeys (JBool b)
  | uk_number n : uniqueKeys (JNumber n)
  | uk_string s : uniqueKeys (JString s)
  | uk_array l : Forall uniqueKeys l -> uniqueKeys (JArray l)
  | uk_object m :
      NoDup (map fst m) ->
      Forall (fun p => uniqueKeys (snd p)) m ->
      uniqueKeys (JObject m).

(** Two values are structurally equal when they differ at most in the order
    in which the properties of their objects were inserted, at any depth. *)
Inductive structurallyEqual : value -> value -> Prop :=
  | se_undefined : structurallyEqual JUndefined JUndefined
  | se_null : structurallyEqual JNull JNull
  | se_bool b : structurallyEqual (JBool b) (JBool b)
  | se_number n : structurallyEqual (JNumber n) (JNumber n)
  | se_string s : structurallyEqual (JString s) (JString s)
  | se_array l1 l2 :
      Forall2 structurallyEqual l1 l2 ->
      structurallyEqual (JArray l1) (JArray l2)
  | se_object m1 m m2 :
      Permutation m1 m ->
      Forall2 (fun p q => fst p = fst q /\ structurallyEqual (snd p) (snd q)) m m2 ->
      structurallyEqual (JObject m1) (JObject m2).

Definition sameField (p q : string * value) : Prop :=
  fst p = fst q /\ structurallyEqual (snd p) (snd q).

(** What a serialization over the property list [K] writes of a value: of
    every object, at any depth, the properties named in [K], in the order
    of [K]. *)
Fixpoint written (K : list string) (v : value) : value :=
  match v with
  | JArray elements => JArray (map (written K) elements)
  | JObject properties =>
      JObject
        (flat_map (fun P =>
           match (fix GetWritten (h : list (string * value)) : option value :=
                    match h with
                    | [] => None
                    | (k, x) :: r =>
                        if String.eqb k P then Some (written K x)
                        else GetWritten r
                    end) properties with
           | Some x => [(P, x)]
           | None => []
           end) K)
  | _ => v
  end.

Definition present (m : object) (P : string) : bool :=
  match Get m P with Some _ => true | None => false end.

Definition writtenMember (K : list string) (m : object) (P : string)
  : list (string * value) :=
  match Get m P with
  | Some x => [(P, written K x)]
  | None => []
  end.

(** The keys of every object of a value, at any depth, stand in
    lexicographic order. *)
Inductive sortedKeys : value -> Prop :=
  | sk_undefined : sortedKeys JUndefined
  | sk_null : sortedKeys JNull
  | sk_bool b : sortedKeys (JBool b)
  | sk_number n : sortedKeys (JNumber n)
  | sk_string s : sortedKeys (JString s)
  | sk_array l : Forall sortedKeys l -> sortedKeys (JArray l)
  | sk_object m :
      StronglySorted lexLe (map fst m) ->
      Forall (fun p => sortedKeys (snd p)) m ->
      sortedKeys (JObject m).

(** Following the spec's words: [canonicalize(payload, excludedFields)] is
    the serialization of the payload with the excluded fields removed and
    with every field key sorted lexicographically at every nesting level.
    [sortKeysAtEveryLevel] keeps every field of every object and puts the
    fields of each object in the order of that object's own sorted keys. *)
Fixpoint sortKeysAtEveryLevel (v : value) : value :=
  match v with
  | JArray elements => JArray (map sortKeysAtEveryLevel elements)
  | JObject properties =>
      JObject
        (flat_map (fun P =>
           match (fix GetSorted (h : list (string * value)) : option value :=
                    match h with
                    | [] => None
                    | (k, x) :: r =>
                        if String.eqb k P then Some (sortKeysAtEveryLevel x)
                        else GetSorted r
                    end) properties with
           | Some x => [(P, x)]
           | None => []
           end) (sort (map fst properties)))
  | _ => v
  end.

Definition canonicalize (payload : object) (excludedFields : list string)
  : string :=
  let kept :=
    filter (fun p => negb (existsb (String.eqb (fst p)) excludedFields)) payload in
  match JSON_stringify (sortKeysAtEveryLevel (JObject kept)) None with
  | Some message => message
  | None => EmptyString
  end.

End Values.

Arguments JUndefined {Number}.
Arguments JNull {Number}.
Arguments JBool {Number} b.
Arguments JNumber {Number} n.
Arguments JString {Number} s.
Arguments JArray {Number} elements.
Arguments JObject {Number} properties.
Arguments Object_keys {Number} o.
Arguments Get {Number} o P.
Arguments omit {Number} name o.
Arguments SerializeJSONProperty {Number} NumberToString PropertyList v.
Arguments JSON_stringify {Number} NumberToString v replacer.
Arguments canonicalMessage {Number} NumberToString body.
Arguments element {Number} NumberToString PL e.
Arguments member {Number} NumberToString PL m P.
Arguments sameField {Number} p q.
Arguments written {Number} K v.
Arguments sortKeysAtEveryLevel {Number} v.
Arguments canonicalize {Number} NumberToString payload excludedFields.
Arguments present {Number} m P.
Arguments writtenMember {Number} K m P.
Arguments sortedKeys {Number} _.
Arguments uniqueKeys {Number} _.
Arguments structurallyEqual {Number} _ _.

End Json.

Import JsString Json.

(* ================================================================== *)
(** * Exceptions and the platform the service runs on *)
(* ================================================================== *)

Definition bytes := list Byte.byte.

(** What a JavaScript call can throw here: an [Error] with its message, or a
    known-request error of the Prisma client with its code. *)
Inductive Exn : Type :=
  | JsError (message : string)
  | PrismaError (code : string).

Inductive result (A : Type) : Type :=
  | Ok (a : A)
  | Throw (e : Exn).
Arguments Ok {A} a.
Arguments Throw {A} e.

Definition try_catch {A} (body : result A) (handler : Exn -> result A) : result A :=
  match body with
  | Ok a => Ok a
  | Throw e => handler e
  end.

(** The libraries under the service, as an interface:
    - ECMAScript numbers, the number an integer denotes, the text of a number
      in JSON, and [ToBoolean] on a number;
    - [bs58.decode] ([None] when it throws on a character outside the
      alphabet);
    - the Ed25519 check of tweetnacl ([crypto_sign_open(...) >= 0]) on a
      message, a 64-byte signature and a 32-byte key. *)
Class Platform : Type := {
  Number : Type;
  NumberOfZ : Z -> Number;
  NumberToString : Number -> string;
  NumberToBoolean : Number -> bool;
  bs58_decode : string -> option bytes;
  crypto_sign_open_ok : bytes -> bytes -> bytes -> bool
}.

Section Model.
Context {platform : Platform}.

Local Open Scope list_scope.

Definition jsvalue : Type := Json.value Number.
Definition jsobject : Type := Json.object Number.

(* ================================================================== *)
(** * [src/utils/crypto.ts] *)
(* ================================================================== *)

(** [new TextEncoder().encode(s)]: UTF-8, one or two bytes per code unit
    below 256. *)
Definition utf8 (c : ascii) : bytes :=
  let n := N_of_ascii c in
  if (n <? 128)%N then [byte_of_ascii c]
  else [byte_of_ascii (ascii_of_N (192 + n / 64));
        byte_of_ascii (ascii_of_N (128 + n mod 64))].

Fixpoint TextEncoder_encode (s : string) : bytes :=
  match s with
  | EmptyString => []
  | String c r => utf8 c ++ TextEncoder_encode r
  end.

(** [new PublicKey(s).toBytes()] of @solana/web3.js: the base-58 decoding,
    which must be 32 bytes long. *)
Definition PublicKey_toBytes (publicKey : string) : result bytes :=
  match bs58_decode publicKey with
  | None => Throw (JsError "Non-base58 character")
  | Some decoded =>
      if Nat.eqb (List.length decoded) 32 then Ok decoded
      else Throw (JsError "Invalid public key input")
  end.

(** [nacl.sign.detached.verify] *)
Definition nacl_sign_detached_verify (msg sig publicKey : bytes) : result bool :=
  if negb (Nat.eqb (List.length sig) 64) then Throw (JsError "bad signature size")
  else if negb (Nat.eqb (List.length publicKey) 32) then Throw (JsError "bad public key size")
  else Ok (crypto_sign_open_ok msg sig publicKey).

(** The body of the [try] block of [verifySolanaSignature]. *)
Definition verifySolanaSignature_try (message signature publicKey : string)
  : result bool :=
  match bs58_decode signature with
  | None => Throw (JsError "Non-base58 character")
  | Some signatureBytes =>
      match PublicKey_toBytes publicKey with
      | Throw e => Throw e
      | Ok publicKeyBytes =>
          let messageBytes := TextEncoder_encode message in
          nacl_sign_detached_verify messageBytes signatureBytes publicKeyBytes
      end
  end.

Definition verifySolanaSignature (message signature publicKey : string)
  : result bool :=
  try_catch (verifySolanaSignature_try message signature publicKey)
            (fun _ => Ok false).

Definition isValidSolanaPublicKey (publicKey : string) : result bool :=
  try_catch (match PublicKey_toBytes publicKey with
             | Ok _ => Ok true
             | Throw e => Throw e
             end)
            (fun _ => Ok false).

(* ================================================================== *)
(** * [src/types/index.ts] *)
(* ================================================================== *)

Inductive CasinoStatus : Type := online | offline | maintenance | suspended.

Inductive GameType : Type :=
  | slots | roulette | dice | crash | coinflip | rps | bombs | cards
  | coinFlip | plinko | cards_1 | slots_1 | cryptoLaunch | cryptoLaunch_1.

Definition CasinoStatus_eqb (a b : CasinoStatus) : bool :=
  match a, b with
  | online, online | offline, offline
  | maintenance, maintenance | suspended, suspended => true
  | _, _ => false
  end.

Definition CasinoStatus_name (s : CasinoStatus) : string :=
  match s with
  | online => "online" | offline => "offline"
  | maintenance => "maintenance" | suspended => "suspended"
  end.

Definition GameType_name (g : GameType) : string :=
  match g with
  | slots => "slots" | roulette => "roulette" | dice => "dice"
  | crash => "crash" | coinflip => "coinflip" | rps => "rps"
  | bombs => "bombs" | cards => "cards" | coinFlip => "coinFlip"
  | plinko => "plinko" | cards_1 => "cards_1" | slots_1 => "slots_1"
  | cryptoLaunch => "cryptoLaunch" | cryptoLaunch_1 => "cryptoLaunch_1"
  end.

Definition GameType_eqb (a b : GameType) : bool :=
  String.eqb (GameType_name a) (GameType_name b).

Record SocialLinks : Type := {
  sl_twitter : option string;
  sl_discord : option string;
  sl_telegram : option string;
  sl_website : option string
}.

(** The [metadata] block of a registration or an update.  A field that is
    [undefined] is [None]. *)
Record MetadataInput : Type := {
  md_description : option string;
  md_games : option (list GameType);
  md_logo : option string;
  md_banner : option string;
  md_socialLinks : option SocialLinks;
  md_maxBetAmount : option Number;
  md_minBetAmount : option Number;
  md_supportedTokens : option (list string)
}.

Record RegistrationRequest : Type := {
  reg_name : string;
  reg_url : string;
  reg_publicKey : string;
  reg_signature : string;
  reg_metadata : MetadataInput
}.

Record HeartbeatMetrics : Type := {
  hm_activePlayers : option Number;
  hm_totalBets24h : option Number;
  hm_uptime : option Number;
  hm_responseTime : option Number
}.

Record HeartbeatPayload : Type := {
  hp_casinoId : string;
  hp_status : CasinoStatus;
  hp_timestamp : Z;
  hp_metrics : option HeartbeatMetrics;
  hp_signature : string
}.

Record CasinoUpdateRequest : Type := {
  cu_casinoId : string;
  cu_name : option string;
  cu_url : option string;
  cu_status : option CasinoStatus;
  cu_metadata : option MetadataInput;
  cu_signature : string
}.

Record CasinoFilters : Type := {
  cf_status : option CasinoStatus;
  cf_games : option (list GameType);
  cf_limit : nat;
  cf_offset : nat
}.

(** [RegistrationRequestSchema.parse] on a body the schema accepts: the two
    [.default(...)] fields of [metadata] are filled in.  What the schema
    refuses (a name, url or key out of bounds) is not modelled. *)
Definition RegistrationRequestSchema_parse (body : RegistrationRequest)
  : RegistrationRequest :=
  let md := reg_metadata body in
  {| reg_name := reg_name body;
     reg_url := reg_url body;
     reg_publicKey := reg_publicKey body;
     reg_signature := reg_signature body;
     reg_metadata :=
       {| md_description := md_description md;
          md_games := match md_games md with
                      | Some g => Some g
                      | None => Some []
                      end;
          md_logo := md_logo md;
          md_banner := md_banner md;
          md_socialLinks := md_socialLinks md;
          md_maxBetAmount := md_maxBetAmount md;
          md_minBetAmount := md_minBetAmount md;
          md_supportedTokens := match md_supportedTokens md with
                                | Some t => Some t
                                | None => Some ["SOL"]
                                end |} |}.

Inductive ErrorCode : Type :=
  | INVALID_SIGNATURE | CASINO_NOT_FOUND | INVALID_REQUEST | UNAUTHORIZED
  | RATE_LIMITED | INTERNAL_ERROR | CASINO_ALREADY_EXISTS | VALIDATION_ERROR.

(** ** The request body as the JavaScript object the handlers see

    [request.body] is the object zod's [parse] builds: the keys of the
    schema in schema order, an optional key left out when its value is
    [undefined]. *)

Definition optional {A} (key : string) (f : A -> jsvalue) (o : option A)
  : jsobject :=
  match o with
  | Some a => [(key, f a)]
  | None => []
  end.

Definition jsNumber (n : Number) : jsvalue := JNumber n.
Definition jsString (s : string) : jsvalue := JString s.
Definition jsStatus (s : CasinoStatus) : jsvalue := JString (CasinoStatus_name s).
Definition jsGames (g : list GameType) : jsvalue :=
  JArray (map (fun x => JString (GameType_name x)) g).
Definition jsTokens (t : list string) : jsvalue := JArray (map jsString t).

Definition jsSocialLinks (s : SocialLinks) : jsvalue :=
  JObject (optional "twitter" jsString (sl_twitter s)
        ++ optional "discord" jsString (sl_discord s)
        ++ optional "telegram" jsString (sl_telegram s)
        ++ optional "website" jsString (sl_website s)).

Definition jsMetadata (m : MetadataInput) : jsvalue :=
  JObject (optional "description" jsString (md_description m)
        ++ optional "games" jsGames (md_games m)
        ++ optional "logo" jsString (md_logo m)
        ++ optional "banner" jsString (md_banner m)
        ++ optional "socialLinks" jsSocialLinks (md_socialLinks m)
        ++ optional "maxBetAmount" jsNumber (md_maxBetAmount m)
        ++ optional "minBetAmount" jsNumber (md_minBetAmount m)
        ++ optional "supportedTokens" jsTokens (md_supportedTokens m)).

Definition jsMetrics (m : HeartbeatMetrics) : jsvalue :=
  JObject (optional "activePlayers" jsNumber (hm_activePlayers m)
        ++ optional "totalBets24h" jsNumber (hm_totalBets24h m)
        ++ optional "uptime" jsNumber (hm_uptime m)
        ++ optional "responseTime" jsNumber (hm_responseTime m)).

Definition RegistrationRequest_object (b : RegistrationRequest) : jsobject :=
  [("name", JString (reg_name b));
   ("url", JString (reg_url b));
   ("publicKey", JString (reg_publicKey b));
   ("signature", JString (reg_signature b));
   ("metadata", jsMetadata (reg_metadata b))].

Definition HeartbeatPayload_object (b : HeartbeatPayload) : jsobject :=
  [("casinoId", JString (hp_casinoId b));
   ("status", jsStatus (hp_status b));
   ("timestamp", JNumber (NumberOfZ (hp_timestamp b)))]
  ++ optional "metrics" jsMetrics (hp_metrics b)
  ++ [("signature", JString (hp_signature b))].

Definition CasinoUpdateRequest_object (b : CasinoUpdateRequest) : jsobject :=
  [("casinoId", JString (cu_casinoId b))]
  ++ optional "name" jsString (cu_name b)
  ++ optional "url" jsString (cu_url b)
  ++ optional "status" jsStatus (cu_status b)
  ++ optional "metadata" jsMetadata (cu_metadata b)
  ++ [("signature", JString (cu_signature b))].

(* ================================================================== *)
(** * The registry store (Prisma client over PostgreSQL) *)
(* ================================================================== *)

(** A row of [model Casino]. *)
Record Casino : Type := {
  c_id : string;
  c_publicKey : string;
  c_name : string;
  c_url : string;
  c_status : CasinoStatus;
  c_description : option string;
  c_games : list GameType;
  c_logo : option string;
  c_banner : option string;
  c_twitterUrl : option string;
  c_discordUrl : option string;
  c_telegramUrl : option string;
  c_websiteUrl : option string;
  c_maxBetAmount : option Number;
  c_minBetAmount : option Number;
  c_supportedTokens : list string;
  c_version : string;
  c_createdAt : Z;
  c_updatedAt : Z;
  c_lastHeartbeat : option Z
}.

(** A row of [model Heartbeat]. *)
Record HeartbeatRow : Type := {
  h_id : string;
  h_casinoId : string;
  h_status : CasinoStatus;
  h_activePlayers : option Number;
  h_totalBets24h : option Number;
  h_uptime : option Number;
  h_responseTime : option Number;
  h_timestamp : Z;
  h_signature : string
}.

Record Store : Type := {
  casinos : list Casino;
  heartbeats : list HeartbeatRow
}.

(** What one request draws from its surroundings: the clock ([Date.now()]
    and the store's [now()], in milliseconds) and the [uuid()] the store
    gives a new row. *)
Record Env : Type := {
  Date_now : Z;
  uuid : string
}.

(** The calls the properties speak about, in the order they are made. *)
Inductive Event : Type :=
  | VerifyCall (message signature publicKey : string)
  | CasinoCreate (row : Casino)
  | HeartbeatCreate (row : HeartbeatRow)
  | CasinoUpdate (id : string)
  | CasinoUpdateMany (count : nat).

Record World : Type := {
  store : Store;
  trace : list Event
}.

(** Handlers and services run in a state-and-exception monad over the world;
    a write that happened before a throw stays. *)
Definition M (A : Type) : Type := World -> result A * World.

Definition ret {A} (a : A) : M A := fun w => (Ok a, w).
Definition throw {A} (e : Exn) : M A := fun w => (Throw e, w).
Definition bind {A B} (m : M A) (k : A -> M B) : M B :=
  fun w => match m w with
           | (Ok a, w') => k a w'
           | (Throw e, w') => (Throw e, w')
           end.
Definition catch {A} (m : M A) (handler : Exn -> M A) : M A :=
  fun w => match m w with
           | (Ok a, w') => (Ok a, w')
           | (Throw e, w') => handler e w'
           end.
Definition liftResult {A} (r : result A) : M A := fun w => (r, w).
Definition getStore : M Store := fun w => (Ok (store w), w).
Definition putStore (s : Store) (e : Event) : M unit :=
  fun w => (Ok tt, {| store := s; trace := trace w ++ [e] |}).
Definition logEvent (e : Event) : M unit :=
  fun w => (Ok tt, {| store := store w; trace := trace w ++ [e] |}).

Notation "x <- m ;; k" := (bind m (fun x => k))
  (at level 61, m at next level, right associativity).

(** [verifySolanaSignature] as the handlers call it. *)
Definition callVerify (message signature publicKey : string) : M bool :=
  _ <- logEvent (VerifyCall message signature publicKey) ;;
  liftResult (verifySolanaSignature message signature publicKey).

(** ** [prisma.casino] *)

Definition prisma_casino_findUnique_id (id : string) : M (option Casino) :=
  s <- getStore ;;
  ret (find (fun c => String.eqb (c_id c) id) (casinos s)).

Definition prisma_casino_findUnique_publicKey (publicKey : string)
  : M (option Casino) :=
  s <- getStore ;;
  ret (find (fun c => String.eqb (c_publicKey c) publicKey) (casinos s)).

(** The fields [registerCasino] passes to [create]. *)
Record CasinoCreateInput : Type := {
  ci_publicKey : string;
  ci_name : string;
  ci_url : string;
  ci_status : CasinoStatus;
  ci_description : option string;
  ci_games : list GameType;
  ci_logo : option string;
  ci_banner : option string;
  ci_twitterUrl : option string;
  ci_discordUrl : option string;
  ci_telegramUrl : option string;
  ci_websiteUrl : option string;
  ci_maxBetAmount : option Number;
  ci_minBetAmount : option Number;
  ci_supportedTokens : list string;
  ci_version : string
}.

(** [create]: [id] is [@default(uuid())], [createdAt] is [@default(now())],
    [updatedAt] is [@updatedAt], [lastHeartbeat] is nullable and not given.
    [id] is the primary key and [publicKey] is [@unique]: a clash is the
    client's error P2002 and writes nothing. *)
Definition prisma_casino_create (env : Env) (data : CasinoCreateInput) : M Casino :=
  s <- getStore ;;
  if existsb (fun c => String.eqb (c_id c) (uuid env)
                       || String.eqb (c_publicKey c) (ci_publicKey data))
             (casinos s)
  then throw (PrismaError "P2002")
  else
    let row :=
      {| c_id := uuid env;
         c_publicKey := ci_publicKey data;
         c_name := ci_name data;
         c_url := ci_url data;
         c_status := ci_status data;
         c_description := ci_description data;
         c_games := ci_games data;
         c_logo := ci_logo data;
         c_banner := ci_banner data;
         c_twitterUrl := ci_twitterUrl data;
         c_discordUrl := ci_discordUrl data;
         c_telegramUrl := ci_telegramUrl data;
         c_websiteUrl := ci_websiteUrl data;
         c_maxBetAmount := ci_maxBetAmount data;
         c_minBetAmount := ci_minBetAmount data;
         c_supportedTokens := ci_supportedTokens data;
         c_version := ci_version data;
         c_createdAt := Date_now env;
         c_updatedAt := Date_now env;
         c_lastHeartbeat := None |} in
    _ <- putStore {| casinos := casinos s ++ [row];
                     heartbeats := heartbeats s |} (CasinoCreate row) ;;
    ret row.

(** [Prisma.CasinoUpdateInput]: a field that was not assigned is [None]. *)
Record CasinoUpdateInput : Type := {
  u_name : option string;
  u_url : option string;
  u_status : option CasinoStatus;
  u_description : option string;
  u_games : option (list GameType);
  u_logo : option string;
  u_banner : option string;
  u_twitterUrl : option string;
  u_discordUrl : option string;
  u_telegramUrl : option string;
  u_websiteUrl : option string;
  u_maxBetAmount : option Number;
  u_minBetAmount : option Number;
  u_supportedTokens : option (list string);
  u_lastHeartbeat : option Z
}.

Definition isSome {A} (o : option A) : bool :=
  match o with Some _ => true | None => false end.

Definition CasinoUpdateInput_isEmpty (d : CasinoUpdateInput) : bool :=
  negb (isSome (u_name d) || isSome (u_url d) || isSome (u_status d)
        || isSome (u_description d) || isSome (u_games d) || isSome (u_logo d)
        || isSome (u_banner d) || isSome (u_twitterUrl d)
        || isSome (u_discordUrl d) || isSome (u_telegramUrl d)
        || isSome (u_websiteUrl d) || isSome (u_maxBetAmount d)
        || isSome (u_minBetAmount d) || isSome (u_supportedTokens d)
        || isSome (u_lastHeartbeat d)).

Definition set {A} (new : option A) (old : A) : A :=
  match new with Some v => v | None => old end.

Definition setNullable {A} (new : option A) (old : option A) : option A :=
  match new with Some v => Some v | None => old end.

(** The row after an update at time [now]: the assigned columns take their
    new value and every other column stays.  [updatedAt] is [@updatedAt]: the
    client writes [now()] into it along with the assigned columns, and
    writes nothing when no column is assigned. *)
Definition applyUpdate (now : Z) (d : CasinoUpdateInput) (c : Casino) : Casino :=
  {| c_id := c_id c;
     c_publicKey := c_publicKey c;
     c_name := set (u_name d) (c_name c);
     c_url := set (u_url d) (c_url c);
     c_status := set (u_status d) (c_status c);
     c_description := setNullable (u_description d) (c_description c);
     c_games := set (u_games d) (c_games c);
     c_logo := setNullable (u_logo d) (c_logo c);
     c_banner := setNullable (u_banner d) (c_banner c);
     c_twitterUrl := setNullable (u_twitterUrl d) (c_twitterUrl c);
     c_discordUrl := setNullable (u_discordUrl d) (c_discordUrl c);
     c_telegramUrl := setNullable (u_telegramUrl d) (c_telegramUrl c);
     c_websiteUrl := setNullable (u_websiteUrl d) (c_websiteUrl c);
     c_maxBetAmount := setNullable (u_maxBetAmount d) (c_maxBetAmount c);
     c_minBetAmount := setNullable (u_minBetAmount d) (c_minBetAmount c);
     c_supportedTokens := set (u_supportedTokens d) (c_supportedTokens c);
     c_version := c_version c;
     c_createdAt := c_createdAt c;
     c_updatedAt := if CasinoUpdateInput_isEmpty d then c_updatedAt c else now;
     c_lastHeartbeat := setNullable (u_lastHeartbeat d) (c_lastHeartbeat c) |}.

Definition updateWhere (p : Casino -> bool) (f : Casino -> Casino)
  (rows : list Casino) : list Casino :=
  map (fun c => if p c then f c else c) rows.

(** [update({ where: { id }, data })]: P2025 when no row has the id. *)
Definition prisma_casino_update (env : Env) (id : string) (data : CasinoUpdateInput)
  : M Casino :=
  s <- getStore ;;
  match find (fun c => String.eqb (c_id c) id) (casinos s) with
  | None => throw (PrismaError "P2025")
  | Some old =>
      _ <- putStore
             {| casinos := updateWhere (fun c => String.eqb (c_id c) id)
                             (applyUpdate (Date_now env) data) (casinos s);
                heartbeats := heartbeats s |} (CasinoUpdate id) ;;
      ret (applyUpdate (Date_now env) data old)
  end.

(** [updateMany({ where, data })] returns the number of rows it matched. *)
Definition prisma_casino_updateMany (env : Env) (where_ : Casino -> bool)
  (data : CasinoUpdateInput) : M nat :=
  s <- getStore ;;
  let count := List.length (filter where_ (casinos s)) in
  _ <- putStore {| casinos := updateWhere where_ (applyUpdate (Date_now env) data)
                                (casinos s);
                   heartbeats := heartbeats s |} (CasinoUpdateMany count) ;;
  ret count.

(** [orderBy: { lastHeartbeat: 'desc' }] is [ORDER BY "lastHeartbeat" DESC];
    PostgreSQL sorts a null as larger than every value, so with [DESC] the
    rows whose [lastHeartbeat] is null come first.  [desc_before a b] says
    that [a] may stand before [b]. *)
Definition desc_before (a b : Casino) : bool :=
  match c_lastHeartbeat a, c_lastHeartbeat b with
  | None, _ => true
  | Some _, None => false
  | Some x, Some y => (y <=? x)%Z
  end.

(** Rows with the same [lastHeartbeat] are ties, which the database may
    return in any order; [orderByLastHeartbeatDesc] returns one such order,
    the one that keeps ties in stored order. *)
Fixpoint insertRow (x : Casino) (l : list Casino) : list Casino :=
  match l with
  | [] => [x]
  | y :: r => if desc_before x y then x :: y :: r else y :: insertRow x r
  end.

Fixpoint orderByLastHeartbeatDesc (l : list Casino) : list Casino :=
  match l with
  | [] => []
  | x :: r => insertRow x (orderByLastHeartbeatDesc r)
  end.

Definition prisma_casino_findMany (where_ : Casino -> bool) (skip take : nat)
  : M (list Casino) :=
  s <- getStore ;;
  ret (firstn take (skipn skip
         (orderByLastHeartbeatDesc (filter where_ (casinos s))))).

Definition prisma_casino_count (where_ : Casino -> bool) : M nat :=
  s <- getStore ;;
  ret (List.length (filter where_ (casinos s))).

(** ** [prisma.heartbeat] *)

Record HeartbeatCreateInput : Type := {
  hi_casinoId : string;
  hi_status : CasinoStatus;
  hi_activePlayers : option Number;
  hi_totalBets24h : option Number;
  hi_uptime : option Number;
  hi_responseTime : option Number;
  hi_signature : string;
  hi_timestamp : option Z
}.

(** [create]: [timestamp] is [@default(now())] when the caller leaves it out;
    [casinoId] is a foreign key (P2003 when no casino has it).  The client
    also refuses a value that does not fit its column (a timestamp outside
    the range of [Date], a number outside an [Int] column); those refusals
    are not modelled, so a write that succeeds here is one the store takes
    when the values fit. *)
Definition prisma_heartbeat_create (env : Env) (data : HeartbeatCreateInput)
  : M HeartbeatRow :=
  s <- getStore ;;
  if negb (existsb (fun c => String.eqb (c_id c) (hi_casinoId data)) (casinos s))
  then throw (PrismaError "P2003")
  else if existsb (fun h => String.eqb (h_id h) (uuid env)) (heartbeats s)
  then throw (PrismaError "P2002")
  else
    let row :=
      {| h_id := uuid env;
         h_casinoId := hi_casinoId data;
         h_status := hi_status data;
         h_activePlayers := hi_activePlayers data;
         h_totalBets24h := hi_totalBets24h data;
         h_uptime := hi_uptime data;
         h_responseTime := hi_responseTime data;
         h_timestamp := match hi_timestamp data with
                        | Some t => t
                        | None => Date_now env
                        end;
         h_signature := hi_signature data |} in
    _ <- putStore {| casinos := casinos s;
                     heartbeats := heartbeats s ++ [row] |} (HeartbeatCreate row) ;;
    ret row.

(* ================================================================== *)
(** * [src/services/casinoService.ts] *)
(* ================================================================== *)

Record MetadataResponse : Type := {
  mr_description : option string;
  mr_games : list GameType;
  mr_logo : option string;
  mr_banner : option string;
  mr_socialLinks : SocialLinks;
  mr_maxBetAmount : option Number;
  mr_minBetAmount : option Number;
  mr_supportedTokens : list string
}.

Record CasinoMetadata : Type := {
  cm_id : string;
  cm_name : string;
  cm_url : string;
  cm_publicKey : string;
  cm_status : CasinoStatus;
  cm_metadata : MetadataResponse;
  cm_createdAt : Z;
  cm_updatedAt : Z;
  cm_lastHeartbeat : option Z;
  cm_version : string
}.

(** [x || undefined] on a nullable string and on a nullable number. *)
Definition orUndefinedString (x : option string) : option string :=
  match x with
  | Some s => if String.eqb s EmptyString then None else Some s
  | None => None
  end.

Definition orUndefinedNumber (x : option Number) : option Number :=
  match x with
  | Some n => if NumberToBoolean n then Some n else None
  | None => None
  end.

Definition formatCasinoResponse (casino : Casino) : CasinoMetadata :=
  {| cm_id := c_id casino;
     cm_name := c_name casino;
     cm_url := c_url casino;
     cm_publicKey := c_publicKey casino;
     cm_status := c_status casino;
     cm_metadata :=
       {| mr_description := orUndefinedString (c_description casino);
          mr_games := c_games casino;
          mr_logo := orUndefinedString (c_logo casino);
          mr_banner := orUndefinedString (c_banner casino);
          mr_socialLinks :=
            {| sl_twitter := orUndefinedString (c_twitterUrl casino);
               sl_discord := orUndefinedString (c_discordUrl casino);
               sl_telegram := orUndefinedString (c_telegramUrl casino);
               sl_website := orUndefinedString (c_websiteUrl casino) |};
          mr_maxBetAmount := orUndefinedNumber (c_maxBetAmount casino);
          mr_minBetAmount := orUndefinedNumber (c_minBetAmount casino);
          mr_supportedTokens := c_supportedTokens casino |};
     cm_createdAt := c_createdAt casino;
     cm_updatedAt := c_updatedAt casino;
     cm_lastHeartbeat := c_lastHeartbeat casino;
     cm_version := c_version casino |}.

(** [o?.field] *)
Definition optChain {A B} (o : option A) (field : A -> option B) : option B :=
  match o with
  | Some a => field a
  | None => None
  end.

(** [xs || dflt] on an array: every array is truthy. *)
Definition orDefault {A} (xs : option (list A)) (dflt : list A) : list A :=
  match xs with
  | Some l => l
  | None => dflt
  end.

Definition registerCasino (env : Env) (input : RegistrationRequest)
  : M CasinoMetadata :=
  existing <- prisma_casino_findUnique_publicKey (reg_publicKey input) ;;
  match existing with
  | Some _ => throw (JsError "CASINO_ALREADY_EXISTS")
  | None =>
      let md := reg_metadata input in
      casino <- prisma_casino_create env
        {| ci_publicKey := reg_publicKey input;
           ci_name := reg_name input;
           ci_url := reg_url input;
           ci_status := online;
           ci_description := md_description md;
           ci_games := orDefault (md_games md) [];
           ci_logo := md_logo md;
           ci_banner := md_banner md;
           ci_twitterUrl := optChain (md_socialLinks md) sl_twitter;
           ci_discordUrl := optChain (md_socialLinks md) sl_discord;
           ci_telegramUrl := optChain (md_socialLinks md) sl_telegram;
           ci_websiteUrl := optChain (md_socialLinks md) sl_website;
           ci_maxBetAmount := md_maxBetAmount md;
           ci_minBetAmount := md_minBetAmount md;
           ci_supportedTokens := orDefault (md_supportedTokens md) ["SOL"];
           ci_version := "1.0.0" |} ;;
      ret (formatCasinoResponse casino)
  end.

Record HeartbeatAck : Type := {
  ack_success : bool;
  ack_timestamp : Z;
  ack_nextHeartbeatIn : option Z
}.

Definition updateHeartbeat (env : Env) (input : HeartbeatPayload) : M HeartbeatAck :=
  found <- prisma_casino_findUnique_id (hp_casinoId input) ;;
  match found with
  | None => throw (JsError "CASINO_NOT_FOUND")
  | Some casino =>
      _ <- prisma_heartbeat_create env
        {| hi_casinoId := c_id casino;
           hi_status := hp_status input;
           hi_activePlayers := optChain (hp_metrics input) hm_activePlayers;
           hi_totalBets24h := optChain (hp_metrics input) hm_totalBets24h;
           hi_uptime := optChain (hp_metrics input) hm_uptime;
           hi_responseTime := optChain (hp_metrics input) hm_responseTime;
           hi_signature := hp_signature input;
           hi_timestamp := Some (hp_timestamp input) |} ;;
      _ <- prisma_casino_update env (c_id casino)
        {| u_name := None; u_url := None;
           u_status := Some (hp_status input);
           u_description := None; u_games := None; u_logo := None;
           u_banner := None; u_twitterUrl := None; u_discordUrl := None;
           u_telegramUrl := None; u_websiteUrl := None;
           u_maxBetAmount := None; u_minBetAmount := None;
           u_supportedTokens := None;
           u_lastHeartbeat := Some (hp_timestamp input) |} ;;
      ret {| ack_success := true;
             ack_timestamp := Date_now env;
             ack_nextHeartbeatIn := Some 60%Z |}
  end.

(** The [updateData] object [updateCasino] builds: a column is assigned
    exactly when its input field is not [undefined]; the [metadata] and
    [socialLinks] blocks are looked into only when present. *)
Definition updateData (input : CasinoUpdateRequest) : CasinoUpdateInput :=
  let md {B} (field : MetadataInput -> option B) : option B :=
    optChain (cu_metadata input) field in
  let social (field : SocialLinks -> option string) : option string :=
    optChain (optChain (cu_metadata input) md_socialLinks) field in
  {| u_name := cu_name input;
     u_url := cu_url input;
     u_status := cu_status input;
     u_description := md md_description;
     u_games := md md_games;
     u_logo := md md_logo;
     u_banner := md md_banner;
     u_twitterUrl := social sl_twitter;
     u_discordUrl := social sl_discord;
     u_telegramUrl := social sl_telegram;
     u_websiteUrl := social sl_website;
     u_maxBetAmount := md md_maxBetAmount;
     u_minBetAmount := md md_minBetAmount;
     u_supportedTokens := md md_supportedTokens;
     u_lastHeartbeat := None |}.

Definition updateCasino (env : Env) (input : CasinoUpdateRequest)
  : M CasinoMetadata :=
  found <- prisma_casino_findUnique_id (cu_casinoId input) ;;
  match found with
  | None => throw (JsError "CASINO_NOT_FOUND")
  | Some casino =>
      updated <- prisma_casino_update env (c_id casino) (updateData input) ;;
      ret (formatCasinoResponse updated)
  end.

Definition getCasinoById (id : string) : M (option CasinoMetadata) :=
  casino <- prisma_casino_findUnique_id id ;;
  ret (option_map formatCasinoResponse casino).

Definition getCasinoByPublicKey (publicKey : string) : M (option CasinoMetadata) :=
  casino <- prisma_casino_findUnique_publicKey publicKey ;;
  ret (option_map formatCasinoResponse casino).

(** The [where] of [getCasinos]: [status] equal to the filter when one is
    given, and [games: { hasSome }] when the games filter is a non-empty
    array. *)
Definition hasSome (wanted : list GameType) (c : Casino) : bool :=
  existsb (fun g => existsb (GameType_eqb g) wanted) (c_games c).

Definition casinosWhere (filters : CasinoFilters) (c : Casino) : bool :=
  match cf_status filters with
  | Some st => CasinoStatus_eqb (c_status c) st
  | None => true
  end
  &&
  match cf_games filters with
  | Some (g :: gs) => hasSome (g :: gs) c
  | _ => true
  end.

Record CasinosPage : Type := {
  pg_casinos : list CasinoMetadata;
  pg_total : nat;
  pg_limit : nat;
  pg_offset : nat
}.

Definition getCasinos (filters : CasinoFilters) : M CasinosPage :=
  let where_ := casinosWhere filters in
  rows <- prisma_casino_findMany where_ (cf_offset filters) (cf_limit filters) ;;
  total <- prisma_casino_count where_ ;;
  ret {| pg_casinos := map formatCasinoResponse rows;
         pg_total := total;
         pg_limit := cf_limit filters;
         pg_offset := cf_offset filters |}.

(** The [where] of [markInactiveCasinos]: [lastHeartbeat < cutoff] (false on
    a null) and [status] other than ['offline']. *)
Definition inactiveWhere (cutoff : Z) (c : Casino) : bool :=
  match c_lastHeartbeat c with
  | Some t => (t <? cutoff)%Z
  | None => false
  end
  && negb (CasinoStatus_eqb (c_status c) offline).

Definition offlineData : CasinoUpdateInput :=
  {| u_name := None; u_url := None; u_status := Some offline;
     u_description := None; u_games := None; u_logo := None;
     u_banner := None; u_twitterUrl := None; u_discordUrl := None;
     u_telegramUrl := None; u_websiteUrl := None;
     u_maxBetAmount := None; u_minBetAmount := None;
     u_supportedTokens := None; u_lastHeartbeat := None |}.

Definition markInactiveCasinos (env : Env) (timeoutMinutes : Z) : M nat :=
  let cutoff := (Date_now env - timeoutMinutes * 60 * 1000)%Z in
  prisma_casino_updateMany env (inactiveWhere cutoff) offlineData.

(* ================================================================== *)
(** * [src/middleware/validation.ts] and [src/routes/casinos.ts] *)
(* ================================================================== *)

Inductive ResponseData : Type :=
  | DataCasino (casino : CasinoMetadata)
  | DataHeartbeat (ack : HeartbeatAck)
  | DataCasinos (page : CasinosPage).

Record ApiError : Type := {
  err_code : ErrorCode;
  err_message : string
}.

Record Reply : Type := {
  statusCode : Z;
  success : bool;
  data : option ResponseData;
  error : option ApiError;
  timestamp : Z
}.

Definition sendData (env : Env) (status : Z) (d : ResponseData) : Reply :=
  {| statusCode := status; success := true; data := Some d; error := None;
     timestamp := Date_now env |}.

Definition sendError (env : Env) (status : Z) (code : ErrorCode) (message : string)
  : Reply :=
  {| statusCode := status; success := false; data := None;
     error := Some {| err_code := code; err_message := message |};
     timestamp := Date_now env |}.

(** [error instanceof Error && error.message === name] *)
Definition hasMessage (e : Exn) (name : string) : bool :=
  match e with
  | JsError m => String.eqb m name
  | PrismaError _ => false
  end.

(** The pre-handler of the registration route; [Some reply] when it has
    answered the request itself. *)
Definition verifyRegistrationSignature (env : Env) (body : RegistrationRequest)
  : M (option Reply) :=
  if String.eqb (reg_signature body) EmptyString then
    ret (Some (sendError env 400 INVALID_REQUEST "Missing signature"))
  else if String.eqb (reg_publicKey body) EmptyString then
    ret (Some (sendError env 400 INVALID_REQUEST "Missing publicKey"))
  else
    validKey <- liftResult (isValidSolanaPublicKey (reg_publicKey body)) ;;
    if negb validKey then
      ret (Some (sendError env 400 INVALID_REQUEST "Invalid Solana public key format"))
    else
      let message := canonicalMessage NumberToString (RegistrationRequest_object body) in
      isValid <- callVerify message (reg_signature body) (reg_publicKey body) ;;
      if negb isValid then
        ret (Some (sendError env 401 INVALID_SIGNATURE "Signature verification failed"))
      else ret None.

(** [POST /api/casinos/register], for a body that
    [validateBody(RegistrationRequestSchema)] lets through: the refusals of
    the schema (400 [VALIDATION_ERROR]) come before everything here and are
    not modelled. *)
Definition registerRoute (env : Env) (rawBody : RegistrationRequest) : M Reply :=
  let body := RegistrationRequestSchema_parse rawBody in
  answered <- verifyRegistrationSignature env body ;;
  match answered with
  | Some reply => ret reply
  | None =>
      catch (casino <- registerCasino env body ;;
             ret (sendData env 201 (DataCasino casino)))
            (fun e =>
               if hasMessage e "CASINO_ALREADY_EXISTS" then
                 ret (sendError env 409 CASINO_ALREADY_EXISTS
                        "Casino with this public key is already registered")
               else throw e)
  end.

(** [POST /api/casinos/heartbeat], for a body that
    [validateBody(HeartbeatPayloadSchema)] lets through. *)
Definition heartbeatRoute (env : Env) (body : HeartbeatPayload) : M Reply :=
  catch (casino <- getCasinoById (hp_casinoId body) ;;
         match casino with
         | None => ret (sendError env 404 CASINO_NOT_FOUND "Casino not found")
         | Some casino =>
             let message := canonicalMessage NumberToString (HeartbeatPayload_object body) in
             isValid <- callVerify message (hp_signature body) (cm_publicKey casino) ;;
             if negb isValid then
               ret (sendError env 401 INVALID_SIGNATURE "Signature verification failed")
             else
               result <- updateHeartbeat env body ;;
               ret (sendData env 200 (DataHeartbeat result))
         end)
        (fun e =>
           if hasMessage e "CASINO_NOT_FOUND" then
             ret (sendError env 404 CASINO_NOT_FOUND "Casino not found")
           else throw e).

(** [PATCH /api/casinos], for a body that
    [validateBody(CasinoUpdateRequestSchema)] lets through. *)
Definition updateRoute (env : Env) (body : CasinoUpdateRequest) : M Reply :=
  catch (casino <- getCasinoById (cu_casinoId body) ;;
         match casino with
         | None => ret (sendError env 404 CASINO_NOT_FOUND "Casino not found")
         | Some casino =>
             let message := canonicalMessage NumberToString (CasinoUpdateRequest_object body) in
             isValid <- callVerify message (cu_signature body) (cm_publicKey casino) ;;
             if negb isValid then
               ret (sendError env 401 INVALID_SIGNATURE "Signature verification failed")
             else
               updated <- updateCasino env body ;;
               ret (sendData env 200 (DataCasino updated))
         end)
        (fun e =>
           if hasMessage e "CASINO_NOT_FOUND" then
             ret (sendError env 404 CASINO_NOT_FOUND "Casino not found")
           else throw e).

(** [GET /api/casinos] *)
Definition listRoute (env : Env) (query : CasinoFilters) : M Reply :=
  result <- getCasinos query ;;
  ret (sendData env 200 (DataCasinos result)).

(* ================================================================== *)
(** * Vocabulary of the properties *)
(* ================================================================== *)

(** The protocol version the service reports at its root endpoint
    ([protocolVersion: '1.0.0'] in [src/app.ts]). *)
Definition protocolVersion : string := "1.0.0".

(** Two orders on a page of results, by [lastHeartbeat]: most recently seen
    first with the never-seen casinos ahead of all others, and most recently
    seen first with the never-seen casinos behind all others. *)
Definition neverSeenFirst (a b : CasinoMetadata) : Prop :=
  match cm_lastHeartbeat a, cm_lastHeartbeat b with
  | None, _ => True
  | Some _, None => False
  | Some x, Some y => (y <= x)%Z
  end.

Definition neverSeenLast (a b : CasinoMetadata) : Prop :=
  match cm_lastHeartbeat a, cm_lastHeartbeat b with
  | _, None => True
  | None, Some _ => False
  | Some x, Some y => (y <= x)%Z
  end.

(** [before a b]: the ordering of the list query lets [a] stand before [b]. *)
Definition before (a b : Casino) : Prop := desc_before a b = true.

(** A field after a partial merge: the given value when one was given, the
    old value otherwise. *)
Definition merged {A} (given : option A) (old new : A) : Prop :=
  match given with
  | Some v => new = v
  | None => new = old
  end.

Definition mergedNullable {A} (given : option A) (old new : option A) : Prop :=
  match given with
  | Some v => new = Some v
  | None => new = old
  end.

(** The public keys on file. *)
Definition publicKeys (w : World) : list string :=
  map c_publicKey (casinos (store w)).

(** One request, or one run of the sweep, takes the world from [w] to [w']. *)
Inductive step (w w' : World) : Prop :=
  | step_register env raw r :
      registerRoute env raw w = (r, w') -> step w w'
  | step_heartbeat env body r :
      heartbeatRoute env body w = (r, w') -> step w w'
  | step_update env body r :
      updateRoute env body w = (r, w') -> step w w'
  | step_list env query r :
      listRoute env query w = (r, w') -> step w w'
  | step_sweep env timeoutMinutes r :
      markInactiveCasinos env timeoutMinutes w = (r, w') -> step w w'.

Definition emptyWorld : World :=
  {| store := {| casinos := []; heartbeats := [] |}; trace := [] |}.

(** The worlds the service can be in, starting from an empty store. *)
Inductive reachable : World -> Prop :=
  | reachable_empty : reachable emptyWorld
  | reachable_step w w' : reachable w -> step w w' -> reachable w'.

(** A casino is stale at [cutoff] when it was last seen strictly before it
    and is not offline already. *)
Definition stale (cutoff : Z) (c : Casino) : Prop :=
  (exists seen, c_lastHeartbeat c = Some seen /\ (seen < cutoff)%Z)
  /\ c_status c <> offline.

(** The row a sweep at time [now] leaves in place of a stale row. *)
Definition swept (now : Z) (c : Casino) : Casino :=
  applyUpdate now offlineData c.

(** The number of rows whose status differs between two states of the
    table. *)
Fixpoint transitions (before after : list Casino) : nat :=
  match before, after with
  | b :: bs, a :: as_ =>
      (if CasinoStatus_eqb (c_status b) (c_status a) then 0 else 1)
      + transitions bs as_
  | _, _ => 0
  end.

(* ================================================================== *)
(** * The read endpoints, the statistics and the error handler *)
(* ================================================================== *)

(** [GET /api/casinos/:id] *)
Definition casinoByIdRoute (env : Env) (id : string) : M Reply :=
  casino <- getCasinoById id ;;
  match casino with
  | None => ret (sendError env 404 CASINO_NOT_FOUND "Casino not found")
  | Some casino => ret (sendData env 200 (DataCasino casino))
  end.

(** [GET /api/casinos/by-key/:publicKey] *)
Definition casinoByKeyRoute (env : Env) (publicKey : string) : M Reply :=
  casino <- getCasinoByPublicKey publicKey ;;
  match casino with
  | None => ret (sendError env 404 CASINO_NOT_FOUND "Casino not found")
  | Some casino => ret (sendData env 200 (DataCasino casino))
  end.

Record Statistics : Type := {
  totalCasinos : nat;
  onlineCasinos : nat;
  heartbeatsLast24h : nat
}.

Definition prisma_heartbeat_count (where_ : HeartbeatRow -> bool) : M nat :=
  s <- getStore ;;
  ret (List.length (filter where_ (heartbeats s))).

(** [timestamp: { gte: new Date(Date.now() - 24 * 60 * 60 * 1000) }] *)
Definition inLast24h (env : Env) (h : HeartbeatRow) : bool :=
  (Date_now env - 24 * 60 * 60 * 1000 <=? h_timestamp h)%Z.

Definition getStatistics (env : Env) : M Statistics :=
  total <- prisma_casino_count (fun _ => true) ;;
  online_ <- prisma_casino_count (fun c => CasinoStatus_eqb (c_status c) online) ;;
  recentHeartbeats <- prisma_heartbeat_count (inLast24h env) ;;
  ret {| totalCasinos := total;
         onlineCasinos := online_;
         heartbeatsLast24h := recentHeartbeats |}.

(** The error the framework hands to [errorHandler]: its [statusCode], when
    it has one, and its [message]. *)
Record FastifyError : Type := {
  fe_statusCode : option Z;
  fe_message : string
}.

(** [errorHandler] of [src/middleware/errorHandler.ts] (the logging call left
    out).  [error.statusCode || 500] is 500 for a missing status code and for
    the status code 0. *)
Definition statusIs (error : FastifyError) (n : Z) : bool :=
  match fe_statusCode error with
  | Some m => (m =? n)%Z
  | None => false
  end.

Definition errorHandler (env : Env) (error : FastifyError) : Reply :=
  if statusIs error 429 then
    sendError env 429 RATE_LIMITED "Too many requests, please try again later"
  else
    let statusCode := match fe_statusCode error with
                      | Some m => if (m =? 0)%Z then 500%Z else m
                      | None => 500%Z
                      end in
    let message := fe_message error in
    if String.eqb message "CASINO_NOT_FOUND" then
      sendError env 404 CASINO_NOT_FOUND message
    else if String.eqb message "CASINO_ALREADY_EXISTS" then
      sendError env 409 CASINO_ALREADY_EXISTS message
    else if String.eqb message "INVALID_SIGNATURE" then
      sendError env 401 INVALID_SIGNATURE message
    else if String.eqb message "UNAUTHORIZED" then
      sendError env 401 UNAUTHORIZED message
    else if (statusCode =? 500)%Z then
      sendError env 500 INTERNAL_ERROR "Internal server error"
    else sendError env statusCode INTERNAL_ERROR message.

(** ** Vocabulary of the further properties *)

(** The timestamp of the latest heartbeat record of a casino. *)
Definition latestHeartbeat (id : string) (rows : list HeartbeatRow) : option Z :=
  option_map h_timestamp
    (find (fun h => String.eqb (h_casinoId h) id) (rev rows)).

(** The messages the three write routes verify a signature against. *)
Definition heartbeatMessage (body : HeartbeatPayload) : string :=
  canonicalMessage NumberToString (HeartbeatPayload_object body).

Definition updateMessage (body : CasinoUpdateRequest) : string :=
  canonicalMessage NumberToString (CasinoUpdateRequest_object body).

Definition registrationMessage (body : RegistrationRequest) : string :=
  canonicalMessage NumberToString
    (RegistrationRequest_object (RegistrationRequestSchema_parse body)).

(** The world with one more call on record and the same store. *)
Definition logged (w : World) (e : Event) : World :=
  {| store := store w; trace := trace w ++ [e] |}.

(** The names inside a [metadata] block and inside a [metrics] block. *)
Definition metadataKeys : list string :=
  ["description"; "games"; "logo"; "banner"; "socialLinks"; "maxBetAmount";
   "minBetAmount"; "supportedTokens"]%string.

Definition metricsKeys : list string :=
  ["activePlayers"; "totalBets24h"; "uptime"; "responseTime"]%string.

(** No name of [K] is in [L]. *)
Definition disjointb (K L : list string) : bool :=
  forallb (fun P => negb (existsb (String.eqb P) L)) K.

(** [name: value] as a member of a serialized object. *)
Definition memberText (name value : string) : string :=
  (QuoteJSONString name ++ ":" ++ value)%string.

(** The record and the casino columns an accepted heartbeat writes. *)
Definition heartbeatRow (env : Env) (body : HeartbeatPayload) : HeartbeatRow :=
  {| h_id := uuid env;
     h_casinoId := hp_casinoId body;
     h_status := hp_status body;
     h_activePlayers := optChain (hp_metrics body) hm_activePlayers;
     h_totalBets24h := optChain (hp_metrics body) hm_totalBets24h;
     h_uptime := optChain (hp_metrics body) hm_uptime;
     h_responseTime := optChain (hp_metrics body) hm_responseTime;
     h_timestamp := hp_timestamp body;
     h_signature := hp_signature body |}.

Definition heartbeatData (body : HeartbeatPayload) : CasinoUpdateInput :=
  {| u_name := None; u_url := None;
     u_status := Some (hp_status body);
     u_description := None; u_games := None; u_logo := None;
     u_banner := None; u_twitterUrl := None; u_discordUrl := None;
     u_telegramUrl := None; u_websiteUrl := None;
     u_maxBetAmount := None; u_minBetAmount := None;
     u_supportedTokens := None;
     u_lastHeartbeat := Some (hp_timestamp body) |}.

(** Two rows agree on the identity of a casino. *)
Definition sameIdentity (old new : Casino) : Prop :=
  c_id new = c_id old /\ c_publicKey new = c_publicKey old
  /\ c_createdAt new = c_createdAt old /\ c_version new = c_version old.

(** Two rows agree on everything a casino publishes about itself. *)
Definition sameProfile (old new : Casino) : Prop :=
  c_name new = c_name old /\ c_url new = c_url old
  /\ c_description new = c_description old /\ c_games new = c_games old
  /\ c_logo new = c_logo old /\ c_banner new = c_banner old
  /\ c_twitterUrl new = c_twitterUrl old /\ c_discordUrl new = c_discordUrl old
  /\ c_telegramUrl new = c_telegramUrl old /\ c_websiteUrl new = c_websiteUrl old
  /\ c_maxBetAmount new = c_maxBetAmount old
  /\ c_minBetAmount new = c_minBetAmount old
  /\ c_supportedTokens new = c_supportedTokens old.

Definition hasId (id : string) (c : Casino) : bool := String.eqb (c_id c) id.

(** A request was answered with the given status. *)
Definition answered {A} (out : result Reply * A) (status : Z) : Prop :=
  exists reply, fst out = Ok reply /\ statusCode reply = status.

End Model.

(* ================================================================== *)
(** * A small platform and store to evaluate the model on *)
(* ================================================================== *)

Module Sample.

Definition bytesOfString (s : string) : bytes :=
  map byte_of_ascii (list_ascii_of_string s).

Fixpoint bytes_eqb (a b : bytes) : bool :=
  match a, b with
  | [], [] => true
  | x :: a', y :: b' => Byte.eqb x y && bytes_eqb a' b'
  | _, _ => false
  end.

(** Numbers are integers printed in decimal; a text decodes to the bytes of
    its characters; a signature is good when it starts with the key. *)
Definition platform : Platform :=
  {| Number := Z;
     NumberOfZ := fun z => z;
     NumberToString := fun z => DecimalString.NilZero.string_of_int (Z.to_int z);
     NumberToBoolean := fun z => negb (z =? 0)%Z;
     bs58_decode := fun s => Some (bytesOfString s);
     crypto_sign_open_ok := fun _ sig key => bytes_eqb (firstn 32 sig) key |}.

#[local] Existing Instance platform.

Definition key1 : string := "AAAAAAAAAAAAAAAAAAAAAAAAAAAAAAAA".
Definition key2 : string := "BBBBBBBBBBBBBBBBBBBBBBBBBBBBBBBB".
Definition key3 : string := "CCCCCCCCCCCCCCCCCCCCCCCCCCCCCCCC".
Definition signedBy (key : string) : string := (key ++ key)%string.

Definition casino (id key : string) (st : CasinoStatus) (seen : option Z)
  : @Casino platform :=
  {| c_id := id; c_publicKey := key; c_name := "Casino"; c_url := "https://casino.example";
     c_status := st; c_description := Some "About"; c_games := [slots; dice];
     c_logo := None; c_banner := None;
     c_twitterUrl := Some "https://twitter.example/casino"; c_discordUrl := None;
     c_telegramUrl := None; c_websiteUrl := None;
     c_maxBetAmount := Some (NumberOfZ 100); c_minBetAmount := Some (NumberOfZ 1);
     c_supportedTokens := ["SOL"; "USDC"]; c_version := "1.0.0";
     c_createdAt := 1000; c_updatedAt := 1000; c_lastHeartbeat := seen |}.

Definition world (rows : list (@Casino platform)) : @World platform :=
  {| store := {| casinos := rows; heartbeats := [] |}; trace := [] |}.

Definition env (now : Z) : Env := {| Date_now := now; uuid := "fresh-uuid" |}.

Definition noMetadata : @MetadataInput platform :=
  {| md_description := None; md_games := None; md_logo := None;
     md_banner := None; md_socialLinks := None; md_maxBetAmount := None;
     md_minBetAmount := None; md_supportedTokens := None |}.

Definition registration (key : string) : @RegistrationRequest platform :=
  {| reg_name := "New Casino"; reg_url := "https://new.example";
     reg_publicKey := key; reg_signature := signedBy key;
     reg_metadata := noMetadata |}.

Definition heartbeat (id : string) (st : CasinoStatus) (ts : Z) (key : string)
  : @HeartbeatPayload platform :=
  {| hp_casinoId := id; hp_status := st; hp_timestamp := ts;
     hp_metrics := None; hp_signature := signedBy key |}.

Definition descriptionOnly (id key text : string) : @CasinoUpdateRequest platform :=
  {| cu_casinoId := id; cu_name := None; cu_url := None; cu_status := None;
     cu_metadata :=
       Some {| md_description := Some text; md_games := None; md_logo := None;
               md_banner := None; md_socialLinks := None;
               md_maxBetAmount := None; md_minBetAmount := None;
               md_supportedTokens := None |};
     cu_signature := signedBy key |}.

Definition noFilters : CasinoFilters :=
  {| cf_status := None; cf_games := None; cf_limit := 20; cf_offset := 0 |}.

(** A payload, and the same payload with its fields inserted in the opposite
    order at both depths. *)
Definition payload : Json.object Z :=
  [("name", JString "Casino");
   ("signature", JString "sig");
   ("metadata", JObject [("name", JString "inner"); ("games", JArray [JString "slots"])]);
   ("timestamp", JNumber 1700000000000%Z)].

Definition payloadReordered : Json.object Z :=
  [("timestamp", JNumber 1700000000000%Z);
   ("metadata", JObject [("games", JArray [JString "slots"]); ("name", JString "inner")]);
   ("signature", JString "sig");
   ("name", JString "Casino")].

End Sample.

(** More values over the same platform, for the further properties. *)
Module FurtherSample.
Import Sample.
#[local] Existing Instance Sample.platform.

Definition store1 : @World platform := world [casino "c1" key1 online None].

(** A registration with a description, and one without a signature. *)
Definition described (key text : string) : @RegistrationRequest platform :=
  {| reg_name := "New Casino"; reg_url := "https://new.example";
     reg_publicKey := key; reg_signature := signedBy key;
     reg_metadata :=
       {| md_description := Some text; md_games := None; md_logo := None;
          md_banner := None; md_socialLinks := None; md_maxBetAmount := None;
          md_minBetAmount := None; md_supportedTokens := None |} |}.

Definition unsigned (key : string) : @RegistrationRequest platform :=
  {| reg_name := "New Casino"; reg_url := "https://new.example";
     reg_publicKey := key; reg_signature := EmptyString;
     reg_metadata := noMetadata |}.

(** A heartbeat that reports a number of active players. *)
Definition measured (id : string) (st : CasinoStatus) (ts : Z) (key : string)
  (players : Z) : @HeartbeatPayload platform :=
  {| hp_casinoId := id; hp_status := st; hp_timestamp := ts;
     hp_metrics := Some {| hm_activePlayers := Some players;
                           hm_totalBets24h := None; hm_uptime := None;
                           hm_responseTime := None |};
     hp_signature := signedBy key |}.

(** The empty store after one registration, and after a heartbeat of the
    casino so registered. *)
Definition afterRegistration : @World platform :=
  snd (registerRoute (env 5000) (registration key1) emptyWorld).

Definition afterHeartbeat : @World platform :=
  snd (heartbeatRoute (env 6000) (heartbeat "fresh-uuid" maintenance 5500 key1)
         afterRegistration).

End FurtherSample.

(** A platform on which a signature covers its message: a signature is good
    when it is the key followed by the first 32 bytes of the message. *)
Module Binding.
Import Sample.

Definition digest (msg : bytes) : bytes :=
  firstn 32 (msg ++ repeat Byte.x00 32)%list.

Definition platform : Platform :=
  {| Number := Z;
     NumberOfZ := fun z => z;
     NumberToString := fun z => DecimalString.NilZero.string_of_int (Z.to_int z);
     NumberToBoolean := fun z => negb (z =? 0)%Z;
     bs58_decode := fun s => Some (bytesOfString s);
     crypto_sign_open_ok :=
       fun msg sig key => bytes_eqb sig (key ++ digest msg)%list |}.

(** The signature of a message under a key. *)
Definition sign (message key : string) : string :=
  (key ++ string_of_list_ascii
            (map ascii_of_byte (digest (TextEncoder_encode message))))%string.

End Binding.

(* ================================================================== *)
(** * Properties: canonicalization *)
(* ================================================================== *)

Module SortFacts.
Import JsString.

Lemma leb_trans : forall a b c,
  String.leb a b = true -> String.leb b c = true -> String.leb a c = true.
Proof.
  unfold String.leb.
  induction a as [|x a IH]; intros [|y b] [|z c]; simpl; try easy.
  unfold Ascii.compare.
  destruct (N.compare_spec (N_of_ascii x) (N_of_ascii y)) as [E1|L1|G1];
  destruct (N.compare_spec (N_of_ascii y) (N_of_ascii z)) as [E2|L2|G2];
  destruct (N.compare_spec (N_of_ascii x) (N_of_ascii z)) as [E3|L3|G3];
    try easy; try lia.
  apply IH.
Qed.

Lemma leb_false_flip a b : String.leb a b = false -> String.leb b a = true.
Proof.
  intros H. destruct (String.leb_total a b) as [T|T]; congruence.
Qed.

Lemma insert_comm x y : forall s, insert x (insert y s) = insert y (insert x s).
Proof.
  induction s as [|z r IH]; simpl.
  - destruct (String.leb x y) eqn:Exy, (String.leb y x) eqn:Eyx; try reflexivity.
    + now rewrite (String.leb_antisym _ _ Exy Eyx).
    + apply leb_false_flip in Exy. congruence.
  - destruct (String.leb y z) eqn:Eyz, (String.leb x z) eqn:Exz; simpl.
    + destruct (String.leb x y) eqn:Exy, (String.leb y x) eqn:Eyx;
        rewrite ?Exz, ?Eyz; try reflexivity.
      * now rewrite (String.leb_antisym _ _ Exy Eyx).
      * apply leb_false_flip in Exy. congruence.
    + rewrite Eyz.
      destruct (String.leb x y) eqn:Exy.
      * rewrite (leb_trans _ _ _ Exy Eyz) in Exz. discriminate.
      * now rewrite Exz.
    + rewrite Exz.
      destruct (String.leb y x) eqn:Eyx.
      * rewrite (leb_trans _ _ _ Eyx Exz) in Eyz. discriminate.
      * now rewrite Eyz.
    + rewrite Exz, Eyz. now rewrite IH.
Qed.

(** The sorted array depends on the set of names only, not on their order. *)
Lemma sort_Permutation l1 l2 : Permutation l1 l2 -> sort l1 = sort l2.
Proof.
  induction 1; simpl.
  - reflexivity.
  - now f_equal.
  - apply insert_comm.
  - congruence.
Qed.

Lemma insert_Permutation x l : Permutation (insert x l) (x :: l).
Proof.
  induction l as [|y r IH]; simpl; [apply Permutation_refl|].
  destruct (String.leb x y); [apply Permutation_refl|].
  eapply perm_trans; [apply perm_skip, IH|apply perm_swap].
Qed.

Lemma sort_Permutation_self l : Permutation (sort l) l.
Proof.
  induction l as [|x r IH]; simpl; [constructor|].
  eapply perm_trans; [apply insert_Permutation|now apply perm_skip].
Qed.

Lemma insert_sorted x l :
  StronglySorted lexLe l -> StronglySorted lexLe (insert x l).
Proof.
  induction 1 as [|y r S IH F]; simpl.
  - repeat constructor.
  - destruct (String.leb x y) eqn:E.
    + constructor; [now constructor|].
      constructor; [exact E|].
      eapply Forall_impl; [|exact F].
      intros z Hz. exact (leb_trans x y z E Hz).
    + constructor; [exact IH|].
      eapply Permutation_Forall;
        [apply Permutation_sym, insert_Permutation|].
      constructor; [now apply leb_false_flip|exact F].
Qed.

(** The array the default sort returns is in lexicographic order. *)
Lemma sort_sorted l : StronglySorted lexLe (sort l).
Proof.
  induction l as [|x r IH]; simpl; [constructor|now apply insert_sorted].
Qed.

Lemma filter_sorted {A} (R : A -> A -> Prop) (f : A -> bool) l :
  StronglySorted R l -> StronglySorted R (filter f l).
Proof.
  induction 1 as [|x r S IH F]; simpl; [constructor|].
  destruct (f x); [|exact IH].
  constructor; [exact IH|].
  rewrite Forall_forall in *. intros y I.
  apply filter_In in I as [I _]. auto.
Qed.

End SortFacts.

Module JsonFacts.
Import JsString SortFacts.

Section WithNumber.
Variable Number : Type.
Variable NumberToString : Number -> string.

Local Abbreviation value := (Json.value Number).
Local Abbreviation object := (list (string * Json.value Number)).
Local Abbreviation element := (Json.element NumberToString).
Local Abbreviation member := (Json.member NumberToString).

(** Induction on values that reaches into arrays and objects. *)
Section ValueInduction.
Variable P : value -> Prop.
Hypothesis P_undefined : P JUndefined.
Hypothesis P_null : P JNull.
Hypothesis P_bool : forall b, P (JBool b).
Hypothesis P_number : forall n, P (JNumber n).
Hypothesis P_string : forall s, P (JString s).
Hypothesis P_array : forall l, Forall P l -> P (JArray l).
Hypothesis P_object : forall m, Forall (fun p => P (snd p)) m -> P (JObject m).

Fixpoint value_deep_ind (v : value) : P v :=
  match v with
  | JUndefined => P_undefined
  | JNull => P_null
  | JBool b => P_bool b
  | JNumber n => P_number n
  | JString s => P_string s
  | JArray l =>
      P_array l
        ((fix all (l : list value) : Forall P l :=
            match l with
            | [] => Forall_nil P
            | x :: r => Forall_cons x (value_deep_ind x) (all r)
            end) l)
  | JObject m =>
      P_object m
        ((fix all (m : list (string * value)) : Forall (fun p => P (snd p)) m :=
            match m with
            | [] => Forall_nil _
            | (k, x) :: r =>
                Forall_cons (P := fun p => P (snd p)) (k, x) (value_deep_ind x) (all r)
            end) m)
  end.
End ValueInduction.

Local Abbreviation serialize := (SerializeJSONProperty NumberToString).

Lemma serialize_array PL (l : list value) :
  serialize PL (JArray l) =
  Some ("[" ++ String.concat "," (map (element PL) l) ++ "]").
Proof. reflexivity. Qed.

Lemma serialize_object PL (m : object) :
  serialize PL (JObject m) =
  Some ("{" ++ String.concat ","
          (flat_map (member PL m)
             (match PL with Some names => names | None => map fst m end))
        ++ "}").
Proof.
  unfold serialize. cbn [SerializeJSONProperty].
  erewrite (flat_map_ext _ (member PL m)); [reflexivity|].
  intros P. unfold member, serialize.
  induction m as [|[k x] r IH]; simpl; [reflexivity|].
  destruct (String.eqb k P); [reflexivity|exact IH].
Qed.

Lemma Get_In (m : object) P x : Get m P = Some x -> In (P, x) m.
Proof.
  induction m as [|[k y] r IH]; simpl; [discriminate|].
  destruct (String.eqb_spec k P) as [->|N]; intros H.
  - left. congruence.
  - right. auto.
Qed.

Lemma In_Get (m : object) P x :
  NoDup (map fst m) -> In (P, x) m -> Get m P = Some x.
Proof.
  induction m as [|[k y] r IH]; simpl; [easy|].
  intros ND [E|I]; inversion ND as [|? ? NI ND']; subst.
  - inversion E; subst. now rewrite String.eqb_refl.
  - destruct (String.eqb_spec k P) as [->|N].
    + exfalso. apply NI. now apply (in_map fst) in I.
    + auto.
Qed.

Lemma Get_Permutation (m1 m2 : object) P :
  NoDup (map fst m1) -> Permutation m1 m2 -> Get m1 P = Get m2 P.
Proof.
  intros ND1 Perm.
  assert (ND2 : NoDup (map fst m2))
    by (eapply Permutation_NoDup; [apply Permutation_map; exact Perm|exact ND1]).
  destruct (Get m1 P) as [x|] eqn:G1, (Get m2 P) as [y|] eqn:G2; try reflexivity.
  - apply Get_In in G2. apply (Permutation_in _ (Permutation_sym Perm)) in G2.
    apply (In_Get _ _ _ ND1) in G2. congruence.
  - apply Get_In in G1. apply (Permutation_in _ Perm) in G1.
    apply (In_Get _ _ _ ND2) in G1. congruence.
  - apply Get_In in G2. apply (Permutation_in _ (Permutation_sym Perm)) in G2.
    apply (In_Get _ _ _ ND1) in G2. congruence.
Qed.

Lemma Get_Forall2 (m m2 : object) P :
  Forall2 sameField m m2 ->
  match Get m P, Get m2 P with
  | Some x, Some y => structurallyEqual x y
  | None, None => True
  | _, _ => False
  end.
Proof.
  induction 1 as [|[k x] [k' y] r r' [E S] F IH]; simpl; [exact I|].
  simpl in E, S. subst k'.
  destruct (String.eqb k P); [exact S|exact IH].
Qed.

Lemma Permutation_filter {A} (f : A -> bool) l1 l2 :
  Permutation l1 l2 -> Permutation (filter f l1) (filter f l2).
Proof.
  induction 1; simpl.
  - constructor.
  - destruct (f x); auto.
  - destruct (f x), (f y); auto using perm_swap.
  - eauto using perm_trans.
Qed.

Lemma NoDup_map_filter {A B} (g : A -> B) (f : A -> bool) l :
  NoDup (map g l) -> NoDup (map g (filter f l)).
Proof.
  induction l as [|a l IH]; simpl; intros ND; [constructor|].
  inversion ND as [|? ? NI ND']; subst.
  destruct (f a); simpl; auto.
  constructor; auto.
  intros I. apply NI. apply in_map_iff in I as [b [E I]].
  apply filter_In in I as [I _]. apply in_map_iff. eauto.
Qed.

Lemma omit_sameField name (m m2 : object) :
  Forall2 sameField m m2 -> Forall2 sameField (omit name m) (omit name m2).
Proof.
  unfold omit.
  induction 1 as [|[k x] [k' y] r r' [E S] F IH]; simpl; [constructor|].
  simpl in E, S. subst k'.
  destruct (String.eqb k name); simpl; auto.
  constructor; auto. split; auto.
Qed.

Lemma sameField_keys (m m2 : object) :
  Forall2 sameField m m2 -> map fst m = map fst m2.
Proof.
  induction 1 as [|p q r r' [E S] F IH]; simpl; congruence.
Qed.

(** Serialization over a property list does not see the insertion order. *)
Lemma serialize_structurallyEqual (K : list string) :
  forall v1 v2 : value,
    uniqueKeys v1 -> structurallyEqual v1 v2 ->
    serialize (Some K) v1 = serialize (Some K) v2.
Proof.
  induction v1 as [| | b | n | s | l IH | m IH] using value_deep_ind;
    intros v2 U S; inversion S; subst; try reflexivity.
  - (* arrays *)
    inversion U as [| | | | | ? UL |]; subst.
    match goal with H : Forall2 _ l _ |- _ => rename H into F end.
    rewrite !serialize_array.
    enough (E : map (element (Some K)) l = map (element (Some K)) l2)
      by now rewrite E.
    clear S U.
    induction F as [|x y r r' Sxy F IHF]; simpl; [reflexivity|].
    inversion IH as [|? ? IHx IHr]; inversion UL as [|? ? Ux Ur]; subst.
    f_equal; [|now apply IHF].
    unfold element. now rewrite (IHx y Ux Sxy).
  - (* objects *)
    inversion U as [| | | | | | ? ND UM]; subst.
    rewrite !serialize_object.
    enough (E : flat_map (member (Some K) m) K = flat_map (member (Some K) m2) K)
      by now rewrite E.
    apply flat_map_ext. intros P. unfold member.
    match goal with HP : Permutation m ?m', HF : Forall2 _ ?m' _ |- _ =>
      pose proof (Get_Forall2 _ _ P HF) as G;
      pose proof (Get_Permutation m m' P ND HP) as GP
    end.
    rewrite GP.
    destruct (Get m0 P) as [x|] eqn:G1, (Get m2 P) as [y|] eqn:G2;
      try contradiction; try reflexivity.
    apply Get_In in GP.
    rewrite Forall_forall in IH, UM.
    specialize (IH _ GP y (UM _ GP) G). simpl in IH. now rewrite IH.
Qed.

(** An object never serializes to [undefined]. *)
Lemma JSON_stringify_object (m : object) replacer :
  exists message, JSON_stringify NumberToString (JObject m) replacer = Some message.
Proof.
  unfold JSON_stringify. fold serialize. rewrite serialize_object. eauto.
Qed.

Lemma canonicalMessage_structurallyEqual (b1 b2 : object) :
  uniqueKeys (JObject b1) ->
  structurallyEqual (JObject b1) (JObject b2) ->
  canonicalMessage NumberToString b1 = canonicalMessage NumberToString b2.
Proof.
  intros U S.
  inversion U as [| | | | | | ? ND UM]; subst.
  inversion S as [| | | | | | ? m ? Perm F]; subst.
  change (Forall2 (@sameField Number) m b2) in F.
  assert (K : sort (Object_keys (omit "signature" b1))
            = sort (Object_keys (omit "signature" b2))).
  { unfold Object_keys.
    rewrite <- (sameField_keys _ _ (omit_sameField "signature" _ _ F)).
    apply sort_Permutation, Permutation_map, Permutation_filter, Perm. }
  unfold canonicalMessage, JSON_stringify. simpl option_map. rewrite K.
  fold serialize.
  rewrite (serialize_structurallyEqual _ (JObject (omit "signature" b1))
             (JObject (omit "signature" b2))); [reflexivity| |].
  - constructor.
    + apply NoDup_map_filter, ND.
    + unfold omit. rewrite Forall_forall in *. intros p I.
      apply filter_In in I as [I _]. auto.
  - econstructor.
    + apply Permutation_filter, Perm.
    + apply omit_sameField, F.
Qed.

(** Any reordering of the fields of a body is structurally equal to it. *)
Lemma structurallyEqual_refl : forall v : value, structurallyEqual v v.
Proof.
  induction v as [| | b | n | s | l IH | m IH] using value_deep_ind;
    try constructor.
  - induction IH; constructor; auto.
  - apply se_object with (m := m); [apply Permutation_refl|].
    induction IH as [|p r Hp _ IHr]; constructor; auto.
Qed.

Lemma reorder_structurallyEqual (b1 b2 : object) :
  Permutation b1 b2 -> structurallyEqual (JObject b1) (JObject b2).
Proof.
  intros Perm. apply se_object with (m := b2); [exact Perm|].
  clear Perm. induction b2 as [|p r IHr]; constructor.
  - split; [reflexivity|apply structurallyEqual_refl].
  - apply IHr.
Qed.

(** ** What the message contains *)

Lemma PropertyListOf_NoDup l : NoDup l -> PropertyListOf l = l.
Proof.
  induction 1 as [|x r NI ND IH]; simpl; [reflexivity|].
  rewrite IH. f_equal.
  apply forallb_filter_id, forallb_forall. intros y I.
  apply negb_true_iff, String.eqb_neq. intros ->. contradiction.
Qed.

Lemma written_object K (m : object) :
  written K (JObject m) = JObject (flat_map (writtenMember K m) K).
Proof.
  cbn [written]. f_equal. apply flat_map_ext. intros P. unfold writtenMember.
  induction m as [|[k x] r IH]; simpl; [reflexivity|].
  destruct (String.eqb k P); [reflexivity|exact IH].
Qed.

Lemma writtenMember_keys K (m : object) L :
  map fst (flat_map (writtenMember K m) L) = filter (present m) L.
Proof.
  induction L as [|P L IH]; simpl; [reflexivity|].
  rewrite map_app, IH. unfold writtenMember, present.
  now destruct (Get m P).
Qed.

Lemma Get_writtenMember K (m : object) P x : forall L,
  In P L -> Get m P = Some x ->
  Get (flat_map (writtenMember K m) L) P = Some (written K x).
Proof.
  induction L as [|Q L IH]; simpl; [easy|].
  intros I G. unfold writtenMember at 1.
  destruct (String.eqb_spec Q P) as [->|N].
  - rewrite G. simpl. now rewrite String.eqb_refl.
  - destruct I as [E|I]; [contradiction|].
    destruct (Get m Q) as [y|]; simpl.
    + apply String.eqb_neq in N. rewrite N. now apply IH.
    + now apply IH.
Qed.

Lemma flat_map_filter {A B} (p : A -> bool) (f g : A -> list B) l :
  (forall a, In a l -> p a = true -> f a = g a) ->
  (forall a, In a l -> p a = false -> g a = []) ->
  flat_map f (filter p l) = flat_map g l.
Proof.
  induction l as [|a l IH]; simpl; intros Ht Hf; [reflexivity|].
  destruct (p a) eqn:E; simpl.
  - rewrite (Ht a (or_introl eq_refl) E). f_equal. apply IH; auto.
  - rewrite (Hf a (or_introl eq_refl) E). apply IH; auto.
Qed.

(** A serialization over a property list is the plain serialization of what
    it writes. *)
Lemma serialize_written (K : list string) :
  forall v : value, serialize (Some K) v = serialize None (written K v).
Proof.
  induction v as [| | b | n | s | l IH | m IH] using value_deep_ind;
    try reflexivity.
  - cbn [written]. rewrite !serialize_array, map_map.
    enough (E : map (element (Some K)) l
                = map (fun x => element None (written K x)) l) by now rewrite E.
    induction IH as [|x r Hx _ IHr]; simpl; [reflexivity|].
    f_equal; [|exact IHr]. unfold Json.element. now rewrite Hx.
  - rewrite written_object, !serialize_object, writtenMember_keys.
    enough (E : flat_map (member None (flat_map (writtenMember K m) K))
                  (filter (present m) K)
                = flat_map (member (Some K) m) K) by now rewrite E.
    apply flat_map_filter; intros P I; unfold present, Json.member;
      destruct (Get m P) as [x|] eqn:G; try discriminate; intros _;
      [|reflexivity].
    rewrite (Get_writtenMember K m P x K I G).
    rewrite Forall_forall in IH. specialize (IH _ (Get_In _ _ _ G)).
    simpl in IH. now rewrite IH.
Qed.

Lemma written_sortedKeys (K : list string) :
  StronglySorted lexLe K -> forall v : value, sortedKeys (written K v).
Proof.
  intros SK.
  induction v as [| | b | n | s | l IH | m IH] using value_deep_ind.
  1-5: constructor.
  - cbn [written]. apply sk_array. rewrite Forall_forall in *.
    intros y I. apply in_map_iff in I as (x & <- & I). auto.
  - rewrite written_object. constructor.
    + rewrite writtenMember_keys. apply filter_sorted, SK.
    + rewrite Forall_forall in *. intros [P y] I.
      apply in_flat_map in I as (Q & _ & I). unfold writtenMember in I.
      destruct (Get m Q) as [x|] eqn:G; [|contradiction].
      destruct I as [[= <- <-]|[]]. simpl.
      exact (IH _ (Get_In _ _ _ G)).
Qed.

(** The message of a body is the plain [JSON.stringify] of a value whose
    keys are sorted at every depth. *)
Lemma canonicalMessage_written (b : object) :
  NoDup (map fst b) ->
  JSON_stringify NumberToString
    (written (sort (Object_keys (omit "signature" b)))
       (JObject (omit "signature" b))) None
  = Some (canonicalMessage NumberToString b).
Proof.
  intros ND.
  set (dataToSign := omit "signature" b).
  set (K := sort (Object_keys dataToSign)).
  unfold canonicalMessage, JSON_stringify. fold dataToSign. fold K.
  simpl option_map. rewrite PropertyListOf_NoDup.
  - rewrite serialize_written.
    destruct (serialize None (written K (JObject dataToSign))) eqn:E;
      [reflexivity|].
    rewrite written_object, serialize_object in E. discriminate.
  - eapply Permutation_NoDup;
      [apply Permutation_sym, sort_Permutation_self|].
    apply NoDup_map_filter, ND.
Qed.

Lemma present_key (m : object) P : In P (map fst m) -> present m P = true.
Proof.
  unfold present. induction m as [|[k x] r IH]; simpl; [easy|].
  destruct (String.eqb_spec k P) as [->|N]; [reflexivity|].
  intros [E|I]; [contradiction|auto].
Qed.

(** At the top of the message no field is lost: the written tree has the
    sorted keys of the object as its keys. *)
Lemma written_top_keys (m : object) :
  exists members,
    written (sort (Object_keys m)) (JObject m) = JObject members
    /\ map fst members = sort (Object_keys m).
Proof.
  eexists. split; [apply written_object|].
  rewrite writtenMember_keys.
  apply forallb_filter_id, forallb_forall. intros P I.
  apply present_key.
  eapply Permutation_in; [apply sort_Permutation_self|exact I].
Qed.

End WithNumber.
End JsonFacts.

(* ================================================================== *)
(** * Properties of the service *)
(* ================================================================== *)

Section Properties.
Context {platform : Platform}.
Local Open Scope list_scope.


(** ** The bodies of the three write requests are JavaScript objects *)

Lemma optional_keys_in {A} k' (f : A -> jsvalue) o (rest : jsobject) k :
  In k (map fst (optional k' f o ++ rest)) -> k = k' \/ In k (map fst rest).
Proof. destruct o; simpl; intuition. Qed.

Lemma optional_NoDup {A} k (f : A -> jsvalue) o (rest : jsobject) :
  ~ In k (map fst rest) -> NoDup (map fst rest) ->
  NoDup (map fst (optional k f o ++ rest)).
Proof. destruct o; simpl; intros; [constructor|]; assumption. Qed.

Lemma optional_Forall {A} (Q : string * jsvalue -> Prop) k (f : A -> jsvalue) o
  (rest : jsobject) :
  (forall a, Q (k, f a)) -> Forall Q rest -> Forall Q (optional k f o ++ rest).
Proof. destruct o; simpl; intros; [constructor|]; auto. Qed.

Ltac fresh_key :=
  let I := fresh "I" in
  intros I; cbn [map fst app In] in I;
  repeat first
    [ apply optional_keys_in in I; destruct I as [I|I]; [discriminate I|]
    | destruct I as [I|I]; [discriminate I|]
    | exact I ];
  cbn [map fst app In] in I; try contradiction.

Ltac unique_keys :=
  cbn [map fst app];
  repeat first
    [ apply NoDup_nil
    | apply optional_NoDup; [fresh_key|]
    | apply NoDup_cons; [fresh_key|] ].

Lemma jsTokens_uniqueKeys t : uniqueKeys (jsTokens t).
Proof.
  apply uk_array, Forall_forall. intros v I.
  apply in_map_iff in I as (x & <- & _). constructor.
Qed.

Lemma jsGames_uniqueKeys g : uniqueKeys (jsGames g).
Proof.
  apply uk_array, Forall_forall. intros v I.
  apply in_map_iff in I as (x & <- & _). constructor.
Qed.

Lemma jsSocialLinks_uniqueKeys l : uniqueKeys (jsSocialLinks l).
Proof.
  unfold jsSocialLinks.
  rewrite <- (app_nil_r (optional "website" _ _)).
  apply uk_object; [unique_keys|].
  repeat (apply optional_Forall; [intros; apply uk_string|]). constructor.
Qed.

Lemma jsMetrics_uniqueKeys m : uniqueKeys (jsMetrics m).
Proof.
  unfold jsMetrics.
  rewrite <- (app_nil_r (optional "responseTime" _ _)).
  apply uk_object; [unique_keys|].
  repeat (apply optional_Forall; [intros; apply uk_number|]). constructor.
Qed.

Lemma jsMetadata_uniqueKeys m : uniqueKeys (jsMetadata m).
Proof.
  unfold jsMetadata.
  rewrite <- (app_nil_r (optional "supportedTokens" _ _)).
  apply uk_object; [unique_keys|].
  repeat (apply optional_Forall;
          [intros; first [apply uk_string|apply uk_number|apply jsGames_uniqueKeys
                         |apply jsTokens_uniqueKeys|apply jsSocialLinks_uniqueKeys]|]).
  constructor.
Qed.

(** Every registration, heartbeat and update body has each key once, at
    every depth. *)
Lemma RegistrationRequest_object_uniqueKeys b :
  uniqueKeys (JObject (RegistrationRequest_object b)).
Proof.
  apply uk_object; [unfold RegistrationRequest_object; unique_keys|].
  repeat (apply Forall_cons; [first [apply uk_string|apply jsMetadata_uniqueKeys]|]).
  constructor.
Qed.

Lemma HeartbeatPayload_object_uniqueKeys b :
  uniqueKeys (JObject (HeartbeatPayload_object b)).
Proof.
  unfold HeartbeatPayload_object. apply uk_object; [unique_keys|].
  cbn [app].
  repeat first
    [ apply Forall_cons; [first [apply uk_string|apply uk_number]|]
    | apply optional_Forall; [intros; apply jsMetrics_uniqueKeys|] ].
  constructor.
Qed.

Lemma CasinoUpdateRequest_object_uniqueKeys b :
  uniqueKeys (JObject (CasinoUpdateRequest_object b)).
Proof.
  unfold CasinoUpdateRequest_object. apply uk_object; [unique_keys|].
  cbn [app].
  repeat first
    [ apply Forall_cons; [apply uk_string|]
    | apply optional_Forall;
        [intros; first [apply uk_string|apply jsMetadata_uniqueKeys]|] ].
  constructor.
Qed.

(** Whatever order a client inserted the fields of a registration, a
    heartbeat or an update in, the message is the one of the body the
    handler sees. *)
Lemma write_payload_message_order_independent :
  (forall (body : RegistrationRequest) (b : jsobject),
     structurallyEqual (JObject (RegistrationRequest_object body)) (JObject b) ->
     canonicalMessage NumberToString b
     = canonicalMessage NumberToString (RegistrationRequest_object body))
  /\ (forall (body : HeartbeatPayload) (b : jsobject),
        structurallyEqual (JObject (HeartbeatPayload_object body)) (JObject b) ->
        canonicalMessage NumberToString b
        = canonicalMessage NumberToString (HeartbeatPayload_object body))
  /\ (forall (body : CasinoUpdateRequest) (b : jsobject),
        structurallyEqual (JObject (CasinoUpdateRequest_object body)) (JObject b) ->
        canonicalMessage NumberToString b
        = canonicalMessage NumberToString (CasinoUpdateRequest_object body)).
Proof.
  repeat split; intros body b S; symmetry;
    apply JsonFacts.canonicalMessage_structurallyEqual; auto.
  - apply RegistrationRequest_object_uniqueKeys.
  - apply HeartbeatPayload_object_uniqueKeys.
  - apply CasinoUpdateRequest_object_uniqueKeys.
Qed.

(** ** Signature verification *)

Lemma PublicKey_toBytes_Ok publicKey key :
  PublicKey_toBytes publicKey = Ok key <->
  bs58_decode publicKey = Some key /\ List.length key = 32%nat.
Proof.
  unfold PublicKey_toBytes.
  destruct (bs58_decode publicKey) as [d|]; [|split; [discriminate|intros [? _]; discriminate]].
  destruct (Nat.eqb_spec (List.length d) 32); split.
  - intros H; inversion H; subst; auto.
  - intros [H _]; inversion H; subst; auto.
  - discriminate.
  - intros [H L]; inversion H; subst; contradiction.
Qed.

(** C9. [verifySolanaSignature] returns a boolean on every triple of inputs
    and never throws; it returns [true] only when both texts decode, the
    signature is 64 bytes, the key is a 32-byte public key and the Ed25519
    check passes, so every decode failure, malformed key and mismatch is the
    same [false]; calling it leaves the store as it was. *)
Theorem C9_verifySolanaSignature_total (message signature publicKey : string) :
  (exists b, verifySolanaSignature message signature publicKey = Ok b)
  /\ (verifySolanaSignature message signature publicKey = Ok true <->
      exists sig key,
        bs58_decode signature = Some sig /\ List.length sig = 64%nat
        /\ bs58_decode publicKey = Some key /\ List.length key = 32%nat
        /\ crypto_sign_open_ok (TextEncoder_encode message) sig key = true)
  /\ (forall w, store (snd (callVerify message signature publicKey w)) = store w).
Proof.
  unfold verifySolanaSignature, verifySolanaSignature_try,
    nacl_sign_detached_verify, try_catch.
  destruct (bs58_decode signature) as [sig|] eqn:Es.
  2:{ repeat split; eauto; try discriminate.
      intros (? & ? & H & _); discriminate. }
  destruct (PublicKey_toBytes publicKey) as [key|e] eqn:Ek.
  2:{ repeat split; eauto; try discriminate.
      intros (? & k & _ & _ & Hk & Lk & _).
      assert (PublicKey_toBytes publicKey = Ok k) by (apply PublicKey_toBytes_Ok; auto).
      congruence. }
  apply PublicKey_toBytes_Ok in Ek as [Ek Lk].
  destruct (Nat.eqb_spec (List.length sig) 64) as [Ls|Ls]; simpl.
  - rewrite Lk. simpl. repeat split; eauto.
    + intros H. inversion H as [H']. exists sig, key. rewrite H'. auto.
    + intros (s' & k' & Hs & _ & Hk & _ & Hc).
      inversion Hs; subst s'. rewrite Ek in Hk. inversion Hk; subst k'.
      now rewrite Hc.
  - repeat split; eauto; try discriminate.
    intros (s' & k' & Hs & Ls' & _). inversion Hs; subst. contradiction.
Qed.

(** ** Routes *)

Lemma find_none_iff {A} (f : A -> bool) l :
  find f l = None <-> forall x, In x l -> f x = false.
Proof.
  split; [apply find_none|].
  induction l as [|a l IH]; simpl; intros H; [reflexivity|].
  rewrite (H a (or_introl eq_refl)). apply IH. intros; apply H; now right.
Qed.

(** C4. A heartbeat whose [casinoId] belongs to no registered casino is
    answered with 404 and the code [CASINO_NOT_FOUND]; the world after the
    request is the world before it: no call of the signature verification
    was made and nothing was written. *)
Theorem C4_heartbeat_unknown_casino (env : Env) (body : HeartbeatPayload) (w : World) :
  (forall c, In c (casinos (store w)) -> c_id c <> hp_casinoId body) ->
  heartbeatRoute env body w
  = (Ok (sendError env 404 CASINO_NOT_FOUND "Casino not found"), w).
Proof.
  intros Absent.
  assert (F : find (fun c => String.eqb (c_id c) (hp_casinoId body)) (casinos (store w)) = None).
  { apply find_none_iff. intros c I. apply String.eqb_neq. auto. }
  unfold heartbeatRoute, catch, bind, getCasinoById, prisma_casino_findUnique_id,
    bind, getStore, ret.
  now rewrite F.
Qed.

(** ** Heartbeats *)

Ltac run :=
  unfold bind, ret, throw, catch, getStore, putStore, logEvent, liftResult in *;
  simpl in *.

Lemma find_id_some (rows : list Casino) id c :
  find (fun c => String.eqb (c_id c) id) rows = Some c ->
  In c rows /\ c_id c = id.
Proof.
  intros H. apply find_some in H as [I E]. split; [exact I|].
  now apply String.eqb_eq.
Qed.

Lemma existsb_id_of_find (rows : list Casino) id c :
  find (fun c => String.eqb (c_id c) id) rows = Some c ->
  existsb (fun x => String.eqb (c_id x) (c_id c)) rows = true.
Proof.
  intros H. apply find_id_some in H as [I E].
  apply existsb_exists. exists c. split; [exact I|apply String.eqb_refl].
Qed.

Lemma find_updateWhere (f : Casino -> bool) (g : Casino -> Casino) rows :
  (forall c, f (g c) = f c) ->
  find f (updateWhere f g rows) = option_map g (find f rows).
Proof.
  intros Hfg. unfold updateWhere.
  induction rows as [|c r IH]; simpl; [reflexivity|].
  destruct (f c) eqn:E; simpl.
  - now rewrite Hfg, E.
  - now rewrite E.
Qed.

(** What an accepted [updateHeartbeat] did. *)
Lemma updateHeartbeat_Ok env input w ack w' :
  updateHeartbeat env input w = (Ok ack, w') ->
  exists casino,
    find (fun c => String.eqb (c_id c) (hp_casinoId input)) (casinos (store w))
      = Some casino
    /\ let row :=
         {| h_id := uuid env;
            h_casinoId := c_id casino;
            h_status := hp_status input;
            h_activePlayers := optChain (hp_metrics input) hm_activePlayers;
            h_totalBets24h := optChain (hp_metrics input) hm_totalBets24h;
            h_uptime := optChain (hp_metrics input) hm_uptime;
            h_responseTime := optChain (hp_metrics input) hm_responseTime;
            h_timestamp := hp_timestamp input;
            h_signature := hp_signature input |} in
       let data :=
         {| u_name := None; u_url := None;
            u_status := Some (hp_status input);
            u_description := None; u_games := None; u_logo := None;
            u_banner := None; u_twitterUrl := None; u_discordUrl := None;
            u_telegramUrl := None; u_websiteUrl := None;
            u_maxBetAmount := None; u_minBetAmount := None;
            u_supportedTokens := None;
            u_lastHeartbeat := Some (hp_timestamp input) |} in
       store w' =
         {| casinos := updateWhere (fun c => String.eqb (c_id c) (c_id casino))
                         (applyUpdate (Date_now env) data) (casinos (store w));
            heartbeats := heartbeats (store w) ++ [row] |}
       /\ trace w' = (trace w ++ [HeartbeatCreate row]) ++ [CasinoUpdate (c_id casino)]
       /\ ack = {| ack_success := true; ack_timestamp := Date_now env;
                   ack_nextHeartbeatIn := Some 60%Z |}.
Proof.
  unfold updateHeartbeat, prisma_casino_findUnique_id, prisma_heartbeat_create,
    prisma_casino_update.
  run.
  destruct (find _ (casinos (store w))) as [casino|] eqn:F; [|discriminate].
  rewrite (existsb_id_of_find _ _ _ F). simpl.
  destruct (existsb _ (heartbeats (store w))); [discriminate|]. simpl.
  pose proof (find_id_some _ _ _ F) as [_ Eid]. rewrite Eid, F.
  intros H. inversion H; subst. exists casino. rewrite Eid. simpl. auto.
Qed.

(** C2 (as the code has it). For every accepted heartbeat the stored
    heartbeat record's [timestamp] and the casino's new [lastHeartbeat] are
    the timestamp the client sent in the payload; the server's clock gives
    only the casino's [updatedAt] and the timestamp of the acknowledgement. *)
Theorem C2_heartbeat_stores_claimed_timestamp
  (env : Env) (body : HeartbeatPayload) (w w' : World) (reply : Reply) :
  heartbeatRoute env body w = (Ok reply, w') ->
  statusCode reply = 200%Z ->
  (exists row,
     heartbeats (store w') = heartbeats (store w) ++ [row]
     /\ h_timestamp row = hp_timestamp body
     /\ h_status row = hp_status body
     /\ h_signature row = hp_signature body)
  /\ (exists c,
        find (fun c => String.eqb (c_id c) (hp_casinoId body)) (casinos (store w'))
          = Some c
        /\ c_lastHeartbeat c = Some (hp_timestamp body)
        /\ c_status c = hp_status body
        /\ c_updatedAt c = Date_now env)
  /\ (exists ack, data reply = Some (DataHeartbeat ack)
                  /\ ack_timestamp ack = Date_now env).
Proof.
  unfold heartbeatRoute, getCasinoById, prisma_casino_findUnique_id, callVerify.
  run.
  destruct (find _ (casinos (store w))) as [casino|] eqn:F; simpl;
    [|intros H; inversion H; subst; discriminate].
  destruct (verifySolanaSignature _ _ _) as [[|]|e]; simpl.
  - destruct (updateHeartbeat env body _) as [[ack|e] w1] eqn:U.
    + intros H _. inversion H; subst; clear H.
      apply updateHeartbeat_Ok in U as (casino' & F' & S & _ & A).
      simpl in F'. rewrite F in F'. inversion F'; subst casino'.
      pose proof (find_id_some _ _ _ F) as [_ Eid].
      rewrite S. simpl. repeat split.
      * eexists. repeat split.
      * rewrite Eid. rewrite find_updateWhere by reflexivity.
        rewrite F. simpl. eexists. repeat split.
      * eexists. split; [reflexivity|]. now rewrite A.
    + destruct (hasMessage e "CASINO_NOT_FOUND");
        intros H; inversion H; subst; discriminate.
  - intros H; inversion H; subst; discriminate.
  - destruct (hasMessage e "CASINO_NOT_FOUND");
      intros H; inversion H; subst; discriminate.
Qed.

(** ** Discovery *)

Lemma desc_before_trans a b c :
  desc_before a b = true -> desc_before b c = true -> desc_before a c = true.
Proof.
  unfold desc_before.
  destruct (c_lastHeartbeat a), (c_lastHeartbeat b), (c_lastHeartbeat c);
    try easy.
  rewrite !Z.leb_le. lia.
Qed.

Lemma desc_before_flip a b : desc_before a b = false -> desc_before b a = true.
Proof.
  unfold desc_before.
  destruct (c_lastHeartbeat a), (c_lastHeartbeat b); try easy.
  rewrite Z.leb_gt, Z.leb_le. lia.
Qed.

Lemma insertRow_Permutation x l : Permutation (insertRow x l) (x :: l).
Proof.
  induction l as [|y r IH]; simpl; [apply Permutation_refl|].
  destruct (desc_before x y); [apply Permutation_refl|].
  eapply perm_trans; [apply perm_skip, IH|apply perm_swap].
Qed.

Lemma orderBy_Permutation l : Permutation (orderByLastHeartbeatDesc l) l.
Proof.
  induction l as [|x r IH]; simpl; [constructor|].
  eapply perm_trans; [apply insertRow_Permutation|now apply perm_skip].
Qed.

Lemma insertRow_sorted x l :
  StronglySorted before l -> StronglySorted before (insertRow x l).
Proof.
  induction 1 as [|y r S IH F]; simpl.
  - repeat constructor.
  - destruct (desc_before x y) eqn:E.
    + constructor; [now constructor|].
      constructor; [exact E|].
      eapply Forall_impl; [|exact F].
      intros z Hz. now apply (desc_before_trans x y z).
    + constructor; [exact IH|].
      eapply Permutation_Forall;
        [apply Permutation_sym, insertRow_Permutation|].
      constructor; [now apply desc_before_flip|exact F].
Qed.

Lemma orderBy_sorted l : StronglySorted before (orderByLastHeartbeatDesc l).
Proof.
  induction l as [|x r IH]; simpl; [constructor|now apply insertRow_sorted].
Qed.

Lemma StronglySorted_skipn {A} (R : A -> A -> Prop) n : forall l,
  StronglySorted R l -> StronglySorted R (skipn n l).
Proof.
  induction n as [|n IH]; intros l S; [exact S|].
  destruct l as [|x r]; [exact S|]. simpl. apply IH.
  now inversion S.
Qed.

Lemma StronglySorted_firstn {A} (R : A -> A -> Prop) n : forall l,
  StronglySorted R l -> StronglySorted R (firstn n l).
Proof.
  induction n as [|n IH]; intros l S; [constructor|].
  destruct l as [|x r]; [constructor|]. simpl.
  inversion S as [|? ? S' F]; subst.
  constructor; [now apply IH|].
  rewrite Forall_forall in *. intros y I. apply F.
  rewrite <- (firstn_skipn n r). apply in_or_app. now left.
Qed.

Lemma StronglySorted_map {A B} (R : A -> A -> Prop) (Q : B -> B -> Prop)
  (f : A -> B) l :
  (forall a b, R a b -> Q (f a) (f b)) ->
  StronglySorted R l -> StronglySorted Q (map f l).
Proof.
  intros H. induction 1 as [|x r S IH F]; simpl; constructor; auto.
  rewrite Forall_forall in *. intros y I.
  apply in_map_iff in I as (z & <- & I). auto.
Qed.

Lemma before_neverSeenFirst a b :
  before a b -> neverSeenFirst (formatCasinoResponse a) (formatCasinoResponse b).
Proof.
  unfold before, desc_before, neverSeenFirst. simpl.
  destruct (c_lastHeartbeat a), (c_lastHeartbeat b); try easy.
  now rewrite Z.leb_le.
Qed.

Lemma GameType_eqb_eq a b : GameType_eqb a b = true <-> a = b.
Proof.
  split; [|intros ->; apply String.eqb_refl].
  destruct a, b; try reflexivity; intros H; vm_compute in H; discriminate.
Qed.

Lemma CasinoStatus_eqb_eq a b : CasinoStatus_eqb a b = true <-> a = b.
Proof. destruct a, b; simpl; split; congruence. Qed.

(** A casino passes the filters when its status is the one asked for and
    it offers at least one of the games asked for. *)
Lemma casinosWhere_spec filters c :
  casinosWhere filters c = true <->
  (forall st, cf_status filters = Some st -> c_status c = st)
  /\ (forall gs, cf_games filters = Some gs -> gs <> [] ->
        exists g, In g (c_games c) /\ In g gs).
Proof.
  unfold casinosWhere, hasSome. rewrite andb_true_iff. split.
  - intros [Hs Hg]. split.
    + intros st E. rewrite E in Hs. now apply CasinoStatus_eqb_eq.
    + intros gs E N. rewrite E in Hg. destruct gs as [|g gs]; [easy|].
      apply existsb_exists in Hg as (x & Ix & Hx).
      apply existsb_exists in Hx as (y & Iy & Hy).
      apply GameType_eqb_eq in Hy. subst y. eauto.
  - intros [Hs Hg]. split.
    + destruct (cf_status filters) as [st|]; [|reflexivity].
      apply CasinoStatus_eqb_eq. auto.
    + destruct (cf_games filters) as [[|g gs]|]; try reflexivity.
      destruct (Hg (g :: gs) eq_refl) as (x & Ix & Iy); [discriminate|].
      apply existsb_exists. exists x. split; [exact Ix|].
      apply existsb_exists. exists x. split; [exact Iy|].
      now apply GameType_eqb_eq.
Qed.

(** C3 (as the code has it). A list query answers with a window of the
    matching casinos ordered by descending [lastHeartbeat] in which the
    casinos that were never seen ([lastHeartbeat] null) come first, and with
    [total] the number of all matching casinos, not of the page. *)
Theorem C3_list_never_seen_first_and_total (filters : CasinoFilters) (w : World) :
  exists page,
    getCasinos filters w = (Ok page, w)
    /\ StronglySorted neverSeenFirst (pg_casinos page)
    /\ pg_total page
       = List.length (filter (casinosWhere filters) (casinos (store w)))
    /\ exists ordered,
         Permutation ordered (filter (casinosWhere filters) (casinos (store w)))
         /\ pg_casinos page
            = map formatCasinoResponse
                (firstn (cf_limit filters) (skipn (cf_offset filters) ordered)).
Proof.
  eexists. split; [reflexivity|]. simpl. split; [|split; [reflexivity|]].
  - apply (StronglySorted_map before); [apply before_neverSeenFirst|].
    apply StronglySorted_firstn, StronglySorted_skipn, orderBy_sorted.
  - eexists. split; [apply orderBy_Permutation|reflexivity].
Qed.

(** ** The inactivity sweep *)

Lemma inactiveWhere_stale cutoff c :
  inactiveWhere cutoff c = true <-> stale cutoff c.
Proof.
  unfold inactiveWhere, stale. rewrite andb_true_iff, negb_true_iff.
  split.
  - intros [H N]. split.
    + destruct (c_lastHeartbeat c) as [t|]; [|discriminate].
      exists t. split; [reflexivity|now apply Z.ltb_lt].
    + intros E. rewrite E in N. discriminate.
  - intros [(t & E & L) N]. rewrite E. split; [now apply Z.ltb_lt|].
    destruct (CasinoStatus_eqb (c_status c) offline) eqn:Q; [|reflexivity].
    apply CasinoStatus_eqb_eq in Q. contradiction.
Qed.

Lemma transitions_updateWhere cutoff now rows :
  transitions rows (updateWhere (inactiveWhere cutoff) (swept now) rows)
  = List.length (filter (inactiveWhere cutoff) rows).
Proof.
  unfold updateWhere.
  induction rows as [|c r IH]; simpl; [reflexivity|].
  destruct (inactiveWhere cutoff c) eqn:E; simpl.
  - unfold inactiveWhere in E. apply andb_true_iff in E as [_ E].
    destruct (c_status c); simpl in *; try discriminate; now rewrite IH.
  - replace (CasinoStatus_eqb (c_status c) (c_status c)) with true
      by (destruct (c_status c); reflexivity).
    exact IH.
Qed.

(** C7. One sweep with a timeout of [timeoutMinutes] sets to [offline]
    exactly the casinos whose [lastHeartbeat] is older than
    [now - timeout] and whose status is not [offline] already, and returns
    how many it so changed; every other casino, and every heartbeat record,
    is left as it was. *)
Theorem C7_sweep_transitions_exactly_the_stale (env : Env) (timeoutMinutes : Z) (w : World) :
  let cutoff := (Date_now env - timeoutMinutes * 60 * 1000)%Z in
  exists n w',
    markInactiveCasinos env timeoutMinutes w = (Ok n, w')
    /\ heartbeats (store w') = heartbeats (store w)
    /\ Forall2 (fun old new =>
                  (stale cutoff old ->
                     new = swept (Date_now env) old /\ c_status new = offline)
                  /\ (~ stale cutoff old -> new = old))
         (casinos (store w)) (casinos (store w'))
    /\ n = transitions (casinos (store w)) (casinos (store w'))
    /\ n = List.length (filter (inactiveWhere cutoff) (casinos (store w))).
Proof.
  intros cutoff. do 2 eexists.
  split; [unfold markInactiveCasinos, prisma_casino_updateMany; run; reflexivity|].
  simpl. fold cutoff. repeat split.
  - unfold updateWhere.
    induction (casinos (store w)) as [|c r IH]; simpl; constructor; auto.
    destruct (inactiveWhere cutoff c) eqn:E; split; intros H.
    + split; reflexivity.
    + apply inactiveWhere_stale in E. contradiction.
    + apply inactiveWhere_stale in H. congruence.
    + reflexivity.
  - symmetry. apply transitions_updateWhere.
Qed.

Lemma updateWhere_app p f (l1 l2 : list Casino) :
  updateWhere p f (l1 ++ l2) = updateWhere p f l1 ++ updateWhere p f l2.
Proof. apply map_app. Qed.

(** C10. A casino that never had an accepted heartbeat ([lastHeartbeat]
    null) is not touched by the sweep, whatever its status and age: it
    stays, unchanged, at its place in the table, and the count the sweep
    returns is the count it would return if that casino were not there. *)
Theorem C10_sweep_skips_never_seen
  (env : Env) (timeoutMinutes : Z) (c : Casino)
  (above below : list Casino) (hs : list HeartbeatRow) (tr : list Event) :
  c_lastHeartbeat c = None ->
  let w := {| store := {| casinos := above ++ c :: below; heartbeats := hs |};
              trace := tr |} in
  let without := {| store := {| casinos := above ++ below; heartbeats := hs |};
                    trace := tr |} in
  exists n above' below' w' w0',
    markInactiveCasinos env timeoutMinutes w = (Ok n, w')
    /\ markInactiveCasinos env timeoutMinutes without = (Ok n, w0')
    /\ casinos (store w') = above' ++ c :: below'
    /\ casinos (store w0') = above' ++ below'
    /\ List.length above' = List.length above.
Proof.
  intros Never w without.
  set (cutoff := (Date_now env - timeoutMinutes * 60 * 1000)%Z).
  assert (Skip : inactiveWhere cutoff c = false)
    by (unfold inactiveWhere; now rewrite Never).
  exists (List.length (filter (inactiveWhere cutoff) (above ++ below))),
    (updateWhere (inactiveWhere cutoff) (swept (Date_now env)) above),
    (updateWhere (inactiveWhere cutoff) (swept (Date_now env)) below).
  do 2 eexists.
  unfold markInactiveCasinos, prisma_casino_updateMany. run. fold cutoff.
  repeat split.
  - rewrite !filter_app. simpl. rewrite Skip. reflexivity.
  - simpl. rewrite updateWhere_app. simpl. now rewrite Skip.
  - simpl. apply updateWhere_app.
  - unfold updateWhere. apply length_map.
Qed.

(** ** Registration *)

Lemma verifySolanaSignature_returns message signature publicKey :
  exists b, verifySolanaSignature message signature publicKey = Ok b.
Proof.
  unfold verifySolanaSignature, try_catch.
  destruct (verifySolanaSignature_try message signature publicKey); eauto.
Qed.

Lemma isValidSolanaPublicKey_returns publicKey :
  exists b, isValidSolanaPublicKey publicKey = Ok b.
Proof.
  unfold isValidSolanaPublicKey, try_catch.
  destruct (PublicKey_toBytes publicKey); eauto.
Qed.

Lemma find_key_none (rows : list Casino) key :
  find (fun c => String.eqb (c_publicKey c) key) rows = None <->
  forall c, In c rows -> c_publicKey c <> key.
Proof.
  rewrite find_none_iff. split; intros H c I.
  - apply String.eqb_neq. auto.
  - apply String.eqb_neq. auto.
Qed.

Lemma existsb_clash (rows : list Casino) id key :
  find (fun c => String.eqb (c_publicKey c) key) rows = None ->
  existsb (fun c => String.eqb (c_id c) id || String.eqb (c_publicKey c) key) rows
  = existsb (fun c => String.eqb (c_id c) id) rows.
Proof.
  induction rows as [|c r IH]; simpl; [reflexivity|].
  destruct (String.eqb (c_publicKey c) key); [discriminate|].
  intros H. now rewrite orb_false_r, IH.
Qed.

(** The three ways [registerCasino] ends. *)
Lemma registerCasino_cases env input w :
  ((exists c, In c (casinos (store w)) /\ c_publicKey c = reg_publicKey input)
   /\ registerCasino env input w = (Throw (JsError "CASINO_ALREADY_EXISTS"), w))
  \/ ((forall c, In c (casinos (store w)) -> c_publicKey c <> reg_publicKey input)
      /\ registerCasino env input w = (Throw (PrismaError "P2002"), w))
  \/ ((forall c, In c (casinos (store w)) -> c_publicKey c <> reg_publicKey input)
      /\ exists row,
           registerCasino env input w
           = (Ok (formatCasinoResponse row),
              {| store := {| casinos := casinos (store w) ++ [row];
                             heartbeats := heartbeats (store w) |};
                 trace := trace w ++ [CasinoCreate row] |})
           /\ c_id row = uuid env
           /\ c_publicKey row = reg_publicKey input
           /\ c_name row = reg_name input
           /\ c_url row = reg_url input
           /\ c_status row = online
           /\ c_lastHeartbeat row = None
           /\ c_version row = "1.0.0"%string
           /\ c_createdAt row = Date_now env
           /\ c_games row = orDefault (md_games (reg_metadata input)) []
           /\ c_supportedTokens row
              = orDefault (md_supportedTokens (reg_metadata input)) ["SOL"%string]).
Proof.
  unfold registerCasino, prisma_casino_findUnique_publicKey, prisma_casino_create.
  run.
  destruct (find _ (casinos (store w))) as [c|] eqn:F.
  - left. apply find_some in F as [I E]. apply String.eqb_eq in E. eauto.
  - right. simpl. rewrite (existsb_clash _ _ _ F).
    pose proof (proj1 (find_key_none _ _) F) as Fr.
    destruct (existsb _ (casinos (store w))); [left|right]; split; auto.
    eexists. split; [reflexivity|]. simpl. repeat split.
Qed.

(** The pre-handler answers with a 400 or a 401, or lets the request through;
    it never throws, never writes, and calls the verification at most once. *)
Lemma verifyRegistrationSignature_cases env body w :
  exists answered w1,
    verifyRegistrationSignature env body w = (Ok answered, w1)
    /\ store w1 = store w
    /\ (trace w1 = trace w
        \/ exists m s k, trace w1 = trace w ++ [VerifyCall m s k])
    /\ forall reply, answered = Some reply ->
         success reply = false
         /\ (statusCode reply = 400%Z \/ statusCode reply = 401%Z).
Proof.
  unfold verifyRegistrationSignature, callVerify.
  assert (Done : forall (reply : Reply) w1 (P : Prop),
            P -> store w1 = store w ->
            (trace w1 = trace w \/ exists m s k, trace w1 = trace w ++ [VerifyCall m s k]) ->
            success reply = false ->
            (statusCode reply = 400%Z \/ statusCode reply = 401%Z) ->
            P /\ store w1 = store w
            /\ (trace w1 = trace w \/ exists m s k, trace w1 = trace w ++ [VerifyCall m s k])
            /\ forall reply', Some reply = Some reply' ->
                  success reply' = false
                  /\ (statusCode reply' = 400%Z \/ statusCode reply' = 401%Z)).
  { intros reply w1 P HP HS HT Hs Hc. repeat split; auto;
      inversion H; subst; auto. }
  destruct (String.eqb (reg_signature body) EmptyString);
    [do 2 eexists; run; apply Done; simpl;
       [reflexivity|reflexivity|now left|reflexivity|now left]|].
  destruct (String.eqb (reg_publicKey body) EmptyString);
    [do 2 eexists; run; apply Done; simpl;
       [reflexivity|reflexivity|now left|reflexivity|now left]|].
  run.
  destruct (isValidSolanaPublicKey_returns (reg_publicKey body)) as [[|] ->];
    simpl.
  2:{ do 2 eexists; apply Done; simpl;
        [reflexivity|reflexivity|now left|reflexivity|now left]. }
  match goal with |- context [verifySolanaSignature ?m ?s ?k] =>
    destruct (verifySolanaSignature_returns m s k) as [[|] ->] end; simpl.
  - do 2 eexists. split; [reflexivity|]. simpl.
    split; [reflexivity|].
    split; [right; do 3 eexists; reflexivity|discriminate].
  - do 2 eexists; apply Done; simpl;
      [reflexivity|reflexivity|right; do 3 eexists; reflexivity
      |reflexivity|now right].
Qed.

Lemma NoDup_publicKey_snoc (rows : list Casino) row :
  NoDup (map c_publicKey rows) ->
  (forall c, In c rows -> c_publicKey c <> c_publicKey row) ->
  NoDup (map c_publicKey (rows ++ [row])).
Proof.
  intros ND Fresh. rewrite map_app. simpl.
  apply NoDup_rev in ND. rewrite <- (rev_involutive (_ ++ _)).
  apply NoDup_rev. rewrite rev_app_distr. simpl.
  constructor; [|exact ND].
  rewrite <- in_rev. intros I. apply in_map_iff in I as (c & E & I).
  now apply (Fresh c I).
Qed.

(** How the registration route ends: with a 201 and exactly one new row whose
    key nobody had, or with the store as it was. *)
Lemma registerRoute_cases env raw w r w' :
  registerRoute env raw w = (r, w') ->
  (exists row,
     r = Ok (sendData env 201 (DataCasino (formatCasinoResponse row)))
     /\ store w' = {| casinos := casinos (store w) ++ [row];
                      heartbeats := heartbeats (store w) |}
     /\ (exists m s k, trace w' = (trace w ++ [VerifyCall m s k]) ++ [CasinoCreate row])
     /\ (forall c, In c (casinos (store w)) -> c_publicKey c <> reg_publicKey raw)
     /\ c_publicKey row = reg_publicKey raw
     /\ c_status row = online
     /\ c_lastHeartbeat row = None
     /\ c_version row = "1.0.0"%string
     /\ c_games row = orDefault (md_games (reg_metadata raw)) []
     /\ c_supportedTokens row
        = orDefault (md_supportedTokens (reg_metadata raw)) ["SOL"%string])
  \/ (store w' = store w
      /\ (trace w' = trace w \/ exists m s k, trace w' = trace w ++ [VerifyCall m s k])
      /\ (forall reply, r = Ok reply ->
            success reply = false
            /\ (statusCode reply = 400%Z \/ statusCode reply = 401%Z
                \/ ((exists c, In c (casinos (store w))
                               /\ c_publicKey c = reg_publicKey raw)
                    /\ reply = sendError env 409 CASINO_ALREADY_EXISTS
                         "Casino with this public key is already registered")))).
Proof.
  unfold registerRoute.
  destruct (verifyRegistrationSignature_cases env
              (RegistrationRequestSchema_parse raw) w)
    as (answered & w1 & V & S1 & T1 & A).
  unfold bind at 1. rewrite V.
  destruct answered as [reply|].
  - unfold ret. intros [= <- <-]. right.
    split; [exact S1|]. split; [exact T1|].
    intros reply' [= <-]. destruct (A reply eq_refl) as [Hs [H|H]]; auto.
  - unfold catch, bind at 1.
    destruct (registerCasino_cases env (RegistrationRequestSchema_parse raw) w1)
      as [[D R]|[[Fr R]|[Fr (row & R & Hid & Hk & Hn & Hu & Hs & Hl & Hv & Hc & Hg & Ht)]]];
      rewrite R; simpl; rewrite S1 in *.
    + unfold ret. intros [= <- <-]. right.
      split; [exact S1|]. split; [exact T1|].
      intros reply' [= <-]. split; [reflexivity|]. right. right.
      split; [exact D|reflexivity].
    + unfold throw. intros [= <- <-]. right.
      split; [exact S1|]. split; [exact T1|]. discriminate.
    + unfold ret. intros [= <- <-]. left. exists row. simpl.
      split; [reflexivity|]. split; [reflexivity|].
      split; [|split; [exact Fr|split; [exact Hk|split; [exact Hs|
        split; [exact Hl|split; [exact Hv|split]]]]]].
      * destruct T1 as [T|(m & s & k & T)]; rewrite T.
        -- exfalso. clear - V T.
           unfold verifyRegistrationSignature, callVerify in V. run.
           destruct (String.eqb _ EmptyString); [discriminate|].
           destruct (String.eqb _ EmptyString); [discriminate|].
           destruct (isValidSolanaPublicKey _) as [[|]|]; simpl in V;
             try discriminate.
           destruct (verifySolanaSignature _ _ _) as [[|]|]; simpl in V;
             try discriminate.
           inversion V as [W]. rewrite <- W in T. simpl in T.
           apply (f_equal (@List.length _)) in T. rewrite length_app in T.
           simpl in T. lia.
        -- eauto.
      * rewrite Hg. simpl. now destruct (md_games (reg_metadata raw)).
      * rewrite Ht. simpl. now destruct (md_supportedTokens (reg_metadata raw)).
Qed.

(** *** The public keys of the stored casinos under every operation *)

Lemma publicKeys_updateWhere p now d rows :
  map c_publicKey (updateWhere p (applyUpdate now d) rows) = map c_publicKey rows.
Proof.
  unfold updateWhere. rewrite map_map. apply map_ext.
  intros c. now destruct (p c).
Qed.

Lemma updateHeartbeat_publicKeys env input w r w' :
  updateHeartbeat env input w = (r, w') -> publicKeys w' = publicKeys w.
Proof.
  unfold updateHeartbeat, prisma_casino_findUnique_id, prisma_heartbeat_create,
    prisma_casino_update, publicKeys.
  run.
  destruct (find _ (casinos (store w))) as [casino|]; [|now intros [= _ <-]].
  destruct (negb _); [now intros [= _ <-]|].
  destruct (existsb _ (heartbeats (store w))); [now intros [= _ <-]|].
  simpl.
  destruct (find _ (casinos (store w))); intros [= _ <-]; simpl;
    [apply publicKeys_updateWhere|reflexivity].
Qed.

Lemma updateCasino_publicKeys env input w r w' :
  updateCasino env input w = (r, w') -> publicKeys w' = publicKeys w.
Proof.
  unfold updateCasino, prisma_casino_findUnique_id, prisma_casino_update,
    publicKeys.
  run.
  destruct (find _ (casinos (store w))) as [casino|]; [|now intros [= _ <-]].
  simpl.
  destruct (find _ (casinos (store w))); intros [= _ <-]; simpl;
    [apply publicKeys_updateWhere|reflexivity].
Qed.

Lemma heartbeatRoute_publicKeys env body w r w' :
  heartbeatRoute env body w = (r, w') -> publicKeys w' = publicKeys w.
Proof.
  unfold heartbeatRoute, getCasinoById, prisma_casino_findUnique_id, callVerify.
  run.
  destruct (find _ (casinos (store w))) as [casino|]; simpl;
    [|now intros [= _ <-]].
  destruct (verifySolanaSignature _ _ _) as [[|]|e]; simpl.
  - destruct (updateHeartbeat env body _) as [[ack|e] w1] eqn:U;
      apply updateHeartbeat_publicKeys in U;
      [|destruct (hasMessage e _)]; intros [= _ <-]; exact U.
  - now intros [= _ <-].
  - destruct (hasMessage e _); now intros [= _ <-].
Qed.

Lemma updateRoute_publicKeys env body w r w' :
  updateRoute env body w = (r, w') -> publicKeys w' = publicKeys w.
Proof.
  unfold updateRoute, getCasinoById, prisma_casino_findUnique_id, callVerify.
  run.
  destruct (find _ (casinos (store w))) as [casino|]; simpl;
    [|now intros [= _ <-]].
  destruct (verifySolanaSignature _ _ _) as [[|]|e]; simpl.
  - destruct (updateCasino env body _) as [[ack|e] w1] eqn:U;
      apply updateCasino_publicKeys in U;
      [|destruct (hasMessage e _)]; intros [= _ <-]; exact U.
  - now intros [= _ <-].
  - destruct (hasMessage e _); now intros [= _ <-].
Qed.

Lemma registerRoute_publicKeys env raw w r w' :
  registerRoute env raw w = (r, w') ->
  NoDup (publicKeys w) -> NoDup (publicKeys w').
Proof.
  intros H ND. unfold publicKeys in *.
  destruct (registerRoute_cases env raw w r w' H)
    as [(row & _ & Hs & _ & Fr & Hk & _)|(Hs & _)]; rewrite Hs; [|exact ND].
  simpl. apply NoDup_publicKey_snoc; [exact ND|]. now rewrite Hk.
Qed.

Lemma step_publicKeys w w' :
  step w w' -> NoDup (publicKeys w) -> NoDup (publicKeys w').
Proof.
  intros [env raw r H|env body r H|env body r H|env query r H|env t r H] ND.
  - exact (registerRoute_publicKeys _ _ _ _ _ H ND).
  - now rewrite (heartbeatRoute_publicKeys _ _ _ _ _ H).
  - now rewrite (updateRoute_publicKeys _ _ _ _ _ H).
  - unfold listRoute, getCasinos, prisma_casino_findMany, prisma_casino_count in H.
    run. now inversion H; subst.
  - unfold markInactiveCasinos, prisma_casino_updateMany in H. run.
    inversion H; subst. unfold publicKeys. simpl.
    now rewrite publicKeys_updateWhere.
Qed.

(** C5. A registration whose public key already belongs to a registered
    casino fails in [registerCasino] with [CASINO_ALREADY_EXISTS] and creates
    nothing, and at the route it is answered with the 409 of that code unless
    the pre-handler has already refused it (400, 401).  Every answer of the
    registration route other than the 201 (bad key, bad signature, duplicate,
    thrown error) leaves the store as it was, with no create made; a 201
    adds one casino whose key nobody had.  Hence in every world the service
    can reach the public keys of the stored casinos are pairwise
    different. *)
Theorem C5_duplicate_key_rejected_nothing_created :
  (forall w, reachable w -> NoDup (map c_publicKey (casinos (store w))))
  /\ forall (env : Env) (raw : RegistrationRequest) (w : World),
       ((exists c, In c (casinos (store w)) /\ c_publicKey c = reg_publicKey raw) ->
          registerCasino env (RegistrationRequestSchema_parse raw) w
          = (Throw (JsError "CASINO_ALREADY_EXISTS"), w))
       /\ forall r w',
            registerRoute env raw w = (r, w') ->
            ((exists row,
                r = Ok (sendData env 201 (DataCasino (formatCasinoResponse row)))
                /\ casinos (store w') = casinos (store w) ++ [row]
                /\ (forall c, In c (casinos (store w)) ->
                      c_publicKey c <> reg_publicKey raw))
             \/ (store w' = store w
                 /\ (forall row, In (CasinoCreate row) (trace w') ->
                       In (CasinoCreate row) (trace w))
                 /\ (forall reply, r = Ok reply -> success reply = false)))
            /\ ((exists c, In c (casinos (store w))
                           /\ c_publicKey c = reg_publicKey raw) ->
                  store w' = store w
                  /\ exists reply,
                       r = Ok reply
                       /\ (statusCode reply = 400%Z \/ statusCode reply = 401%Z
                           \/ reply = sendError env 409 CASINO_ALREADY_EXISTS
                                "Casino with this public key is already registered")).
Proof.
  split.
  { induction 1 as [|w w' _ IH S]; [constructor|].
    exact (step_publicKeys w w' S IH). }
  intros env raw w. split.
  - intros (c & I & E).
    destruct (registerCasino_cases env (RegistrationRequestSchema_parse raw) w)
      as [[_ R]|[[Fr _]|[Fr _]]]; [exact R| |]; exfalso; now apply (Fr c I).
  - intros r w' H.
    destruct (registerRoute_cases env raw w r w' H)
      as [(row & Hr & Hs & _ & Fr & Hk & _)|(Hs & Ht & Hr)].
    + rewrite Hs. simpl. split.
      * left. exists row. auto.
      * intros (c & I & E). exfalso. now apply (Fr c I).
    + rewrite Hs. split.
      * right. split; [reflexivity|]. split.
        -- intros row I. destruct Ht as [T|(m & s & k & T)]; rewrite T in I;
             [exact I|].
           apply in_app_or in I as [I|[I|[]]]; [exact I|discriminate].
        -- intros reply E. now apply (Hr reply E).
      * intros Dup. split; [reflexivity|].
        unfold registerRoute in H.
        destruct (verifyRegistrationSignature_cases env
                    (RegistrationRequestSchema_parse raw) w)
          as (answered & w1 & V & S1 & _ & _).
        unfold bind at 1 in H. rewrite V in H.
        destruct answered as [reply|].
        -- unfold ret in H. inversion H; subst. exists reply.
           split; [reflexivity|].
           destruct (Hr reply eq_refl) as [_ [Q|[Q|[_ Q]]]]; auto.
        -- unfold catch, bind at 1 in H.
           destruct (registerCasino_cases env (RegistrationRequestSchema_parse raw) w1)
             as [[_ R]|[[Fr _]|[Fr _]]].
           ++ rewrite R in H. simpl in H. unfold ret in H. inversion H; subst.
              eexists. split; [reflexivity|]. auto.
           ++ exfalso. destruct Dup as (c & I & E). rewrite S1 in Fr.
              now apply (Fr c I).
           ++ exfalso. destruct Dup as (c & I & E). rewrite S1 in Fr.
              now apply (Fr c I).
Qed.

(** C8. The record a successful registration creates has status [online],
    no [lastHeartbeat], the service's protocol version as [version], the
    games of the request or the empty list when none were given, and the
    tokens of the request or the one-element list [SOL] when none were
    given. *)
Theorem C8_registration_creates_online_record_with_defaults
  (env : Env) (raw : RegistrationRequest) (w w' : World) (reply : Reply) :
  registerRoute env raw w = (Ok reply, w') ->
  statusCode reply = 201%Z ->
  exists row,
    casinos (store w') = casinos (store w) ++ [row]
    /\ data reply = Some (DataCasino (formatCasinoResponse row))
    /\ c_status row = online
    /\ c_lastHeartbeat row = None
    /\ c_version row = protocolVersion
    /\ c_games row
       = match md_games (reg_metadata raw) with Some g => g | None => [] end
    /\ c_supportedTokens row
       = match md_supportedTokens (reg_metadata raw) with
         | Some t => t
         | None => ["SOL"%string]
         end.
Proof.
  intros H Code.
  destruct (registerRoute_cases env raw w _ _ H)
    as [(row & Hr & Hs & _ & _ & _ & Hst & Hl & Hv & Hg & Ht)|(_ & _ & Hr)].
  - exists row. inversion Hr; subst reply. rewrite Hs. simpl.
    repeat split; auto.
  - exfalso. destruct (Hr reply eq_refl) as [_ [Q|[Q|[_ Q]]]];
      rewrite Q in Code; discriminate.
Qed.

(** ** Updates *)

Lemma merged_set {A} (given : option A) (old : A) :
  merged given old (set given old).
Proof. now destruct given. Qed.

Lemma mergedNullable_set {A} (given : option A) (old : option A) :
  mergedNullable given old (setNullable given old).
Proof. now destruct given. Qed.

(** What an accepted [updateCasino] did. *)
Lemma updateCasino_Ok env input w r w' :
  updateCasino env input w = (Ok r, w') ->
  exists old,
    find (fun c => String.eqb (c_id c) (cu_casinoId input)) (casinos (store w))
      = Some old
    /\ store w' =
         {| casinos := updateWhere (fun c => String.eqb (c_id c) (cu_casinoId input))
                         (applyUpdate (Date_now env) (updateData input))
                         (casinos (store w));
            heartbeats := heartbeats (store w) |}
    /\ trace w' = trace w ++ [CasinoUpdate (cu_casinoId input)]
    /\ r = formatCasinoResponse (applyUpdate (Date_now env) (updateData input) old).
Proof.
  unfold updateCasino, prisma_casino_findUnique_id, prisma_casino_update.
  run.
  destruct (find _ (casinos (store w))) as [old|] eqn:F; [|discriminate].
  simpl. pose proof (find_id_some _ _ _ F) as [_ Eid]. rewrite Eid, F.
  intros H. inversion H; subst. exists old. auto.
Qed.

Lemma updateWhere_keeps (p : Casino -> bool) f rows c :
  In c rows -> p c = false -> In c (updateWhere p f rows).
Proof.
  intros I E. unfold updateWhere. apply in_map_iff. exists c.
  now rewrite E.
Qed.

(** C6. An accepted update changes exactly the fields the request carries:
    [name], [url] and [status] at the top, each field of [metadata], and
    each link of [metadata.socialLinks]; a field the request leaves out
    keeps its value.  [id], [publicKey], [createdAt] and [version] are the
    same before and after, as are [lastHeartbeat], every other casino and
    the heartbeat records. *)
Theorem C6_update_is_partial_merge
  (env : Env) (body : CasinoUpdateRequest) (w w' : World) (reply : Reply) :
  updateRoute env body w = (Ok reply, w') ->
  statusCode reply = 200%Z ->
  let given {B} (field : MetadataInput -> option B) : option B :=
    optChain (cu_metadata body) field in
  let link (field : SocialLinks -> option string) : option string :=
    optChain (optChain (cu_metadata body) md_socialLinks) field in
  exists old new,
    find (fun c => String.eqb (c_id c) (cu_casinoId body)) (casinos (store w))
      = Some old
    /\ find (fun c => String.eqb (c_id c) (cu_casinoId body)) (casinos (store w'))
       = Some new
    /\ data reply = Some (DataCasino (formatCasinoResponse new))
    /\ (c_id new = c_id old /\ c_publicKey new = c_publicKey old
        /\ c_createdAt new = c_createdAt old /\ c_version new = c_version old)
    /\ (merged (cu_name body) (c_name old) (c_name new)
        /\ merged (cu_url body) (c_url old) (c_url new)
        /\ merged (cu_status body) (c_status old) (c_status new))
    /\ (mergedNullable (given md_description) (c_description old) (c_description new)
        /\ merged (given md_games) (c_games old) (c_games new)
        /\ mergedNullable (given md_logo) (c_logo old) (c_logo new)
        /\ mergedNullable (given md_banner) (c_banner old) (c_banner new)
        /\ mergedNullable (given md_maxBetAmount) (c_maxBetAmount old) (c_maxBetAmount new)
        /\ mergedNullable (given md_minBetAmount) (c_minBetAmount old) (c_minBetAmount new)
        /\ merged (given md_supportedTokens) (c_supportedTokens old)
             (c_supportedTokens new))
    /\ (mergedNullable (link sl_twitter) (c_twitterUrl old) (c_twitterUrl new)
        /\ mergedNullable (link sl_discord) (c_discordUrl old) (c_discordUrl new)
        /\ mergedNullable (link sl_telegram) (c_telegramUrl old) (c_telegramUrl new)
        /\ mergedNullable (link sl_website) (c_websiteUrl old) (c_websiteUrl new))
    /\ c_lastHeartbeat new = c_lastHeartbeat old
    /\ heartbeats (store w') = heartbeats (store w)
    /\ (forall c, In c (casinos (store w)) -> c_id c <> cu_casinoId body ->
          In c (casinos (store w'))).
Proof.
  intros H Code given link.
  unfold updateRoute, getCasinoById, prisma_casino_findUnique_id, callVerify in H.
  run.
  destruct (find _ (casinos (store w))) as [old|] eqn:F; simpl in H;
    [|inversion H; subst; discriminate].
  destruct (verifySolanaSignature _ _ _) as [[|]|e]; simpl in H.
  - destruct (updateCasino env body _) as [[r|e] w1] eqn:U.
    + inversion H; subst; clear H.
      apply updateCasino_Ok in U as (old' & F' & S & _ & R).
      simpl in F'. rewrite F in F'. inversion F'; subst old'. simpl in S.
      exists old, (applyUpdate (Date_now env) (updateData body) old).
      rewrite S. simpl.
      split; [reflexivity|].
      split; [rewrite find_updateWhere by reflexivity; now rewrite F|].
      split; [now rewrite R|].
      split; [repeat split|].
      split; [repeat split; apply merged_set|].
      split; [repeat split; first [apply merged_set|apply mergedNullable_set]|].
      split; [repeat split; apply mergedNullable_set|].
      split; [reflexivity|]. split; [reflexivity|].
      intros c I N. apply updateWhere_keeps; [exact I|].
      now apply String.eqb_neq.
    + destruct (hasMessage e "CASINO_NOT_FOUND");
        inversion H; subst; discriminate.
  - inversion H; subst; discriminate.
  - destruct (hasMessage e "CASINO_NOT_FOUND");
      inversion H; subst; discriminate.
Qed.

End Properties.

(* ================================================================== *)
(** * Further properties of the service *)
(* ================================================================== *)

Section FurtherProperties.
Context {platform : Platform}.
Local Open Scope list_scope.

Ltac step_through :=
  unfold bind, ret, throw, catch, getStore, putStore, logEvent, liftResult in *;
  simpl in *.

(** ** The write routes, case by case *)

(** X1. An update whose [casinoId] belongs to no registered casino is
    answered with 404 [CASINO_NOT_FOUND]; no signature verification is made
    and nothing is written. *)
Theorem X1_update_unknown_casino (env : Env) (body : CasinoUpdateRequest) (w : World) :
  (forall c, In c (casinos (store w)) -> c_id c <> cu_casinoId body) ->
  updateRoute env body w
  = (Ok (sendError env 404 CASINO_NOT_FOUND "Casino not found"), w).
Proof.
  intros Absent.
  assert (F : find (fun c => String.eqb (c_id c) (cu_casinoId body)) (casinos (store w)) = None).
  { apply find_none_iff. intros c I. apply String.eqb_neq. auto. }
  unfold updateRoute, getCasinoById, prisma_casino_findUnique_id.
  step_through. now rewrite F.
Qed.

(** X2. A heartbeat for a registered casino whose signature does not verify
    is answered with 401 [INVALID_SIGNATURE] and the store is left as it was.
    The one verification made is of the message of the body against the
    public key on file for that casino. *)
Theorem X2_heartbeat_bad_signature
  (env : Env) (body : HeartbeatPayload) (w : World) (casino : Casino) :
  find (fun c => String.eqb (c_id c) (hp_casinoId body)) (casinos (store w))
    = Some casino ->
  verifySolanaSignature (heartbeatMessage body) (hp_signature body)
    (c_publicKey casino) = Ok false ->
  heartbeatRoute env body w
  = (Ok (sendError env 401 INVALID_SIGNATURE "Signature verification failed"),
     logged w (VerifyCall (heartbeatMessage body) (hp_signature body)
                 (c_publicKey casino))).
Proof.
  intros F V.
  unfold heartbeatRoute, getCasinoById, prisma_casino_findUnique_id, callVerify.
  step_through. rewrite F. simpl.
  unfold heartbeatMessage in V. now rewrite V.
Qed.

(** X3. The same for an update: a signature that does not verify against the
    public key on file gives 401 [INVALID_SIGNATURE] and changes no casino. *)
Theorem X3_update_bad_signature
  (env : Env) (body : CasinoUpdateRequest) (w : World) (casino : Casino) :
  find (fun c => String.eqb (c_id c) (cu_casinoId body)) (casinos (store w))
    = Some casino ->
  verifySolanaSignature (updateMessage body) (cu_signature body)
    (c_publicKey casino) = Ok false ->
  updateRoute env body w
  = (Ok (sendError env 401 INVALID_SIGNATURE "Signature verification failed"),
     logged w (VerifyCall (updateMessage body) (cu_signature body)
                 (c_publicKey casino))).
Proof.
  intros F V.
  unfold updateRoute, getCasinoById, prisma_casino_findUnique_id, callVerify.
  step_through. rewrite F. simpl.
  unfold updateMessage in V. now rewrite V.
Qed.

(** X4. A heartbeat is accepted (200) only if its casino is registered and
    its signature verifies against the public key on file. *)
Theorem X4_heartbeat_accepted_only_if
  (env : Env) (body : HeartbeatPayload) (w : World) :
  answered (heartbeatRoute env body w) 200 ->
  exists casino,
    find (fun c => String.eqb (c_id c) (hp_casinoId body)) (casinos (store w))
      = Some casino
    /\ verifySolanaSignature (heartbeatMessage body) (hp_signature body)
         (c_publicKey casino) = Ok true.
Proof.
  unfold answered, heartbeatRoute, getCasinoById, prisma_casino_findUnique_id,
    callVerify, heartbeatMessage.
  step_through.
  destruct (find _ (casinos (store w))) as [casino|] eqn:F; simpl.
  2:{ intros (r & [= <-] & C). discriminate. }
  destruct (verifySolanaSignature _ _ _) as [[|]|e] eqn:V; simpl.
  - intros _. exists casino. split; [reflexivity|exact V].
  - intros (r & [= <-] & C). discriminate.
  - destruct (hasMessage e _); intros (r & E & C);
      simpl in E; inversion E; subst; discriminate.
Qed.

(** X5. An update is accepted (200) only if its casino is registered and
    its signature verifies against the public key on file. *)
Theorem X5_update_accepted_only_if
  (env : Env) (body : CasinoUpdateRequest) (w : World) :
  answered (updateRoute env body w) 200 ->
  exists casino,
    find (fun c => String.eqb (c_id c) (cu_casinoId body)) (casinos (store w))
      = Some casino
    /\ verifySolanaSignature (updateMessage body) (cu_signature body)
         (c_publicKey casino) = Ok true.
Proof.
  unfold answered, updateRoute, getCasinoById, prisma_casino_findUnique_id,
    callVerify, updateMessage.
  step_through.
  destruct (find _ (casinos (store w))) as [casino|] eqn:F; simpl.
  2:{ intros (r & [= <-] & C). discriminate. }
  destruct (verifySolanaSignature _ _ _) as [[|]|e] eqn:V; simpl.
  - intros _. exists casino. split; [reflexivity|exact V].
  - intros (r & [= <-] & C). discriminate.
  - destruct (hasMessage e _); intros (r & E & C);
      simpl in E; inversion E; subst; discriminate.
Qed.

(** X6. A registration without a signature, or with a public key that is not
    a well-formed key, is refused with 400 [INVALID_REQUEST] before any
    signature verification and before the store is looked at. *)
Theorem X6_registration_refused_before_verification
  (env : Env) (raw : RegistrationRequest) (w : World) :
  (reg_signature raw = EmptyString ->
     registerRoute env raw w
     = (Ok (sendError env 400 INVALID_REQUEST "Missing signature"), w))
  /\ (reg_signature raw <> EmptyString ->
      reg_publicKey raw <> EmptyString ->
      isValidSolanaPublicKey (reg_publicKey raw) = Ok false ->
      registerRoute env raw w
      = (Ok (sendError env 400 INVALID_REQUEST "Invalid Solana public key format"), w)).
Proof.
  unfold registerRoute, verifyRegistrationSignature. simpl. split.
  - intros ->. reflexivity.
  - intros Hs Hk V.
    apply String.eqb_neq in Hs, Hk. rewrite Hs, Hk.
    step_through. now rewrite V.
Qed.

(** X7. A public key that [isValidSolanaPublicKey] rejects verifies no
    signature on any message. *)
Theorem X7_rejected_key_verifies_nothing (publicKey : string) :
  isValidSolanaPublicKey publicKey = Ok false ->
  forall message signature,
    verifySolanaSignature message signature publicKey = Ok false.
Proof.
  unfold isValidSolanaPublicKey, verifySolanaSignature, verifySolanaSignature_try,
    try_catch.
  destruct (PublicKey_toBytes publicKey); [discriminate|].
  intros _ message signature.
  now destruct (bs58_decode signature).
Qed.

(** ** What a signature covers *)

Lemma Get_absent (m : jsobject) P : ~ In P (map fst m) -> Get m P = None.
Proof.
  induction m as [|[k x] r IH]; simpl; [reflexivity|].
  intros N. destruct (String.eqb_spec k P) as [->|_]; [tauto|].
  apply IH. tauto.
Qed.

Lemma flat_map_nil {A B} (f : A -> list B) l :
  (forall a, In a l -> f a = []) -> flat_map f l = [].
Proof.
  induction l as [|a l IH]; simpl; intros H; [reflexivity|].
  rewrite (H a (or_introl eq_refl)). apply IH. auto.
Qed.

Lemma disjointb_spec K L P :
  disjointb K L = true -> In P K -> ~ In P L.
Proof.
  unfold disjointb. rewrite forallb_forall. intros H IK IL.
  specialize (H P IK). apply negb_true_iff in H.
  assert (E : existsb (String.eqb P) L = true)
    by (apply existsb_exists; exists P; split; [exact IL|apply String.eqb_refl]).
  congruence.
Qed.

(** An object none of whose keys is in the property list is written as the
    empty object. *)
Lemma serialize_unlisted (K L : list string) (m : jsobject) :
  (forall P, In P (map fst m) -> In P L) ->
  disjointb K L = true ->
  SerializeJSONProperty NumberToString (Some K) (JObject m) = Some "{}"%string.
Proof.
  intros HL D. rewrite JsonFacts.serialize_object.
  rewrite flat_map_nil; [reflexivity|].
  intros P IK. unfold Json.member. rewrite Get_absent; [reflexivity|].
  intros IM. exact (disjointb_spec K L P D IK (HL P IM)).
Qed.

Lemma jsMetadata_unlisted md K :
  disjointb K metadataKeys = true ->
  SerializeJSONProperty NumberToString (Some K) (jsMetadata md) = Some "{}"%string.
Proof.
  intros D. unfold jsMetadata.
  apply serialize_unlisted with (L := metadataKeys); [|exact D].
  intros P I.
  rewrite <- (app_nil_r (optional "supportedTokens" _ _)) in I.
  repeat (apply optional_keys_in in I; destruct I as [->|I]; [cbn; tauto|]).
  destruct I.
Qed.

Lemma jsMetrics_unlisted m K :
  disjointb K metricsKeys = true ->
  SerializeJSONProperty NumberToString (Some K) (jsMetrics m) = Some "{}"%string.
Proof.
  intros D. unfold jsMetrics.
  apply serialize_unlisted with (L := metricsKeys); [|exact D].
  intros P I.
  rewrite <- (app_nil_r (optional "responseTime" _ _)) in I.
  repeat (apply optional_keys_in in I; destruct I as [->|I]; [cbn; tauto|]).
  destruct I.
Qed.

Ltac write_nested M H :=
  unfold canonicalMessage, JSON_stringify; simpl;
  try match goal with
      | |- context [SerializeJSONProperty _ (Some ?K) M] =>
          rewrite (H K) by reflexivity
      end;
  reflexivity.

(** The message of a registration, written out. *)
Lemma registrationMessage_text (body : RegistrationRequest) :
  registrationMessage body
  = ("{" ++ String.concat ","
             [memberText "metadata" "{}";
              memberText "name" (QuoteJSONString (reg_name body));
              memberText "publicKey" (QuoteJSONString (reg_publicKey body));
              memberText "url" (QuoteJSONString (reg_url body))]
      ++ "}")%string.
Proof.
  unfold registrationMessage, RegistrationRequest_object, memberText.
  pose proof (jsMetadata_unlisted
                (reg_metadata (RegistrationRequestSchema_parse body))) as HM.
  remember (jsMetadata (reg_metadata (RegistrationRequestSchema_parse body))) as M.
  clear HeqM. write_nested M HM.
Qed.

(** The message of a heartbeat, written out. *)
Lemma heartbeatMessage_text (body : HeartbeatPayload) :
  heartbeatMessage body
  = ("{" ++ String.concat ","
             ([memberText "casinoId" (QuoteJSONString (hp_casinoId body))]
              ++ match hp_metrics body with
                 | Some _ => [memberText "metrics" "{}"]
                 | None => []
                 end
              ++ [memberText "status"
                    (QuoteJSONString (CasinoStatus_name (hp_status body)));
                  memberText "timestamp"
                    (NumberToString (NumberOfZ (hp_timestamp body)))])
      ++ "}")%string.
Proof.
  unfold heartbeatMessage, HeartbeatPayload_object, memberText, jsStatus.
  destruct (hp_metrics body) as [m|].
  - pose proof (jsMetrics_unlisted m) as HM.
    unfold optional. remember (jsMetrics m) as M. clear HeqM.
    write_nested M HM.
  - unfold canonicalMessage, JSON_stringify. simpl. reflexivity.
Qed.

(** The message of an update, written out. *)
Lemma updateMessage_text (body : CasinoUpdateRequest) :
  updateMessage body
  = ("{" ++ String.concat ","
             ([memberText "casinoId" (QuoteJSONString (cu_casinoId body))]
              ++ match cu_metadata body with
                 | Some _ => [memberText "metadata" "{}"]
                 | None => []
                 end
              ++ match cu_name body with
                 | Some n => [memberText "name" (QuoteJSONString n)]
                 | None => []
                 end
              ++ match cu_status body with
                 | Some st =>
                     [memberText "status" (QuoteJSONString (CasinoStatus_name st))]
                 | None => []
                 end
              ++ match cu_url body with
                 | Some u => [memberText "url" (QuoteJSONString u)]
                 | None => []
                 end)
      ++ "}")%string.
Proof.
  unfold updateMessage, CasinoUpdateRequest_object, memberText, jsStatus, jsString.
  destruct (cu_metadata body) as [md|];
    destruct (cu_name body), (cu_url body), (cu_status body); unfold optional.
  1-8: pose proof (jsMetadata_unlisted md) as HM;
       remember (jsMetadata md) as M; clear HeqM; write_nested M HM.
  all: unfold canonicalMessage, JSON_stringify; simpl; reflexivity.
Qed.

(** X8. The message a registration is verified against holds the name, the
    url and the public key, and of [metadata] only an empty object: two
    registrations that differ in nothing but what is inside [metadata] have
    the same message, and a signature verifies for the one exactly when it
    verifies for the other. *)
Theorem X8_registration_signature_leaves_metadata_out (b1 b2 : RegistrationRequest) :
  reg_name b1 = reg_name b2 ->
  reg_url b1 = reg_url b2 ->
  reg_publicKey b1 = reg_publicKey b2 ->
  registrationMessage b1 = registrationMessage b2
  /\ forall signature publicKey,
       verifySolanaSignature (registrationMessage b1) signature publicKey
       = verifySolanaSignature (registrationMessage b2) signature publicKey.
Proof.
  intros En Eu Ek.
  assert (E : registrationMessage b1 = registrationMessage b2)
    by (rewrite !registrationMessage_text; now rewrite En, Eu, Ek).
  split; [exact E|]. intros. now rewrite E.
Qed.

(** X9. The message an update is verified against holds the casino id and
    the [name], [url] and [status] the request carries, and of [metadata]
    only an empty object: two updates that differ in nothing but what is
    inside their [metadata] have the same message, so a signature made for
    the one verifies for the other. *)
Theorem X9_update_signature_leaves_metadata_out (b1 b2 : CasinoUpdateRequest) :
  cu_casinoId b1 = cu_casinoId b2 ->
  cu_name b1 = cu_name b2 ->
  cu_url b1 = cu_url b2 ->
  cu_status b1 = cu_status b2 ->
  isSome (cu_metadata b1) = isSome (cu_metadata b2) ->
  updateMessage b1 = updateMessage b2
  /\ forall signature publicKey,
       verifySolanaSignature (updateMessage b1) signature publicKey
       = verifySolanaSignature (updateMessage b2) signature publicKey.
Proof.
  intros Ei En Eu Es Em.
  assert (E : updateMessage b1 = updateMessage b2).
  { rewrite !updateMessage_text. rewrite Ei, En, Eu, Es.
    destruct (cu_metadata b1), (cu_metadata b2); try discriminate; reflexivity. }
  split; [exact E|]. intros. now rewrite E.
Qed.

(** X10. The message a heartbeat is verified against holds the casino id,
    the status and the timestamp, and of [metrics] only an empty object: the
    numbers inside [metrics] are not covered by the signature. *)
Theorem X10_heartbeat_signature_leaves_metrics_out (b1 b2 : HeartbeatPayload) :
  hp_casinoId b1 = hp_casinoId b2 ->
  hp_status b1 = hp_status b2 ->
  hp_timestamp b1 = hp_timestamp b2 ->
  isSome (hp_metrics b1) = isSome (hp_metrics b2) ->
  heartbeatMessage b1 = heartbeatMessage b2
  /\ forall signature publicKey,
       verifySolanaSignature (heartbeatMessage b1) signature publicKey
       = verifySolanaSignature (heartbeatMessage b2) signature publicKey.
Proof.
  intros Ei Es Et Em.
  assert (E : heartbeatMessage b1 = heartbeatMessage b2).
  { rewrite !heartbeatMessage_text. rewrite Ei, Es, Et.
    destruct (hp_metrics b1), (hp_metrics b2); try discriminate; reflexivity. }
  split; [exact E|]. intros. now rewrite E.
Qed.

(** ** Registration, case by case *)

Lemma existsb_false_forall {A} (f : A -> bool) l :
  existsb f l = false <-> forall x, In x l -> f x = false.
Proof.
  induction l as [|a l IH]; simpl; [tauto|].
  rewrite orb_false_iff, IH. split.
  - intros [Ha H] x [<-|I]; auto.
  - intros H. split; [apply H; now left|intros; apply H; now right].
Qed.

(** What an accepted registration did. *)
Lemma registerRoute_created env raw w reply w' :
  registerRoute env raw w = (Ok reply, w') ->
  statusCode reply = 201%Z ->
  exists row,
    reply = sendData env 201 (DataCasino (formatCasinoResponse row))
    /\ store w' = {| casinos := casinos (store w) ++ [row];
                     heartbeats := heartbeats (store w) |}
    /\ c_id row = uuid env
    /\ c_publicKey row = reg_publicKey raw
    /\ c_lastHeartbeat row = None
    /\ c_status row = online
    /\ c_version row = "1.0.0"%string
    /\ (forall c, In c (casinos (store w)) ->
          c_publicKey c <> reg_publicKey raw /\ c_id c <> uuid env).
Proof.
  unfold registerRoute.
  destruct (verifyRegistrationSignature_cases env
              (RegistrationRequestSchema_parse raw) w)
    as (pre & w1 & V & S1 & _ & A).
  unfold bind at 1. rewrite V.
  destruct pre as [early|].
  - unfold ret. intros [= <- <-] C.
    destruct (A early eq_refl) as [_ [Q|Q]]; rewrite Q in C; discriminate.
  - unfold catch, bind at 1, registerCasino, prisma_casino_findUnique_publicKey,
      prisma_casino_create.
    step_through. rewrite S1.
    destruct (find _ (casinos (store w))) as [c|] eqn:F; simpl;
      [intros [= <- <-]; discriminate|].
    rewrite ?S1. rewrite (existsb_clash _ _ _ F).
    destruct (existsb _ (casinos (store w))) eqn:U; simpl;
      [discriminate|].
    intros [= <- <-] _. eexists. split; [reflexivity|]. simpl.
    rewrite ?S1. repeat split; try reflexivity.
    + now apply (proj1 (find_key_none _ _) F).
    + apply String.eqb_neq.
      exact (proj1 (existsb_false_forall _ _) U c H).
Qed.

(** X11. A registration is accepted (201) only if it carries a signature
    and a well-formed public key, the signature verifies against that key,
    and no registered casino has the key. *)
Theorem X11_registration_accepted_only_if
  (env : Env) (raw : RegistrationRequest) (w : World) :
  answered (registerRoute env raw w) 201 ->
  reg_signature raw <> EmptyString
  /\ reg_publicKey raw <> EmptyString
  /\ isValidSolanaPublicKey (reg_publicKey raw) = Ok true
  /\ verifySolanaSignature (registrationMessage raw) (reg_signature raw)
       (reg_publicKey raw) = Ok true
  /\ (forall c, In c (casinos (store w)) -> c_publicKey c <> reg_publicKey raw).
Proof.
  unfold answered, registrationMessage, registerRoute, verifyRegistrationSignature,
    callVerify.
  simpl.
  destruct (String.eqb_spec (reg_signature raw) EmptyString) as [Es|Ns].
  { intros (r & [= <-] & C). discriminate. }
  destruct (String.eqb_spec (reg_publicKey raw) EmptyString) as [Ek|Nk].
  { intros (r & [= <-] & C). discriminate. }
  step_through.
  destruct (isValidSolanaPublicKey_returns (reg_publicKey raw)) as [[|] ->];
    simpl.
  2:{ intros (r & [= <-] & C). discriminate. }
  match goal with |- context [verifySolanaSignature ?m ?s ?k] =>
    destruct (verifySolanaSignature_returns m s k) as [[|] V] end;
    rewrite V; simpl.
  2:{ intros (r & [= <-] & C). discriminate. }
  unfold registerCasino, prisma_casino_findUnique_publicKey, prisma_casino_create.
  step_through.
  destruct (find _ (casinos (store w))) as [c|] eqn:F; simpl.
  { intros (r & [= <-] & C). discriminate. }
  intros _. split; [exact Ns|]. split; [exact Nk|].
  split; [reflexivity|]. split; [reflexivity|].
  intros c I. now apply (proj1 (find_key_none _ _) F).
Qed.

(** ** The error handler *)

(** X12. [errorHandler] always answers with a failure.  A 429 is answered as
    [RATE_LIMITED] whatever the message; otherwise the four messages the
    services throw get their own code and status; and an answer with status
    500 never carries the message of the error, only the text
    [Internal server error] with the code [INTERNAL_ERROR]. *)
Theorem X12_errorHandler_answers (env : Env) (e : FastifyError) :
  let reply := errorHandler env e in
  (success reply = false /\ data reply = None)
  /\ (fe_statusCode e = Some 429%Z ->
        reply = sendError env 429 RATE_LIMITED
                  "Too many requests, please try again later")
  /\ (fe_statusCode e <> Some 429%Z ->
        (fe_message e = "CASINO_NOT_FOUND"%string ->
           reply = sendError env 404 CASINO_NOT_FOUND "CASINO_NOT_FOUND")
        /\ (fe_message e = "CASINO_ALREADY_EXISTS"%string ->
              reply = sendError env 409 CASINO_ALREADY_EXISTS "CASINO_ALREADY_EXISTS")
        /\ (fe_message e = "INVALID_SIGNATURE"%string ->
              reply = sendError env 401 INVALID_SIGNATURE "INVALID_SIGNATURE")
        /\ (fe_message e = "UNAUTHORIZED"%string ->
              reply = sendError env 401 UNAUTHORIZED "UNAUTHORIZED"))
  /\ (statusCode reply = 500%Z ->
        error reply = Some {| err_code := INTERNAL_ERROR;
                              err_message := "Internal server error" |}).
Proof.
  intros reply. subst reply. unfold errorHandler, statusIs.
  destruct (fe_statusCode e) as [m|] eqn:Es.
  - destruct (Z.eqb_spec m 429) as [->|N429].
    + simpl. repeat split; intros; try congruence; discriminate.
    + assert (Some m <> Some 429%Z) by congruence.
      destruct (String.eqb_spec (fe_message e) "CASINO_NOT_FOUND") as [E1|N1];
        [rewrite E1; simpl; repeat split; intros; congruence || discriminate|].
      destruct (String.eqb_spec (fe_message e) "CASINO_ALREADY_EXISTS") as [E2|N2];
        [rewrite E2; simpl; repeat split; intros; congruence || discriminate|].
      destruct (String.eqb_spec (fe_message e) "INVALID_SIGNATURE") as [E3|N3];
        [rewrite E3; simpl; repeat split; intros; congruence || discriminate|].
      destruct (String.eqb_spec (fe_message e) "UNAUTHORIZED") as [E4|N4];
        [rewrite E4; simpl; repeat split; intros; congruence || discriminate|].
      destruct (Z.eqb_spec (if (m =? 0)%Z then 500%Z else m) 500) as [E5|N5];
        simpl; repeat split; intros; congruence.
  - destruct (String.eqb_spec (fe_message e) "CASINO_NOT_FOUND") as [E1|N1];
      [rewrite E1; simpl; repeat split; intros; congruence || discriminate|].
    destruct (String.eqb_spec (fe_message e) "CASINO_ALREADY_EXISTS") as [E2|N2];
      [rewrite E2; simpl; repeat split; intros; congruence || discriminate|].
    destruct (String.eqb_spec (fe_message e) "INVALID_SIGNATURE") as [E3|N3];
      [rewrite E3; simpl; repeat split; intros; congruence || discriminate|].
    destruct (String.eqb_spec (fe_message e) "UNAUTHORIZED") as [E4|N4];
      [rewrite E4; simpl; repeat split; intros; congruence || discriminate|].
    simpl. repeat split; intros; congruence.
Qed.

(** ** Reading *)


Lemma find_snoc_fresh {A} (f : A -> bool) l x :
  (forall y, In y l -> f y = false) -> f x = true ->
  find f (l ++ [x]) = Some x.
Proof.
  induction l as [|a l IH]; simpl; intros Hl Hx; [now rewrite Hx|].
  rewrite (Hl a (or_introl eq_refl)). apply IH; auto.
Qed.

(** X14. After an accepted registration the new casino is found both by the
    id it was given and by its public key, and both lookups answer with the
    very record the registration returned. *)
Theorem X14_registered_casino_is_found
  (env env' : Env) (raw : RegistrationRequest) (w w' : World) (reply : Reply) :
  registerRoute env raw w = (Ok reply, w') ->
  statusCode reply = 201%Z ->
  exists casino,
    data reply = Some (DataCasino casino)
    /\ cm_publicKey casino = reg_publicKey raw
    /\ casinoByIdRoute env' (cm_id casino) w'
       = (Ok (sendData env' 200 (DataCasino casino)), w')
    /\ casinoByKeyRoute env' (reg_publicKey raw) w'
       = (Ok (sendData env' 200 (DataCasino casino)), w').
Proof.
  intros Run Code.
  destruct (registerRoute_created env raw w reply w' Run Code)
    as (row & -> & S & Hid & Hk & _ & _ & _ & Fresh).
  assert (Fi : find (fun c => String.eqb (c_id c) (c_id row))
                 (casinos (store w) ++ [row]) = Some row).
  { apply find_snoc_fresh; [|apply String.eqb_refl].
    intros c I. apply String.eqb_neq. rewrite Hid. now destruct (Fresh c I). }
  assert (Fk : find (fun c => String.eqb (c_publicKey c) (reg_publicKey raw))
                 (casinos (store w) ++ [row]) = Some row).
  { apply find_snoc_fresh; [|now apply String.eqb_eq].
    intros c I. apply String.eqb_neq. now destruct (Fresh c I). }
  exists (formatCasinoResponse row). simpl.
  split; [reflexivity|]. split; [exact Hk|].
  unfold casinoByIdRoute, casinoByKeyRoute, getCasinoById, getCasinoByPublicKey,
    prisma_casino_findUnique_id, prisma_casino_findUnique_publicKey.
  step_through. rewrite S. simpl. rewrite Fi, Fk. split; reflexivity.
Qed.

Lemma firstn_firstn_skipn {A} (a b : nat) : forall l : list A,
  firstn a l ++ firstn b (skipn a l) = firstn (a + b) l.
Proof.
  induction a as [|a IH]; intros l; [reflexivity|].
  destruct l as [|x l]; simpl; [now rewrite firstn_nil|].
  now rewrite IH.
Qed.

Lemma desc_before_same (a b : Casino) :
  before a b -> before b a -> c_lastHeartbeat a = c_lastHeartbeat b.
Proof.
  unfold before, desc_before.
  destruct (c_lastHeartbeat a) as [x|], (c_lastHeartbeat b) as [y|];
    try discriminate; [|reflexivity].
  intros A B. apply Z.leb_le in A, B. f_equal. apply Z.le_antisymm; assumption.
Qed.

(** Without ties there is one order: two arrangements of the same rows that
    are both sorted by [lastHeartbeat], most recent first and nulls ahead,
    are the same list when no two rows have the same [lastHeartbeat]. *)
Lemma sorted_arrangement_unique : forall l1 l2 : list Casino,
  NoDup (map c_lastHeartbeat l1) ->
  Permutation l1 l2 ->
  StronglySorted before l1 -> StronglySorted before l2 ->
  l1 = l2.
Proof.
  induction l1 as [|a l1 IH]; intros l2 ND P S1 S2.
  - apply Permutation_nil in P. now subst.
  - destruct l2 as [|b l2];
      [apply Permutation_sym, Permutation_nil in P; discriminate|].
    inversion S1 as [|? ? S1' F1]; subst.
    inversion S2 as [|? ? S2' F2]; subst.
    inversion ND as [|? ? NI ND']; subst.
    assert (E : a = b).
    { assert (Ia : In a (b :: l2))
        by (eapply Permutation_in; [exact P|now left]).
      destruct Ia as [E|Ia]; [now symmetry|].
      assert (Ib : In b (a :: l1))
        by (eapply Permutation_in; [apply Permutation_sym, P|now left]).
      destruct Ib as [E|Ib]; [exact E|].
      exfalso. apply NI.
      rewrite (desc_before_same a b).
      - now apply in_map.
      - exact (proj1 (Forall_forall _ _) F1 b Ib).
      - exact (proj1 (Forall_forall _ _) F2 a Ia). }
    subst b. f_equal. apply IH; auto.
    now apply Permutation_cons_inv in P.
Qed.

(** X15. A page of the list holds [limit] records or, at the end, what is
    left after [offset], and [total] is the same on every page.  When no two
    casinos that pass the filters have the same [lastHeartbeat] (so at most
    one was never seen), the order of the list is determined: the page is
    the window of every arrangement of the matching casinos that is sorted
    by [lastHeartbeat], and the page at [offset] of [limit] records followed
    by the page at [offset + limit] is the page at [offset] of the two
    limits added. *)
Theorem X15_pages_fit_together
  (status : option CasinoStatus) (games : option (list GameType))
  (offset limit limit' : nat) (w : World) :
  let query o l := {| cf_status := status; cf_games := games;
                      cf_limit := l; cf_offset := o |} in
  let matching := filter (casinosWhere (query offset limit)) (casinos (store w)) in
  exists first next both,
    getCasinos (query offset limit) w = (Ok first, w)
    /\ getCasinos (query (offset + limit) limit') w = (Ok next, w)
    /\ getCasinos (query offset (limit + limit')) w = (Ok both, w)
    /\ List.length (pg_casinos first) = Nat.min limit (pg_total first - offset)
    /\ pg_total first = List.length matching
    /\ pg_total next = pg_total first
    /\ pg_total both = pg_total first
    /\ (NoDup (map c_lastHeartbeat matching) ->
        (forall ordered,
           Permutation ordered matching -> StronglySorted before ordered ->
           pg_casinos first
           = map formatCasinoResponse (firstn limit (skipn offset ordered)))
        /\ pg_casinos first ++ pg_casinos next = pg_casinos both).
Proof.
  intros query matching. do 3 eexists.
  split; [reflexivity|]. split; [reflexivity|]. split; [reflexivity|].
  simpl. unfold casinosWhere. simpl.
  change (filter _ (casinos (store w))) with matching.
  split; [|split; [reflexivity|split; [reflexivity|split; [reflexivity|]]]].
  - rewrite length_map, length_firstn, length_skipn.
    now rewrite (Permutation_length (orderBy_Permutation matching)).
  - intros ND. split.
    + intros ordered P S.
      rewrite (sorted_arrangement_unique (orderByLastHeartbeatDesc matching) ordered);
        [reflexivity| | |apply orderBy_sorted|exact S].
      * eapply Permutation_NoDup; [|exact ND].
        apply Permutation_map, Permutation_sym, orderBy_Permutation.
      * eapply perm_trans; [apply orderBy_Permutation|].
        now apply Permutation_sym.
    + rewrite <- map_app. f_equal.
      rewrite Nat.add_comm, <- skipn_skipn. apply firstn_firstn_skipn.
Qed.

Lemma window_In {A} (x : A) (skip take : nat) l :
  In x (firstn take (skipn skip l)) -> In x l.
Proof.
  intros I.
  rewrite <- (firstn_skipn skip l). apply in_or_app. right.
  rewrite <- (firstn_skipn take (skipn skip l)). apply in_or_app. now left.
Qed.

(** X16. Every casino on a page passes the filters of the query: it has the
    status asked for, and offers at least one of the games asked for when
    the list of games is not empty.  With no offset and a limit that reaches
    the total, every stored casino that passes the filters is on the page. *)
Theorem X16_page_holds_the_matching_casinos
  (filters : CasinoFilters) (w : World) :
  exists page,
    getCasinos filters w = (Ok page, w)
    /\ (forall m, In m (pg_casinos page) ->
          (forall st, cf_status filters = Some st -> cm_status m = st)
          /\ (forall gs, cf_games filters = Some gs -> gs <> [] ->
                exists g, In g (mr_games (cm_metadata m)) /\ In g gs))
    /\ (cf_offset filters = 0%nat -> pg_total page <= cf_limit filters ->
        forall c, In c (casinos (store w)) ->
          (forall st, cf_status filters = Some st -> c_status c = st) ->
          (forall gs, cf_games filters = Some gs -> gs <> [] ->
             exists g, In g (c_games c) /\ In g gs) ->
          In (formatCasinoResponse c) (pg_casinos page)).
Proof.
  eexists. split; [reflexivity|]. simpl. split.
  - intros m I. apply in_map_iff in I as (c & <- & I).
    apply window_In in I.
    apply (Permutation_in _ (orderBy_Permutation _)) in I.
    apply filter_In in I as [_ I]. simpl.
    now apply casinosWhere_spec.
  - intros O T c I Hs Hg. rewrite O. simpl.
    rewrite firstn_all2
      by (rewrite (Permutation_length (orderBy_Permutation _)); exact T).
    apply in_map.
    apply (Permutation_in _ (Permutation_sym (orderBy_Permutation _))).
    apply filter_In. split; [exact I|].
    apply casinosWhere_spec. split; assumption.
Qed.

(** ** The sweep, again *)

Lemma swept_not_stale cutoff now c :
  inactiveWhere cutoff (applyUpdate now offlineData c) = false.
Proof. unfold inactiveWhere. simpl. apply andb_false_r. Qed.

(** X17. A second sweep at the same time and with the same timeout finds
    nothing to do: it returns 0 and leaves every casino as the first sweep
    left it. *)
Theorem X17_sweep_twice (env : Env) (timeoutMinutes : Z) (w : World) :
  exists n w1 w2,
    markInactiveCasinos env timeoutMinutes w = (Ok n, w1)
    /\ markInactiveCasinos env timeoutMinutes w1 = (Ok 0%nat, w2)
    /\ store w2 = store w1.
Proof.
  unfold markInactiveCasinos, prisma_casino_updateMany. step_through.
  set (cutoff := (Date_now env - timeoutMinutes * 60 * 1000)%Z).
  assert (None_left : forall rows,
            filter (inactiveWhere cutoff)
              (updateWhere (inactiveWhere cutoff)
                 (applyUpdate (Date_now env) offlineData) rows) = []).
  { unfold updateWhere. induction rows as [|c r IH]; simpl; [reflexivity|].
    destruct (inactiveWhere cutoff c) eqn:E.
    - rewrite (swept_not_stale cutoff (Date_now env) c). exact IH.
    - rewrite E. exact IH. }
  assert (Fixed : forall rows,
            updateWhere (inactiveWhere cutoff) (applyUpdate (Date_now env) offlineData)
              (updateWhere (inactiveWhere cutoff)
                 (applyUpdate (Date_now env) offlineData) rows)
            = updateWhere (inactiveWhere cutoff)
                (applyUpdate (Date_now env) offlineData) rows).
  { unfold updateWhere. induction rows as [|c r IH]; simpl; [reflexivity|].
    f_equal; [|exact IH].
    destruct (inactiveWhere cutoff c) eqn:E.
    - now rewrite (swept_not_stale cutoff (Date_now env) c).
    - now rewrite E. }
  do 3 eexists. split; [reflexivity|]. simpl.
  rewrite None_left, Fixed. split; reflexivity.
Qed.

(** ** How one operation changes the store *)

Lemma heartbeatRoute_store env body w r w' :
  heartbeatRoute env body w = (r, w') ->
  (store w' = store w /\ ~ answered (r, w') 200)
  \/ (answered (r, w') 200
      /\ (exists c, In c (casinos (store w)) /\ c_id c = hp_casinoId body)
      /\ (forall h, In h (heartbeats (store w)) -> h_id h <> uuid env)
      /\ store w'
         = {| casinos := updateWhere (hasId (hp_casinoId body))
                           (applyUpdate (Date_now env) (heartbeatData body))
                           (casinos (store w));
              heartbeats := heartbeats (store w) ++ [heartbeatRow env body] |}).
Proof.
  unfold answered, heartbeatRoute, getCasinoById, prisma_casino_findUnique_id,
    callVerify.
  step_through.
  destruct (find _ (casinos (store w))) as [casino|] eqn:F; simpl.
  2:{ intros [= <- <-]. left. split; [reflexivity|].
      intros (x & [= <-] & C). discriminate. }
  destruct (verifySolanaSignature _ _ _) as [[|]|e]; simpl.
  - unfold updateHeartbeat, prisma_casino_findUnique_id, prisma_heartbeat_create,
      prisma_casino_update.
    step_through. rewrite F. simpl.
    rewrite (existsb_id_of_find _ _ _ F). simpl.
    destruct (existsb _ (heartbeats (store w))) eqn:U; simpl.
    + intros [= <- <-]. left. split; [reflexivity|]. intros (x & [=] & _).
    + pose proof (find_id_some _ _ _ F) as [I Eid]. rewrite Eid, F. simpl.
      intros [= <- <-]. right. simpl.
      split; [eexists; split; reflexivity|].
      split; [eauto|]. split; [|reflexivity].
      intros h Ih. apply String.eqb_neq.
      exact (proj1 (existsb_false_forall _ _) U h Ih).
  - intros [= <- <-]. left. split; [reflexivity|].
    intros (x & [= <-] & C). discriminate.
  - destruct (hasMessage e _); intros [= <- <-]; left;
      (split; [reflexivity|]); intros (x & E & C); simpl in E;
      inversion E; subst; discriminate.
Qed.

Lemma updateRoute_store env body w r w' :
  updateRoute env body w = (r, w') ->
  (store w' = store w /\ ~ answered (r, w') 200)
  \/ (answered (r, w') 200
      /\ store w'
         = {| casinos := updateWhere (hasId (cu_casinoId body))
                           (applyUpdate (Date_now env) (updateData body))
                           (casinos (store w));
              heartbeats := heartbeats (store w) |}).
Proof.
  unfold answered, updateRoute, getCasinoById, prisma_casino_findUnique_id,
    callVerify.
  step_through.
  destruct (find _ (casinos (store w))) as [casino|] eqn:F; simpl.
  2:{ intros [= <- <-]. left. split; [reflexivity|].
      intros (x & [= <-] & C). discriminate. }
  destruct (verifySolanaSignature _ _ _) as [[|]|e]; simpl.
  - unfold updateCasino, prisma_casino_findUnique_id, prisma_casino_update.
    step_through. rewrite F. simpl.
    pose proof (find_id_some _ _ _ F) as [I Eid]. rewrite Eid, F. simpl.
    intros [= <- <-]. right. simpl.
    split; [eexists; split; reflexivity|reflexivity].
  - intros [= <- <-]. left. split; [reflexivity|].
    intros (x & [= <-] & C). discriminate.
  - destruct (hasMessage e _); intros [= <- <-]; left;
      (split; [reflexivity|]); intros (x & E & C); simpl in E;
      inversion E; subst; discriminate.
Qed.

(** The four ways a step changes the store: not at all; by one new casino;
    by rewriting some casinos in place without touching [lastHeartbeat]; by
    one new heartbeat record together with its casino's [lastHeartbeat]. *)
Lemma step_store w w' :
  step w w' ->
  store w' = store w
  \/ (exists row,
        store w' = {| casinos := casinos (store w) ++ [row];
                      heartbeats := heartbeats (store w) |}
        /\ c_lastHeartbeat row = None
        /\ c_version row = "1.0.0"%string
        /\ (forall c, In c (casinos (store w)) -> c_id c <> c_id row))
  \/ (exists p now d,
        store w' = {| casinos := updateWhere p (applyUpdate now d) (casinos (store w));
                      heartbeats := heartbeats (store w) |}
        /\ u_lastHeartbeat d = None)
  \/ (exists id now d row,
        store w' = {| casinos := updateWhere (hasId id) (applyUpdate now d)
                                   (casinos (store w));
                      heartbeats := heartbeats (store w) ++ [row] |}
        /\ u_lastHeartbeat d = Some (h_timestamp row)
        /\ h_casinoId row = id
        /\ (exists c, In c (casinos (store w)) /\ c_id c = id)
        /\ (forall h, In h (heartbeats (store w)) -> h_id h <> h_id row)).
Proof.
  intros [env raw r H|env body r H|env body r H|env query r H|env t r H].
  - destruct (registerRoute_cases env raw w r w' H)
      as [(row & -> & _)|(Hs & _)]; [|now left].
    destruct (registerRoute_created env raw w _ w' H eq_refl)
      as (row' & _ & S & Hid & _ & Hl & _ & Hv & Fresh).
    right. left. exists row'. repeat split; auto.
    intros c I. rewrite Hid. now destruct (Fresh c I).
  - destruct (heartbeatRoute_store env body w r w' H)
      as [[S _]|(_ & Ex & Fresh & S)]; [now left|].
    right. right. right.
    exists (hp_casinoId body), (Date_now env), (heartbeatData body),
      (heartbeatRow env body).
    repeat split; auto.
  - destruct (updateRoute_store env body w r w' H) as [[S _]|(_ & S)]; [now left|].
    right. right. left.
    exists (hasId (cu_casinoId body)), (Date_now env), (updateData body).
    split; [exact S|reflexivity].
  - unfold listRoute, getCasinos, prisma_casino_findMany, prisma_casino_count in H.
    step_through. inversion H; subst. now left.
  - unfold markInactiveCasinos, prisma_casino_updateMany in H. step_through.
    inversion H; subst. right. right. left. simpl.
    do 3 eexists. split; reflexivity.
Qed.

Lemma ids_updateWhere p now d rows :
  map c_id (updateWhere p (applyUpdate now d) rows) = map c_id rows.
Proof.
  unfold updateWhere. rewrite map_map. apply map_ext.
  intros c. now destruct (p c).
Qed.

Lemma NoDup_snoc {A} (l : list A) x : NoDup l -> ~ In x l -> NoDup (l ++ [x]).
Proof.
  intros ND NI. apply NoDup_rev in ND. rewrite <- (rev_involutive (l ++ [x])).
  apply NoDup_rev. rewrite rev_app_distr. simpl. constructor; [|exact ND].
  now rewrite <- in_rev.
Qed.

(** ** What holds in every state the service can reach *)

(** X18. In every state the service can reach, no two casinos have the same
    id and no two heartbeat records have the same id. *)
Theorem X18_ids_are_unique (w : World) :
  reachable w ->
  NoDup (map c_id (casinos (store w)))
  /\ NoDup (map h_id (heartbeats (store w))).
Proof.
  induction 1 as [|w w' _ [IHc IHh] S]; [split; constructor|].
  destruct (step_store w w' S)
    as [E|[(row & E & _ & _ & Fresh)|[(p & now & d & E & _)
       |(id & now & d & row & E & _ & _ & _ & Fresh)]]];
    rewrite E; simpl; rewrite ?ids_updateWhere; try (split; assumption).
  - split; [|exact IHh]. rewrite map_app. apply NoDup_snoc; [exact IHc|].
    intros I. apply in_map_iff in I as (c & Ec & I). now apply (Fresh c I).
  - split; [exact IHc|]. rewrite map_app. apply NoDup_snoc; [exact IHh|].
    intros I. apply in_map_iff in I as (h & Eh & I). now apply (Fresh h I).
Qed.

Lemma latestHeartbeat_snoc id rows row :
  latestHeartbeat id (rows ++ [row])
  = if String.eqb (h_casinoId row) id then Some (h_timestamp row)
    else latestHeartbeat id rows.
Proof.
  unfold latestHeartbeat. rewrite rev_app_distr. simpl.
  now destruct (String.eqb (h_casinoId row) id).
Qed.

Lemma latestHeartbeat_none id rows :
  (forall h, In h rows -> h_casinoId h <> id) -> latestHeartbeat id rows = None.
Proof.
  intros H. unfold latestHeartbeat.
  replace (find _ (rev rows)) with (@None HeartbeatRow); [reflexivity|].
  symmetry. apply find_none_iff. intros h I. apply in_rev in I.
  apply String.eqb_neq. auto.
Qed.

Lemma In_updateWhere p f (rows : list Casino) c' :
  In c' (updateWhere p f rows) ->
  exists c, In c rows /\ c' = if p c then f c else c.
Proof.
  unfold updateWhere. intros I. apply in_map_iff in I as (c & E & I). eauto.
Qed.

Lemma updateWhere_image p now d (rows : list Casino) c :
  In c rows ->
  exists c', In c' (updateWhere p (applyUpdate now d) rows) /\ c_id c' = c_id c.
Proof.
  intros I. exists (if p c then applyUpdate now d c else c). split.
  - unfold updateWhere. apply in_map_iff. eauto.
  - now destruct (p c).
Qed.


(** X20. No operation removes a casino or changes its identity: after any
    request or sweep every casino that was stored is still stored with the
    same id, public key, creation time and version, and every heartbeat
    record that was stored is still there, followed by the new ones. *)
Theorem X20_identity_and_history_are_kept (w w' : World) :
  step w w' ->
  (forall c, In c (casinos (store w)) ->
     exists c', In c' (casinos (store w')) /\ sameIdentity c c')
  /\ (exists more, heartbeats (store w') = heartbeats (store w) ++ more).
Proof.
  intros S.
  assert (Kept : forall p now d c, In c (casinos (store w)) ->
            exists c', In c' (updateWhere p (applyUpdate now d) (casinos (store w)))
                       /\ sameIdentity c c').
  { intros p now d c I. exists (if p c then applyUpdate now d c else c). split.
    - unfold updateWhere. apply in_map_iff. eauto.
    - destruct (p c); repeat split. }
  destruct (step_store w w' S)
    as [E|[(row & E & _)|[(p & now & d & E & _)|(id & now & d & row & E & _)]]];
    rewrite E; simpl.
  - split; [|exists []; now rewrite app_nil_r].
    intros c I. exists c. split; [exact I|repeat split].
  - split; [|exists []; now rewrite app_nil_r].
    intros c I. exists c. split; [apply in_or_app; now left|repeat split].
  - split; [apply Kept|exists []; now rewrite app_nil_r].
  - split; [apply Kept|now exists [row]].
Qed.

(** X21. In every state the service can reach, every stored casino carries
    the protocol version of the service. *)
Theorem X21_version_is_the_protocol_version (w : World) :
  reachable w ->
  forall c, In c (casinos (store w)) -> c_version c = protocolVersion.
Proof.
  induction 1 as [|w w' _ IH S]; [intros ? []|].
  destruct (step_store w w' S)
    as [E|[(row & E & _ & Hv & _)|[(p & now & d & E & _)|(id & now & d & row & E & _)]]];
    rewrite E; simpl; auto.
  - intros c I. apply in_app_or in I as [I|[<-|[]]]; auto.
  - intros c' I'. apply In_updateWhere in I' as (c & I & ->).
    destruct (p c); simpl; auto.
  - intros c' I'. apply In_updateWhere in I' as (c & I & ->).
    destruct (hasId id c); simpl; auto.
Qed.

(** ** The statistics after an accepted request *)

Lemma filter_all {A} (l : list A) : filter (fun _ => true) l = l.
Proof. induction l as [|a l IH]; simpl; [reflexivity|now rewrite IH]. Qed.

Lemma getStatistics_eq env w :
  getStatistics env w
  = (Ok {| totalCasinos := List.length (casinos (store w));
           onlineCasinos :=
             List.length (filter (fun c => CasinoStatus_eqb (c_status c) online)
                            (casinos (store w)));
           heartbeatsLast24h :=
             List.length (filter (inLast24h env) (heartbeats (store w))) |}, w).
Proof.
  unfold getStatistics, prisma_casino_count, prisma_heartbeat_count.
  step_through. now rewrite filter_all.
Qed.

(** X22. An accepted heartbeat leaves the number of casinos in the
    statistics as it was, and raises the number of heartbeats of the last
    24 hours by one exactly when the timestamp the request claims is not
    older than 24 hours at the time of the reading, whenever the request
    itself arrived. *)
Theorem X22_heartbeat_in_the_statistics
  (env : Env) (body : HeartbeatPayload) (w w' : World) (reply : Reply) :
  heartbeatRoute env body w = (Ok reply, w') ->
  statusCode reply = 200%Z ->
  forall later : Env,
  exists before after,
    getStatistics later w = (Ok before, w)
    /\ getStatistics later w' = (Ok after, w')
    /\ totalCasinos after = totalCasinos before
    /\ heartbeatsLast24h after
       = heartbeatsLast24h before
         + (if (Date_now later - 24 * 60 * 60 * 1000 <=? hp_timestamp body)%Z
            then 1 else 0).
Proof.
  intros H Code later.
  destruct (heartbeatRoute_store env body w _ w' H) as [[_ N]|(_ & _ & _ & S)].
  { exfalso. apply N. exists reply. split; [reflexivity|exact Code]. }
  do 2 eexists. rewrite !getStatistics_eq.
  split; [reflexivity|]. split; [reflexivity|].
  rewrite S. simpl. unfold updateWhere.
  split; [now rewrite length_map|].
  rewrite filter_app, length_app. simpl. unfold inLast24h at 2. simpl.
  now destruct (_ <=? _)%Z.
Qed.

(** X23. An accepted registration raises the number of casinos and the
    number of online casinos in the statistics by one each and leaves the
    number of recent heartbeats as it was. *)
Theorem X23_registration_in_the_statistics
  (env : Env) (raw : RegistrationRequest) (w w' : World) (reply : Reply) :
  registerRoute env raw w = (Ok reply, w') ->
  statusCode reply = 201%Z ->
  forall later : Env,
  exists before after,
    getStatistics later w = (Ok before, w)
    /\ getStatistics later w' = (Ok after, w')
    /\ totalCasinos after = totalCasinos before + 1
    /\ onlineCasinos after = onlineCasinos before + 1
    /\ heartbeatsLast24h after = heartbeatsLast24h before.
Proof.
  intros H Code later.
  destruct (registerRoute_created env raw w reply w' H Code)
    as (row & _ & S & _ & _ & _ & St & _).
  do 2 eexists. rewrite !getStatistics_eq.
  split; [reflexivity|]. split; [reflexivity|].
  rewrite S. simpl. rewrite filter_app, !length_app. simpl. rewrite St. simpl.
  repeat split.
Qed.

(** ** What an accepted heartbeat leaves alone *)

(** X24. An accepted heartbeat keeps the number of casinos; every casino
    stored after it comes from one stored before it with the same identity
    and the same published profile; the casino of the request has the
    status and the timestamp of the request and the time of the write as
    [updatedAt]; every other casino is the same row as before. *)
Theorem X24_heartbeat_touches_three_columns
  (env : Env) (body : HeartbeatPayload) (w w' : World) (reply : Reply) :
  heartbeatRoute env body w = (Ok reply, w') ->
  statusCode reply = 200%Z ->
  List.length (casinos (store w')) = List.length (casinos (store w))
  /\ forall c', In c' (casinos (store w')) ->
       exists c, In c (casinos (store w))
         /\ sameIdentity c c' /\ sameProfile c c'
         /\ (c_id c <> hp_casinoId body -> c' = c)
         /\ (c_id c = hp_casinoId body ->
               c_status c' = hp_status body
               /\ c_lastHeartbeat c' = Some (hp_timestamp body)
               /\ c_updatedAt c' = Date_now env).
Proof.
  intros H Code.
  destruct (heartbeatRoute_store env body w _ w' H) as [[_ N]|(_ & _ & _ & S)].
  { exfalso. apply N. exists reply. split; [reflexivity|exact Code]. }
  rewrite S. simpl. split; [unfold updateWhere; now rewrite length_map|].
  intros c' I'. apply In_updateWhere in I' as (c & I & ->).
  exists c. split; [exact I|]. unfold hasId.
  destruct (String.eqb_spec (c_id c) (hp_casinoId body)) as [E|N].
  - split; [repeat split|]. split; [repeat split|].
    split; [intros X; now destruct X|].
    intros _. repeat split.
  - split; [repeat split|]. split; [repeat split|].
    split; [reflexivity|]. intros X. now destruct N.
Qed.

(** ** Empty texts *)

Lemma updateRoute_accepted env body w reply w' :
  updateRoute env body w = (Ok reply, w') ->
  statusCode reply = 200%Z ->
  exists old,
    find (fun c => String.eqb (c_id c) (cu_casinoId body)) (casinos (store w))
      = Some old
    /\ reply = sendData env 200
                 (DataCasino (formatCasinoResponse
                                (applyUpdate (Date_now env) (updateData body) old)))
    /\ find (fun c => String.eqb (c_id c) (cu_casinoId body)) (casinos (store w'))
       = Some (applyUpdate (Date_now env) (updateData body) old).
Proof.
  unfold updateRoute, getCasinoById, prisma_casino_findUnique_id, callVerify.
  step_through.
  destruct (find _ (casinos (store w))) as [casino|] eqn:F; simpl.
  2:{ intros [= <- <-]. discriminate. }
  destruct (verifySolanaSignature _ _ _) as [[|]|e]; simpl.
  - unfold updateCasino, prisma_casino_findUnique_id, prisma_casino_update.
    step_through. rewrite F. simpl.
    pose proof (find_id_some _ _ _ F) as [I Eid]. rewrite Eid, F. simpl.
    intros [= <- <-] _. exists casino. simpl.
    split; [reflexivity|]. split; [reflexivity|].
    rewrite find_updateWhere by reflexivity. now rewrite F.
  - intros [= <- <-]. discriminate.
  - destruct (hasMessage e _); intros [= <- <-]; discriminate.
Qed.

(** X25. An update that sets the description to the empty text is accepted
    like any other and the empty text is stored, but the reply, like every
    later reading of the casino, shows no description at all. *)
Theorem X25_empty_description_is_stored_but_not_shown
  (env : Env) (body : CasinoUpdateRequest) (w w' : World) (reply : Reply) :
  updateRoute env body w = (Ok reply, w') ->
  statusCode reply = 200%Z ->
  optChain (cu_metadata body) md_description = Some EmptyString ->
  (exists row,
     find (fun c => String.eqb (c_id c) (cu_casinoId body)) (casinos (store w'))
       = Some row
     /\ c_description row = Some EmptyString)
  /\ (exists shown,
        data reply = Some (DataCasino shown)
        /\ mr_description (cm_metadata shown) = None)
  /\ forall later : Env,
     exists shown,
       casinoByIdRoute later (cu_casinoId body) w'
         = (Ok (sendData later 200 (DataCasino shown)), w')
       /\ mr_description (cm_metadata shown) = None.
Proof.
  intros H Code D.
  destruct (updateRoute_accepted env body w reply w' H Code) as (old & _ & -> & F').
  assert (Dn : c_description (applyUpdate (Date_now env) (updateData body) old)
               = Some EmptyString).
  { simpl. unfold optChain in D. destruct (cu_metadata body); [|discriminate].
    simpl. now rewrite D. }
  remember (applyUpdate (Date_now env) (updateData body) old) as new eqn:En.
  assert (Sh : mr_description (cm_metadata (formatCasinoResponse new)) = None).
  { unfold formatCasinoResponse. cbn [cm_metadata mr_description].
    now rewrite Dn. }
  split; [eexists; split; [exact F'|exact Dn]|].
  split.
  - eexists. split; [reflexivity|exact Sh].
  - intros later. exists (formatCasinoResponse new). split; [|exact Sh].
    unfold casinoByIdRoute, getCasinoById, prisma_casino_findUnique_id.
    unfold bind, ret, getStore. now rewrite F'.
Qed.

(** ** A heartbeat and what follows it *)

Lemma heartbeatRoute_verified env body w reply w' :
  heartbeatRoute env body w = (Ok reply, w') ->
  statusCode reply = 200%Z ->
  exists casino,
    find (hasId (hp_casinoId body)) (casinos (store w)) = Some casino
    /\ verifySolanaSignature (heartbeatMessage body) (hp_signature body)
         (c_publicKey casino) = Ok true.
Proof.
  unfold heartbeatRoute, getCasinoById, prisma_casino_findUnique_id,
    callVerify, heartbeatMessage, hasId.
  step_through.
  destruct (find _ (casinos (store w))) as [casino|] eqn:F; simpl.
  2:{ intros [= <- <-]. discriminate. }
  destruct (verifySolanaSignature _ _ _) as [[|]|e] eqn:V; simpl.
  - intros _ _. exists casino. split; [reflexivity|exact V].
  - intros [= <- <-]. discriminate.
  - destruct (hasMessage e _); intros [= <- <-]; discriminate.
Qed.

Lemma heartbeatRoute_accepts env body w casino :
  find (hasId (hp_casinoId body)) (casinos (store w)) = Some casino ->
  verifySolanaSignature (heartbeatMessage body) (hp_signature body)
    (c_publicKey casino) = Ok true ->
  (forall h, In h (heartbeats (store w)) -> h_id h <> uuid env) ->
  answered (heartbeatRoute env body w) 200.
Proof.
  unfold answered, heartbeatRoute, getCasinoById, prisma_casino_findUnique_id,
    callVerify, heartbeatMessage, hasId.
  step_through. intros F V Fresh. rewrite F. simpl. rewrite V. simpl.
  unfold updateHeartbeat, prisma_casino_findUnique_id, prisma_heartbeat_create,
    prisma_casino_update.
  step_through. rewrite F. simpl.
  rewrite (existsb_id_of_find _ _ _ F). simpl.
  assert (U : existsb (fun h => String.eqb (h_id h) (uuid env))
                (heartbeats (store w)) = false).
  { apply existsb_false_forall. intros h I. apply String.eqb_neq. auto. }
  rewrite U. simpl.
  pose proof (find_id_some _ _ _ F) as [_ Eid]. rewrite Eid, F. simpl.
  eexists. split; reflexivity.
Qed.

Lemma find_map_same (f : Casino -> bool) (g : Casino -> Casino) rows :
  (forall c, f (g c) = f c) ->
  find f (map g rows) = option_map g (find f rows).
Proof.
  intros Hfg. induction rows as [|c r IH]; simpl; [reflexivity|].
  rewrite Hfg. now destruct (f c).
Qed.

Lemma find_hasId_updateWhere id p now d rows :
  find (hasId id) (updateWhere p (applyUpdate now d) rows)
  = option_map (fun c => if p c then applyUpdate now d c else c)
      (find (hasId id) rows).
Proof.
  unfold updateWhere. apply find_map_same. intros c. now destruct (p c).
Qed.

(** X26. The timestamp a heartbeat claims, not the time it arrived, decides
    what the next sweep does with its casino: after an accepted heartbeat a
    sweep whose cutoff lies after the claimed timestamp leaves the casino
    offline, and any other sweep leaves it with the status of the
    heartbeat. *)
Theorem X26_sweep_after_a_heartbeat
  (env : Env) (body : HeartbeatPayload) (w w' : World) (reply : Reply) :
  heartbeatRoute env body w = (Ok reply, w') ->
  statusCode reply = 200%Z ->
  forall (sweep : Env) (timeoutMinutes : Z),
  exists n w'' c,
    markInactiveCasinos sweep timeoutMinutes w' = (Ok n, w'')
    /\ find (fun c => String.eqb (c_id c) (hp_casinoId body)) (casinos (store w''))
       = Some c
    /\ c_status c
       = if (hp_timestamp body <? Date_now sweep - timeoutMinutes * 60 * 1000)%Z
         then offline else hp_status body.
Proof.
  intros H Code sweep timeoutMinutes.
  destruct (heartbeatRoute_verified env body w reply w' H Code) as (c1 & F & _).
  destruct (heartbeatRoute_store env body w _ w' H) as [[_ N]|(_ & _ & _ & S)].
  { exfalso. apply N. exists reply. split; [reflexivity|exact Code]. }
  unfold markInactiveCasinos, prisma_casino_updateMany. step_through.
  do 3 eexists. split; [reflexivity|].
  change (fun c => String.eqb (c_id c) (hp_casinoId body))
    with (hasId (hp_casinoId body)).
  rewrite S. simpl. rewrite !find_hasId_updateWhere, F. simpl.
  split; [reflexivity|].
  unfold hasId. rewrite (proj2 (find_id_some _ _ _ F)), String.eqb_refl.
  unfold inactiveWhere, heartbeatData. simpl.
  destruct (hp_timestamp body <? _)%Z; destruct (hp_status body); reflexivity.
Qed.

(** X27. An accepted heartbeat can be sent again: the same body, signature
    included, is accepted at any later time, whatever its timestamp, as long
    as the store can take the new record. *)
Theorem X27_heartbeat_can_be_replayed
  (env again : Env) (body : HeartbeatPayload) (w w' : World) (reply : Reply) :
  heartbeatRoute env body w = (Ok reply, w') ->
  statusCode reply = 200%Z ->
  (forall h, In h (heartbeats (store w')) -> h_id h <> uuid again) ->
  answered (heartbeatRoute again body w') 200.
Proof.
  intros H Code Fresh.
  destruct (heartbeatRoute_verified env body w reply w' H Code) as (c1 & F & V).
  destruct (heartbeatRoute_store env body w _ w' H) as [[_ N]|(_ & _ & _ & S)].
  { exfalso. apply N. exists reply. split; [reflexivity|exact Code]. }
  apply heartbeatRoute_accepts
    with (casino := applyUpdate (Date_now env) (heartbeatData body) c1);
    [|exact V|exact Fresh].
  rewrite S. simpl. rewrite find_hasId_updateWhere, F. simpl.
  unfold hasId. now rewrite (proj2 (find_id_some _ _ _ F)), String.eqb_refl.
Qed.

End FurtherProperties.

(* ================================================================== *)
(** * The properties on the sample store *)
(* ================================================================== *)

Section OnTheSample.
Import Sample.
Local Existing Instance Sample.platform.
Local Open Scope list_scope.
Local Open Scope Z_scope.

(** Nested names that are not top-level names are left out of the message:
    the property list is the array of top-level keys. *)
Example canonicalMessage_payload :
  canonicalMessage NumberToString payload
  = String.concat EmptyString
      ["{"; QuoteJSONString "metadata"; ":{"; QuoteJSONString "name"; ":";
       QuoteJSONString "inner"; "},"; QuoteJSONString "name"; ":";
       QuoteJSONString "Casino"; ","; QuoteJSONString "timestamp";
       ":1700000000000}"].
Proof. reflexivity. Qed.

(** The message of a registration: none of the names inside [metadata] is a
    top-level name, so [metadata] is written as the empty object. *)
Example canonicalMessage_registration :
  canonicalMessage NumberToString
    (RegistrationRequest_object (RegistrationRequestSchema_parse (registration key2)))
  = String.concat EmptyString
      ["{"; QuoteJSONString "metadata"; ":{},"; QuoteJSONString "name"; ":";
       QuoteJSONString "New Casino"; ","; QuoteJSONString "publicKey"; ":";
       QuoteJSONString key2; ","; QuoteJSONString "url"; ":";
       QuoteJSONString "https://new.example"; "}"].
Proof. reflexivity. Qed.



(** C2 on a heartbeat for the one casino of the store. *)
Lemma C2_witness :
  let env := env 1700000600000 in
  let body := heartbeat "c1" maintenance 1700000000000 key1 in
  let w := world [casino "c1" key1 online None] in
  exists reply w',
    heartbeatRoute env body w = (Ok reply, w')
    /\ statusCode reply = 200
    /\ (exists row, heartbeats (store w') = heartbeats (store w) ++ [row]
                    /\ h_timestamp row = hp_timestamp body)
    /\ (exists c, find (fun c => String.eqb (c_id c) (hp_casinoId body))
                    (casinos (store w')) = Some c
                  /\ c_lastHeartbeat c = Some (hp_timestamp body)).
Proof.
  intros env body w.
  pose (reply := sendData env 200
                   (DataHeartbeat {| ack_success := true;
                                     ack_timestamp := Date_now env;
                                     ack_nextHeartbeatIn := Some 60 |})).
  pose (w' := snd (heartbeatRoute env body w)).
  assert (Run : heartbeatRoute env body w = (Ok reply, w'))
    by (vm_compute; reflexivity).
  exists reply, w'. split; [exact Run|]. split; [reflexivity|].
  destruct (C2_heartbeat_stores_claimed_timestamp env body w w' reply Run eq_refl)
    as ((row & Hh & Ht & _) & (c & Hf & Hl & _) & _).
  split; [exists row; auto|exists c; auto].
Defined.

(** C2 with the server's time does not hold: a heartbeat sent with the
    timestamp 1700000000000 and accepted when the server's clock reads
    1700000600000 is stored with the client's timestamp, as record and as
    [lastHeartbeat]. *)
Lemma C2_counterexample :
  let env := env 1700000600000 in
  let body := heartbeat "c1" maintenance 1700000000000 key1 in
  let out := heartbeatRoute env body (world [casino "c1" key1 online None]) in
  (exists reply, fst out = Ok reply /\ statusCode reply = 200)
  /\ map h_timestamp (heartbeats (store (snd out))) = [1700000000000]
  /\ map c_lastHeartbeat (casinos (store (snd out))) = [Some 1700000000000]
  /\ ~ (forall row, In row (heartbeats (store (snd out))) ->
          h_timestamp row = Date_now env)
  /\ ~ (forall c, In c (casinos (store (snd out))) ->
          c_lastHeartbeat c = Some (Date_now env)).
Proof.
  intros env body out.
  split; [eexists; split; reflexivity|].
  split; [reflexivity|]. split; [reflexivity|]. split.
  - intros H. specialize (H _ (or_introl eq_refl)). vm_compute in H. discriminate.
  - intros H. specialize (H _ (or_introl eq_refl)). vm_compute in H. discriminate.
Qed.

(** C3 with the never-seen casinos last does not hold: of a casino seen at
    5000 and a casino never seen, the list query puts the never-seen one
    first. *)
Lemma C3_counterexample :
  let w := world [casino "c1" key1 online (Some 5000); casino "c2" key2 online None] in
  exists page,
    getCasinos noFilters w = (Ok page, w)
    /\ map cm_id (pg_casinos page) = ["c2"; "c1"]%string
    /\ map cm_lastHeartbeat (pg_casinos page) = [None; Some 5000]
    /\ ~ StronglySorted neverSeenLast (pg_casinos page).
Proof.
  intros w. eexists. split; [reflexivity|].
  split; [reflexivity|]. split; [reflexivity|].
  intros S. inversion S as [|? ? _ F]; subst.
  inversion F as [|? ? Bad _]; subst. exact Bad.
Qed.

(** C4 on a heartbeat for an id the store does not have. *)
Lemma C4_witness :
  let env := env 5000 in
  let body := heartbeat "nobody" online 4000 key2 in
  let w := world [casino "c1" key1 online None] in
  (forall c, In c (casinos (store w)) -> c_id c <> hp_casinoId body)
  /\ heartbeatRoute env body w
     = (Ok (sendError env 404 CASINO_NOT_FOUND "Casino not found"), w).
Proof.
  intros env body w.
  assert (Absent : forall c, In c (casinos (store w)) -> c_id c <> hp_casinoId body)
    by (intros c [<-|[]]; discriminate).
  split; [exact Absent|].
  exact (C4_heartbeat_unknown_casino env body w Absent).
Defined.

(** C5 on the world after one registration, for a second registration with
    the same key. *)
Lemma C5_witness :
  let env := env 5000 in
  let raw := registration key1 in
  let w := snd (registerRoute env raw emptyWorld) in
  reachable w
  /\ (exists c, In c (casinos (store w)) /\ c_publicKey c = reg_publicKey raw)
  /\ NoDup (map c_publicKey (casinos (store w)))
  /\ registerCasino env (RegistrationRequestSchema_parse raw) w
     = (Throw (JsError "CASINO_ALREADY_EXISTS"), w)
  /\ store (snd (registerRoute env raw w)) = store w.
Proof.
  intros env raw w.
  assert (R : reachable w).
  { apply reachable_step with (w := emptyWorld); [constructor|].
    apply step_register with (env := env) (raw := raw)
                             (r := fst (registerRoute env raw emptyWorld)).
    apply surjective_pairing. }
  assert (Dup : exists c, In c (casinos (store w)) /\ c_publicKey c = reg_publicKey raw)
    by (eexists; split; [left; reflexivity|reflexivity]).
  destruct C5_duplicate_key_rejected_nothing_created as [Unique Rejects].
  destruct (Rejects env raw w) as [Service Route].
  destruct (Route _ _ (surjective_pairing (registerRoute env raw w)))
    as (_ & Rejected).
  split; [exact R|]. split; [exact Dup|]. split; [exact (Unique w R)|].
  split; [exact (Service Dup)|exact (proj1 (Rejected Dup))].
Defined.

(** C6 on an update that carries [metadata.description] only. *)
Lemma C6_witness :
  let env := env 5000 in
  let body := descriptionOnly "c1" key1 "New text" in
  let w := world [casino "c1" key1 online None] in
  exists reply w',
    updateRoute env body w = (Ok reply, w')
    /\ statusCode reply = 200
    /\ exists old new,
         find (fun c => String.eqb (c_id c) "c1") (casinos (store w)) = Some old
         /\ find (fun c => String.eqb (c_id c) "c1") (casinos (store w')) = Some new
         /\ c_description new = Some "New text"%string
         /\ c_games new = c_games old
         /\ c_twitterUrl new = c_twitterUrl old
         /\ c_supportedTokens new = c_supportedTokens old
         /\ c_publicKey new = c_publicKey old.
Proof.
  intros env body w.
  pose (out := updateRoute env body w).
  pose (reply := match fst out with Ok r => r | Throw _ => sendError env 500 INTERNAL_ERROR EmptyString end).
  assert (Run : updateRoute env body w = (Ok reply, snd out))
    by (vm_compute; reflexivity).
  exists reply, (snd out). split; [exact Run|]. split; [reflexivity|].
  destruct (C6_update_is_partial_merge env body w (snd out) reply Run eq_refl)
    as (old & new & Fo & Fn & _ & (_ & Hk & _) & _ & (Hd & Hg & _ & _ & _ & _ & Ht)
        & (Htw & _) & _).
  exists old, new. repeat split; assumption.
Defined.

(** C8 on a registration that gives neither games nor tokens. *)
Lemma C8_witness :
  let env := env 5000 in
  let raw := registration key2 in
  let w := world [casino "c1" key1 online None] in
  exists reply w',
    registerRoute env raw w = (Ok reply, w')
    /\ statusCode reply = 201
    /\ exists row,
         casinos (store w') = casinos (store w) ++ [row]
         /\ c_status row = online
         /\ c_lastHeartbeat row = None
         /\ c_version row = protocolVersion
         /\ c_games row = []
         /\ c_supportedTokens row = ["SOL"%string].
Proof.
  intros env raw w.
  pose (out := registerRoute env raw w).
  pose (reply := match fst out with Ok r => r | Throw _ => sendError env 500 INTERNAL_ERROR EmptyString end).
  assert (Run : registerRoute env raw w = (Ok reply, snd out))
    by (vm_compute; reflexivity).
  exists reply, (snd out). split; [exact Run|]. split; [reflexivity|].
  destruct (C8_registration_creates_online_record_with_defaults
              env raw w (snd out) reply Run eq_refl)
    as (row & Hc & _ & Hs & Hl & Hv & Hg & Ht).
  exists row. repeat split; assumption.
Defined.

(** C10 on a store with one stale casino and one never seen. *)
Lemma C10_witness :
  let env := env 100000000 in
  let never := casino "c2" key2 online None in
  let seen := casino "c1" key1 online (Some 1000) in
  let w := world [seen; never] in
  c_lastHeartbeat never = None
  /\ exists n w',
       markInactiveCasinos env 10 w = (Ok n, w')
       /\ n = 1%nat
       /\ In never (casinos (store w'))
       /\ map c_status (casinos (store w')) = [offline; online].
Proof.
  intros env never seen w.
  split; [reflexivity|].
  destruct (C10_sweep_skips_never_seen env 10 never [seen] [] [] [] eq_refl)
    as (n & above' & below' & w' & w0' & Run & Run0 & Hc & _ & _).
  exists n, w'. split; [exact Run|].
  vm_compute in Run0. inversion Run0; subst n.
  vm_compute in Run. inversion Run; subst w'. clear Run Run0.
  split; [reflexivity|]. split; [right; left; reflexivity|reflexivity].
Defined.

(** C3 on a store of three casinos, one of them never seen. *)
Lemma C3_witness :
  let w := world [casino "c1" key1 online (Some 5000);
                  casino "c2" key2 online None;
                  casino "c3" key3 offline (Some 7000)] in
  exists page,
    getCasinos noFilters w = (Ok page, w)
    /\ map cm_id (pg_casinos page) = ["c2"; "c3"; "c1"]%string
    /\ StronglySorted neverSeenFirst (pg_casinos page)
    /\ pg_total page = 3%nat.
Proof.
  intros w.
  destruct (C3_list_never_seen_first_and_total noFilters w)
    as (page & Run & Sorted & Total & _).
  exists page. split; [exact Run|].
  vm_compute in Run. inversion Run; subst page. clear Run.
  split; [reflexivity|]. split; [exact Sorted|reflexivity].
Defined.

(** C7 on a store with one stale casino, one seen a second ago and one
    offline already. *)
Lemma C7_witness :
  let env := env 100000000 in
  let w := world [casino "c1" key1 online (Some 1000);
                  casino "c2" key2 maintenance (Some 99999000);
                  casino "c3" key3 offline (Some 1000)] in
  exists n w',
    markInactiveCasinos env 10 w = (Ok n, w')
    /\ n = 1%nat
    /\ map c_status (casinos (store w')) = [offline; maintenance; offline]
    /\ n = transitions (casinos (store w)) (casinos (store w')).
Proof.
  intros env w.
  destruct (C7_sweep_transitions_exactly_the_stale env 10 w)
    as (n & w' & Run & _ & _ & Count & _).
  exists n, w'. split; [exact Run|].
  split; [|split; [|exact Count]];
    vm_compute in Run; inversion Run; reflexivity.
Defined.

(** C9 on a signature of the wrong length and on a good one. *)
Lemma C9_witness :
  verifySolanaSignature "message" "short" key1 = Ok false
  /\ verifySolanaSignature "message" (signedBy key1) key1 = Ok true.
Proof.
  split.
  - destruct (C9_verifySolanaSignature_total "message" "short" key1)
      as ((b & Run) & True_iff & _).
    destruct b; [|exact Run].
    apply True_iff in Run as (sig & key & Hs & Ls & _).
    vm_compute in Hs. inversion Hs; subst sig. discriminate Ls.
  - apply (C9_verifySolanaSignature_total "message" (signedBy key1) key1).
    do 2 eexists. repeat split; reflexivity.
Defined.

End OnTheSample.

(* ================================================================== *)
(** * The further properties on the sample store *)
(* ================================================================== *)

Section FurtherOnTheSample.
Import Sample FurtherSample.
Local Existing Instance Sample.platform.
Local Open Scope list_scope.
Local Open Scope Z_scope.

Lemma afterRegistration_step : step emptyWorld afterRegistration.
Proof.
  apply step_register
    with (env := env 5000) (raw := registration key1)
         (r := fst (registerRoute (env 5000) (registration key1) emptyWorld)).
  apply surjective_pairing.
Qed.

Lemma afterHeartbeat_step : step afterRegistration afterHeartbeat.
Proof.
  apply step_heartbeat
    with (env := env 6000) (body := heartbeat "fresh-uuid" maintenance 5500 key1)
         (r := fst (heartbeatRoute (env 6000)
                      (heartbeat "fresh-uuid" maintenance 5500 key1)
                      afterRegistration)).
  apply surjective_pairing.
Qed.

Lemma afterHeartbeat_reachable : reachable afterHeartbeat.
Proof.
  apply reachable_step with (w := afterRegistration);
    [|exact afterHeartbeat_step].
  apply reachable_step with (w := emptyWorld);
    [constructor|exact afterRegistration_step].
Qed.

(** The store of [afterHeartbeat] holds one casino and one heartbeat. *)
Example afterHeartbeat_store :
  map c_id (casinos (store afterHeartbeat)) = ["fresh-uuid"%string]
  /\ map c_lastHeartbeat (casinos (store afterHeartbeat)) = [Some 5500]
  /\ map h_casinoId (heartbeats (store afterHeartbeat)) = ["fresh-uuid"%string].
Proof. vm_compute. repeat split. Qed.

(** X1 on an update for an id that is not in the store. *)
Lemma X1_witness :
  let env := env 5000 in
  let body := descriptionOnly "c9" key1 "New text" in
  (forall c, In c (casinos (store store1)) -> c_id c <> cu_casinoId body)
  /\ updateRoute env body store1
     = (Ok (sendError env 404 CASINO_NOT_FOUND "Casino not found"), store1).
Proof.
  intros env body.
  assert (H : forall c, In c (casinos (store store1)) -> c_id c <> cu_casinoId body).
  { intros c [<-|[]]. simpl. discriminate. }
  split; [exact H|exact (X1_update_unknown_casino env body store1 H)].
Defined.

(** X2 on a heartbeat for [c1] signed with another key. *)
Lemma X2_witness :
  let env := env 5000 in
  let body := heartbeat "c1" maintenance 4000 key2 in
  let c := casino "c1" key1 online None in
  find (fun c => String.eqb (c_id c) (hp_casinoId body)) (casinos (store store1))
    = Some c
  /\ verifySolanaSignature (heartbeatMessage body) (hp_signature body)
       (c_publicKey c) = Ok false
  /\ fst (heartbeatRoute env body store1)
     = Ok (sendError env 401 INVALID_SIGNATURE "Signature verification failed")
  /\ store (snd (heartbeatRoute env body store1)) = store store1.
Proof.
  intros env body c.
  assert (F : find (fun c => String.eqb (c_id c) (hp_casinoId body))
                (casinos (store store1)) = Some c) by reflexivity.
  assert (V : verifySolanaSignature (heartbeatMessage body) (hp_signature body)
                (c_publicKey c) = Ok false) by (vm_compute; reflexivity).
  split; [exact F|]. split; [exact V|].
  rewrite (X2_heartbeat_bad_signature env body store1 c F V).
  split; reflexivity.
Defined.

(** X3 on an update for [c1] signed with another key. *)
Lemma X3_witness :
  let env := env 5000 in
  let body := descriptionOnly "c1" key2 "New text" in
  let c := casino "c1" key1 online None in
  find (fun c => String.eqb (c_id c) (cu_casinoId body)) (casinos (store store1))
    = Some c
  /\ verifySolanaSignature (updateMessage body) (cu_signature body)
       (c_publicKey c) = Ok false
  /\ fst (updateRoute env body store1)
     = Ok (sendError env 401 INVALID_SIGNATURE "Signature verification failed")
  /\ store (snd (updateRoute env body store1)) = store store1.
Proof.
  intros env body c.
  assert (F : find (fun c => String.eqb (c_id c) (cu_casinoId body))
                (casinos (store store1)) = Some c) by reflexivity.
  assert (V : verifySolanaSignature (updateMessage body) (cu_signature body)
                (c_publicKey c) = Ok false) by (vm_compute; reflexivity).
  split; [exact F|]. split; [exact V|].
  rewrite (X3_update_bad_signature env body store1 c F V).
  split; reflexivity.
Defined.

(** X4 on a heartbeat for [c1] signed with its key. *)
Lemma X4_witness :
  let env := env 1700000600000 in
  let body := heartbeat "c1" maintenance 4000 key1 in
  answered (heartbeatRoute env body store1) 200
  /\ exists casino,
       find (fun c => String.eqb (c_id c) (hp_casinoId body)) (casinos (store store1))
         = Some casino
       /\ verifySolanaSignature (heartbeatMessage body) (hp_signature body)
            (c_publicKey casino) = Ok true.
Proof.
  intros env body.
  assert (A : answered (heartbeatRoute env body store1) 200)
    by (vm_compute; eexists; split; reflexivity).
  split; [exact A|exact (X4_heartbeat_accepted_only_if env body store1 A)].
Defined.

(** X5 on an update for [c1] signed with its key. *)
Lemma X5_witness :
  let env := env 5000 in
  let body := descriptionOnly "c1" key1 "New text" in
  answered (updateRoute env body store1) 200
  /\ exists casino,
       find (fun c => String.eqb (c_id c) (cu_casinoId body)) (casinos (store store1))
         = Some casino
       /\ verifySolanaSignature (updateMessage body) (cu_signature body)
            (c_publicKey casino) = Ok true.
Proof.
  intros env body.
  assert (A : answered (updateRoute env body store1) 200)
    by (vm_compute; eexists; split; reflexivity).
  split; [exact A|exact (X5_update_accepted_only_if env body store1 A)].
Defined.

(** X6 on a registration without a signature and on one with a key of five
    characters. *)
Lemma X6_witness :
  let env := env 5000 in
  registerRoute env (unsigned key2) store1
  = (Ok (sendError env 400 INVALID_REQUEST "Missing signature"), store1)
  /\ isValidSolanaPublicKey "short" = Ok false
  /\ registerRoute env (registration "short") store1
     = (Ok (sendError env 400 INVALID_REQUEST "Invalid Solana public key format"),
        store1).
Proof.
  intros env.
  assert (K : isValidSolanaPublicKey "short" = Ok false) by (vm_compute; reflexivity).
  split; [|split; [exact K|]].
  - exact (proj1 (X6_registration_refused_before_verification
                    env (unsigned key2) store1) eq_refl).
  - apply (proj2 (X6_registration_refused_before_verification
                    env (registration "short") store1)).
    + simpl. discriminate.
    + simpl. discriminate.
    + exact K.
Defined.

(** X7 on a key of five characters. *)
Lemma X7_witness :
  isValidSolanaPublicKey "short" = Ok false
  /\ verifySolanaSignature "message" (signedBy "short") "short" = Ok false.
Proof.
  assert (K : isValidSolanaPublicKey "short" = Ok false) by (vm_compute; reflexivity).
  split; [exact K|].
  exact (X7_rejected_key_verifies_nothing "short" K "message" (signedBy "short")).
Defined.

(** X8 on two registrations of one key with different descriptions. *)
Lemma X8_witness :
  let b1 := described key2 "A casino" in
  let b2 := described key2 "Another casino altogether" in
  reg_metadata b1 <> reg_metadata b2
  /\ registrationMessage b1 = registrationMessage b2.
Proof.
  intros b1 b2. split; [simpl; discriminate|].
  exact (proj1 (X8_registration_signature_leaves_metadata_out b1 b2
                  eq_refl eq_refl eq_refl)).
Defined.

(** X9 on two updates of [c1] with different descriptions. *)
Lemma X9_witness :
  let b1 := descriptionOnly "c1" key1 "One text" in
  let b2 := descriptionOnly "c1" key1 "Another text" in
  cu_metadata b1 <> cu_metadata b2
  /\ updateMessage b1 = updateMessage b2.
Proof.
  intros b1 b2. split; [simpl; discriminate|].
  exact (proj1 (X9_update_signature_leaves_metadata_out b1 b2
                  eq_refl eq_refl eq_refl eq_refl eq_refl)).
Defined.

(** X10 on two heartbeats of [c1] that report 3 and 700 active players. *)
Lemma X10_witness :
  let b1 := measured "c1" online 4000 key1 3 in
  let b2 := measured "c1" online 4000 key1 700 in
  hp_metrics b1 <> hp_metrics b2
  /\ heartbeatMessage b1 = heartbeatMessage b2.
Proof.
  intros b1 b2. split; [simpl; discriminate|].
  exact (proj1 (X10_heartbeat_signature_leaves_metrics_out b1 b2
                  eq_refl eq_refl eq_refl eq_refl)).
Defined.

(** X11 on the registration of a second key. *)
Lemma X11_witness :
  let env := env 5000 in
  let raw := registration key2 in
  answered (registerRoute env raw store1) 201
  /\ isValidSolanaPublicKey (reg_publicKey raw) = Ok true
  /\ verifySolanaSignature (registrationMessage raw) (reg_signature raw)
       (reg_publicKey raw) = Ok true
  /\ (forall c, In c (casinos (store store1)) -> c_publicKey c <> reg_publicKey raw).
Proof.
  intros env raw.
  assert (A : answered (registerRoute env raw store1) 201)
    by (vm_compute; eexists; split; reflexivity).
  split; [exact A|].
  destruct (X11_registration_accepted_only_if env raw store1 A)
    as (_ & _ & K & V & Fr).
  split; [exact K|]. split; [exact V|exact Fr].
Defined.

(** X14 on the registration of a second key. *)
Lemma X14_witness :
  let env := env 5000 in
  let raw := registration key2 in
  exists reply w',
    registerRoute env raw store1 = (Ok reply, w')
    /\ statusCode reply = 201
    /\ exists casino,
         data reply = Some (DataCasino casino)
         /\ casinoByIdRoute (Sample.env 9000) (cm_id casino) w'
            = (Ok (sendData (Sample.env 9000) 200 (DataCasino casino)), w')
         /\ casinoByKeyRoute (Sample.env 9000) key2 w'
            = (Ok (sendData (Sample.env 9000) 200 (DataCasino casino)), w').
Proof.
  intros env raw.
  assert (Run : exists reply w',
            registerRoute env raw store1 = (Ok reply, w')
            /\ statusCode reply = 201)
    by (vm_compute; do 2 eexists; split; reflexivity).
  destruct Run as (reply & w' & Run & Code).
  exists reply, w'. split; [exact Run|]. split; [exact Code|].
  destruct (X14_registered_casino_is_found env (Sample.env 9000) raw store1 w'
              reply Run Code) as (m & D & _ & I & K).
  exists m. split; [exact D|]. split; [exact I|exact K].
Defined.

(** X15 on a store of three casinos: one never seen, one seen at 10 and one
    seen at 20. *)
Lemma X15_witness :
  let w := world [casino "c1" key1 online None; casino "c2" key2 online (Some 10);
                  casino "c3" key3 offline (Some 20)] in
  let query o l := {| cf_status := None; cf_games := None;
                      cf_limit := l; cf_offset := o |} in
  NoDup (map c_lastHeartbeat
           (filter (casinosWhere (query 0%nat 1%nat)) (casinos (store w))))
  /\ exists first next both,
       getCasinos (query 0%nat 1%nat) w = (Ok first, w)
       /\ getCasinos (query 1%nat 2%nat) w = (Ok next, w)
       /\ getCasinos (query 0%nat 3%nat) w = (Ok both, w)
       /\ map cm_id (pg_casinos first) = ["c1"%string]
       /\ pg_casinos first ++ pg_casinos next = pg_casinos both.
Proof.
  intros w query.
  assert (ND : NoDup (map c_lastHeartbeat
                        (filter (casinosWhere (query 0%nat 1%nat))
                           (casinos (store w))))).
  { vm_compute. repeat (constructor; [simpl; intuition discriminate|]).
    constructor. }
  split; [exact ND|].
  destruct (X15_pages_fit_together None None 0 1 2 w)
    as (f & n & b & F & N & B & _ & _ & _ & _ & H).
  exists f, n, b. split; [exact F|]. split; [exact N|]. split; [exact B|].
  split; [|exact (proj2 (H ND))].
  inversion F. reflexivity.
Defined.

(** X18 on the store after a registration and a heartbeat. *)
Lemma X18_witness :
  reachable afterHeartbeat
  /\ NoDup (map c_id (casinos (store afterHeartbeat)))
  /\ NoDup (map h_id (heartbeats (store afterHeartbeat))).
Proof.
  split; [exact afterHeartbeat_reachable|].
  exact (X18_ids_are_unique afterHeartbeat afterHeartbeat_reachable).
Defined.


(** X20 on the heartbeat that follows the registration. *)
Lemma X20_witness :
  step afterRegistration afterHeartbeat
  /\ (forall c, In c (casinos (store afterRegistration)) ->
        exists c', In c' (casinos (store afterHeartbeat)) /\ sameIdentity c c')
  /\ (exists more, heartbeats (store afterHeartbeat)
                   = heartbeats (store afterRegistration) ++ more).
Proof.
  split; [exact afterHeartbeat_step|].
  exact (X20_identity_and_history_are_kept afterRegistration afterHeartbeat
           afterHeartbeat_step).
Defined.

(** X21 on the store after a registration and a heartbeat. *)
Lemma X21_witness :
  reachable afterHeartbeat
  /\ forall c, In c (casinos (store afterHeartbeat)) -> c_version c = protocolVersion.
Proof.
  split; [exact afterHeartbeat_reachable|].
  exact (X21_version_is_the_protocol_version afterHeartbeat afterHeartbeat_reachable).
Defined.

(** X22 on a heartbeat stamped 4000 and read at two later times: one within
    24 hours of the stamp and one past it. *)
Lemma X22_witness :
  let env := env 1700000600000 in
  let body := heartbeat "c1" maintenance 4000 key1 in
  exists reply w',
    heartbeatRoute env body store1 = (Ok reply, w')
    /\ statusCode reply = 200
    /\ (exists before after,
          getStatistics (Sample.env 86404000) store1 = (Ok before, store1)
          /\ getStatistics (Sample.env 86404000) w' = (Ok after, w')
          /\ heartbeatsLast24h after = (heartbeatsLast24h before + 1)%nat)
    /\ (exists before after,
          getStatistics (Sample.env 86404001) store1 = (Ok before, store1)
          /\ getStatistics (Sample.env 86404001) w' = (Ok after, w')
          /\ heartbeatsLast24h after = heartbeatsLast24h before).
Proof.
  intros env body.
  assert (Run : exists reply w',
            heartbeatRoute env body store1 = (Ok reply, w')
            /\ statusCode reply = 200)
    by (vm_compute; do 2 eexists; split; reflexivity).
  destruct Run as (reply & w' & Run & Code).
  exists reply, w'. split; [exact Run|]. split; [exact Code|].
  split.
  - destruct (X22_heartbeat_in_the_statistics env body store1 w' reply Run Code
                (Sample.env 86404000)) as (b & a & B & A & _ & N).
    exists b, a. split; [exact B|]. split; [exact A|exact N].
  - destruct (X22_heartbeat_in_the_statistics env body store1 w' reply Run Code
                (Sample.env 86404001)) as (b & a & B & A & _ & N).
    exists b, a. split; [exact B|]. split; [exact A|].
    rewrite N. apply Nat.add_0_r.
Defined.

(** X23 on the registration of a second key. *)
Lemma X23_witness :
  let env := env 5000 in
  let raw := registration key2 in
  exists reply w',
    registerRoute env raw store1 = (Ok reply, w')
    /\ statusCode reply = 201
    /\ exists before after,
         getStatistics (Sample.env 9000) store1 = (Ok before, store1)
         /\ getStatistics (Sample.env 9000) w' = (Ok after, w')
         /\ totalCasinos after = (totalCasinos before + 1)%nat
         /\ onlineCasinos after = (onlineCasinos before + 1)%nat
         /\ heartbeatsLast24h after = heartbeatsLast24h before.
Proof.
  intros env raw.
  assert (Run : exists reply w',
            registerRoute env raw store1 = (Ok reply, w')
            /\ statusCode reply = 201)
    by (vm_compute; do 2 eexists; split; reflexivity).
  destruct Run as (reply & w' & Run & Code).
  exists reply, w'. split; [exact Run|]. split; [exact Code|].
  exact (X23_registration_in_the_statistics env raw store1 w' reply Run Code
           (Sample.env 9000)).
Defined.

(** X24 on a heartbeat for the first of two casinos. *)
Lemma X24_witness :
  let env := env 1700000600000 in
  let body := heartbeat "c1" maintenance 4000 key1 in
  let w := world [casino "c1" key1 online None; casino "c2" key2 online None] in
  exists reply w',
    heartbeatRoute env body w = (Ok reply, w')
    /\ statusCode reply = 200
    /\ List.length (casinos (store w')) = 2%nat
    /\ forall c', In c' (casinos (store w')) ->
         exists c, In c (casinos (store w))
           /\ sameIdentity c c' /\ sameProfile c c'
           /\ (c_id c <> hp_casinoId body -> c' = c).
Proof.
  intros env body w.
  assert (Run : exists reply w',
            heartbeatRoute env body w = (Ok reply, w')
            /\ statusCode reply = 200)
    by (vm_compute; do 2 eexists; split; reflexivity).
  destruct Run as (reply & w' & Run & Code).
  exists reply, w'. split; [exact Run|]. split; [exact Code|].
  destruct (X24_heartbeat_touches_three_columns env body w w' reply Run Code)
    as [L Rows].
  split; [exact L|].
  intros c' I'. destruct (Rows c' I') as (c & I & Id & Pr & Same & _).
  exists c. split; [exact I|]. split; [exact Id|]. split; [exact Pr|exact Same].
Defined.

(** X25 on an update of [c1] that sets the description to the empty text. *)
Lemma X25_witness :
  let env := env 5000 in
  let body := descriptionOnly "c1" key1 EmptyString in
  exists reply w',
    updateRoute env body store1 = (Ok reply, w')
    /\ statusCode reply = 200
    /\ optChain (cu_metadata body) md_description = Some EmptyString
    /\ (exists row,
          find (fun c => String.eqb (c_id c) (cu_casinoId body)) (casinos (store w'))
            = Some row
          /\ c_description row = Some EmptyString)
    /\ (exists shown,
          data reply = Some (DataCasino shown)
          /\ mr_description (cm_metadata shown) = None).
Proof.
  intros env body.
  assert (Run : exists reply w',
            updateRoute env body store1 = (Ok reply, w')
            /\ statusCode reply = 200)
    by (vm_compute; do 2 eexists; split; reflexivity).
  destruct Run as (reply & w' & Run & Code).
  exists reply, w'. split; [exact Run|]. split; [exact Code|].
  split; [reflexivity|].
  destruct (X25_empty_description_is_stored_but_not_shown env body store1 w' reply
              Run Code eq_refl) as (Stored & Shown & _).
  split; [exact Stored|exact Shown].
Defined.

(** X26 on a heartbeat stamped 4000 and two sweeps with a timeout of one
    minute: one at 64000, whose cutoff is the stamp, and one a millisecond
    later. *)
Lemma X26_witness :
  let env := env 1700000600000 in
  let body := heartbeat "c1" maintenance 4000 key1 in
  exists reply w',
    heartbeatRoute env body store1 = (Ok reply, w')
    /\ statusCode reply = 200
    /\ (exists n w'' c,
          markInactiveCasinos (Sample.env 64000) 1 w' = (Ok n, w'')
          /\ find (fun c => String.eqb (c_id c) "c1") (casinos (store w'')) = Some c
          /\ c_status c = maintenance)
    /\ (exists n w'' c,
          markInactiveCasinos (Sample.env 64001) 1 w' = (Ok n, w'')
          /\ find (fun c => String.eqb (c_id c) "c1") (casinos (store w'')) = Some c
          /\ c_status c = offline).
Proof.
  intros env body.
  assert (Run : exists reply w',
            heartbeatRoute env body store1 = (Ok reply, w')
            /\ statusCode reply = 200)
    by (vm_compute; do 2 eexists; split; reflexivity).
  destruct Run as (reply & w' & Run & Code).
  exists reply, w'. split; [exact Run|]. split; [exact Code|].
  split.
  - exact (X26_sweep_after_a_heartbeat env body store1 w' reply Run Code
             (Sample.env 64000) 1).
  - exact (X26_sweep_after_a_heartbeat env body store1 w' reply Run Code
             (Sample.env 64001) 1).
Defined.

(** X27 on a heartbeat stamped 4000, accepted once and sent again under
    another record id. *)
Lemma X27_witness :
  let env := env 1700000600000 in
  let again := {| Date_now := 1800000000000; uuid := "another-uuid" |} in
  let body := heartbeat "c1" maintenance 4000 key1 in
  exists reply w',
    heartbeatRoute env body store1 = (Ok reply, w')
    /\ statusCode reply = 200
    /\ (forall h, In h (heartbeats (store w')) -> h_id h <> uuid again)
    /\ answered (heartbeatRoute again body w') 200.
Proof.
  intros env again body.
  assert (Run : exists reply w',
            heartbeatRoute env body store1 = (Ok reply, w')
            /\ statusCode reply = 200
            /\ map h_id (heartbeats (store w')) = ["fresh-uuid"%string])
    by (vm_compute; do 2 eexists; split; [|split]; reflexivity).
  destruct Run as (reply & w' & Run & Code & Ids).
  assert (Fresh : forall h, In h (heartbeats (store w')) -> h_id h <> uuid again).
  { intros h I. apply (in_map h_id) in I. rewrite Ids in I.
    destruct I as [<-|[]]. simpl. discriminate. }
  exists reply, w'. split; [exact Run|]. split; [exact Code|].
  split; [exact Fresh|].
  exact (X27_heartbeat_can_be_replayed env again body store1 w' reply Run Code Fresh).
Defined.

End FurtherOnTheSample.
